(** * pdf-processor: customer detection, template engine, text extraction
      and the processing orchestrator

    A shallow embedding of [src/lib/customer-detector.ts] and of the three
    classes held in [src/lib/template-engine.ts] ([TemplateEngine],
    [PDFProcessor], [ProcessingOrchestrator]).

    Modelling conventions.
    - A JavaScript string is a [string]; the code units considered are the
      7-bit ASCII ones, so [toLowerCase] only moves [A-Z] and the white
      space class is tab, line feed, vertical tab, form feed, carriage
      return and space.
    - A JavaScript number that carries a confidence, a weight or a score is
      an exact rational ([Q]); lengths, counters and indices are [nat].
    - [null]/[undefined] is [None].
    - A call that may throw returns a [result].
    - The regular expression engine, number and date parsing, the PDF and
      recognition libraries and the storage layer are not part of the
      repository: the definitions take them as parameters. *)

From Stdlib Require Import String Ascii List Bool Arith ZArith QArith Lia Lqa Sorted.
From Stdlib Require Import DecimalString.
Import ListNotations.

Close Scope Q_scope.
Open Scope list_scope.
Open Scope string_scope.
Open Scope nat_scope.

(** ** Outcome of a call that may throw *)

Inductive result (A : Type) : Type :=
| Ok (a : A)
| Throw (message : string).
Arguments Ok {A} a.
Arguments Throw {A} message.

(** ** Comparisons on rationals, as booleans *)

Definition Qgtb (a b : Q) : bool := negb (Qle_bool a b).

(** [Math.min] *)
Definition Math_min (a b : Q) : Q := if Qgtb a b then b else a.

Definition Qnat (n : nat) : Q := inject_Z (Z.of_nat n).

(** ** String primitives of the runtime *)

Module JS.

Definition is_upper (c : ascii) : bool :=
  (65 <=? nat_of_ascii c) && (nat_of_ascii c <=? 90).

Definition is_lower (c : ascii) : bool :=
  (97 <=? nat_of_ascii c) && (nat_of_ascii c <=? 122).

Definition is_alpha (c : ascii) : bool := is_upper c || is_lower c.

Definition is_digit (c : ascii) : bool :=
  (48 <=? nat_of_ascii c) && (nat_of_ascii c <=? 57).

(** The class [\s], which is also what [trim] removes. *)
Definition is_space (c : ascii) : bool :=
  let n := nat_of_ascii c in
  (n =? 9) || (n =? 10) || (n =? 11) || (n =? 12) || (n =? 13) || (n =? 32).

(** What [.] refuses to match. *)
Definition is_line_terminator (c : ascii) : bool :=
  let n := nat_of_ascii c in (n =? 10) || (n =? 13).

Definition lower_char (c : ascii) : ascii :=
  if is_upper c then ascii_of_nat (nat_of_ascii c + 32) else c.

Fixpoint toLowerCase (s : string) : string :=
  match s with
  | EmptyString => EmptyString
  | String c s' => String (lower_char c) (toLowerCase s')
  end.

(** [s.indexOf(sub)]; [None] stands for [-1]. *)
Fixpoint indexOf (s sub : string) : option nat :=
  if String.prefix sub s then Some 0
  else match s with
       | EmptyString => None
       | String _ s' => option_map S (indexOf s' sub)
       end.

Definition includes (s sub : string) : bool :=
  match indexOf s sub with Some _ => true | None => false end.

(** [s.substring(n)] *)
Fixpoint substring_from (n : nat) (s : string) : string :=
  match n, s with
  | 0, _ => s
  | S n', String _ s' => substring_from n' s'
  | S _, EmptyString => EmptyString
  end.

Fixpoint trimStart (s : string) : string :=
  match s with
  | EmptyString => EmptyString
  | String c s' => if is_space c then trimStart s' else s
  end.

Fixpoint trimEnd (s : string) : string :=
  match s with
  | EmptyString => EmptyString
  | String c s' =>
      match trimEnd s' with
      | EmptyString => if is_space c then EmptyString else String c EmptyString
      | t => String c t
      end
  end.

Definition trim (s : string) : string := trimEnd (trimStart s).

(** [s.split(sep)] for a one-character separator: never the empty list. *)
Fixpoint split_char (sep : ascii) (s : string) : list string :=
  match s with
  | EmptyString => [EmptyString]
  | String c s' =>
      if Ascii.eqb c sep then EmptyString :: split_char sep s'
      else match split_char sep s' with
           | w :: ws => String c w :: ws
           | [] => [String c EmptyString]
           end
  end.

Definition newline : ascii := ascii_of_nat 10.

Definition lines (s : string) : list string := split_char newline s.

(** [s.split(/\s+/)]: the pieces between maximal runs of white space.  A
    run at either end leaves an empty piece there, and the empty string
    splits into one empty piece. [in_run] tells that the character before
    was white space. *)
Fixpoint split_ws_from (in_run : bool) (s : string) : list string :=
  match s with
  | EmptyString => [EmptyString]
  | String c s' =>
      if is_space c then
        if in_run then split_ws_from true s'
        else EmptyString :: split_ws_from true s'
      else match split_ws_from false s' with
           | w :: ws => String c w :: ws
           | [] => [String c EmptyString]
           end
  end.

Definition split_ws (s : string) : list string := split_ws_from false s.

(** [xs.join(sep)] *)
Definition join (sep : string) (xs : list string) : string :=
  String.concat sep xs.

(** [xs.slice(a, b)] for [0 <= a] and [0 <= b] *)
Definition slice {A : Type} (a b : nat) (xs : list A) : list A :=
  firstn (b - a) (skipn a xs).

(** [xs.slice(-k)] for [0 < k <= xs.length]: the last [k] elements. *)
Definition slice_last {A : Type} (k : nat) (xs : list A) : list A :=
  skipn (List.length xs - k) xs.

(** [s.replace(/c/g, r)] for a one-character pattern *)
Fixpoint replace_all_char (c : ascii) (r : string) (s : string) : string :=
  match s with
  | EmptyString => EmptyString
  | String d s' =>
      if Ascii.eqb d c then r ++ replace_all_char c r s'
      else String d (replace_all_char c r s')
  end.

(** [s.replace(sub, r)] with a string pattern: the first occurrence only. *)
Fixpoint replace_first (sub r : string) (s : string) : string :=
  if String.prefix sub s then r ++ substring_from (String.length sub) s
  else match s with
       | EmptyString => EmptyString
       | String c s' => String c (replace_first sub r s')
       end.

(** A plain object used as a map from field names: [o[k] = v] keeps the
    place of a key that is already there and appends a new key. *)
Fixpoint obj_set {V : Type} (o : list (string * V)) (k : string) (v : V)
  : list (string * V) :=
  match o with
  | [] => [(k, v)]
  | (k', v') :: o' => if String.eqb k' k then (k, v) :: o'
                      else (k', v') :: obj_set o' k v
  end.

(** [o[k]] *)
Fixpoint obj_get {V : Type} (o : list (string * V)) (k : string) : option V :=
  match o with
  | [] => None
  | (k', v') :: o' => if String.eqb k' k then Some v' else obj_get o' k
  end.

(** The first element that satisfies [f], with its index. *)
Fixpoint findIndex {A : Type} (f : A -> bool) (xs : list A) : option nat :=
  match xs with
  | [] => None
  | x :: xs' => if f x then Some 0 else option_map S (findIndex f xs')
  end.

(** A JSON value, as a JSON column of the database is read. *)
#[warnings="-register-all"]
Inductive json : Type :=
| JNull
| JBool (b : bool)
| JNum (x : Q)
| JStr (s : string)
| JArr (items : list json)
| JObj (entries : list (string * json)).

(** Truthiness of a value that may be [undefined] ([None]). *)
Definition truthy (v : option json) : bool :=
  match v with
  | None => false
  | Some JNull => false
  | Some (JBool b) => b
  | Some (JNum x) => negb (Qeq_bool x 0)
  | Some (JStr s) => negb (String.eqb s "")
  | Some (JArr _) => true
  | Some (JObj _) => true
  end.

(** [a || b] *)
Definition or_else (a b : option json) : option json :=
  if truthy a then a else b.

(** [v.k] for an object or an array [v] and one of the keys read by the
    code, none of which an array has. *)
Definition prop (v : json) (k : string) : option json :=
  match v with
  | JObj entries => obj_get entries k
  | _ => None
  end.

End JS.

(** ** [Array.prototype.sort] with the comparator [(a, b) => key b - key a]

    The sort is stable and orders by decreasing key; an insertion sort has
    the same result. *)

Section SortDescending.
Context {A : Type}.
Variable key : A -> Q.

(** [x] goes in front of the first element whose key is not above its
    own: elements met earlier stay ahead of later ones with an equal key. *)
Fixpoint insert_desc (x : A) (l : list A) : list A :=
  match l with
  | [] => [x]
  | y :: l' => if Qgtb (key y) (key x) then y :: insert_desc x l'
               else x :: y :: l'
  end.

Fixpoint sort_desc (l : list A) : list A :=
  match l with
  | [] => []
  | x :: l' => insert_desc x (sort_desc l')
  end.

(** The first element of [x :: l] among those of greatest key. *)
Fixpoint first_max (x : A) (l : list A) : A :=
  match l with
  | [] => x
  | y :: l' => let b := first_max y l' in
               if Qgtb (key b) (key x) then b else x
  end.

End SortDescending.

(** * Customer detector ([src/lib/customer-detector.ts]) *)

Module CustomerDetector.

Inductive PatternType : Type := PText | PRegex | PPosition | PHeader | PFooter.

Record DetectionPattern : Type := {
  ptype : PatternType;
  pattern : string;
  weight : Q;
  caseSensitive : bool
}.

Record Customer : Type := {
  id : string;
  name : string
}.

Inductive DetectionMethod : Type :=
  exact_match | fuzzy_match | pattern_match | ml_classification.

Record CustomerDetectionResult : Type := {
  customerId : option string;
  customerName : option string;
  confidence : Q;
  matchedPatterns : list string;
  detectionMethod : DetectionMethod
}.

(** The two private fields of the class, as [initialize] leaves them:
    the active customers and the map from customer id to patterns. *)
Record Detector : Type := {
  customers : list Customer;
  patterns : list (string * list DetectionPattern)
}.

(** [this.patterns.get(id) || []] *)
Fixpoint patterns_get (m : list (string * list DetectionPattern)) (k : string)
  : list DetectionPattern :=
  match m with
  | [] => []
  | (k', v) :: m' => if String.eqb k' k then v else patterns_get m' k
  end.

Definition is_text (p : DetectionPattern) : bool :=
  match ptype p with PText => true | _ => false end.
Definition is_regex (p : DetectionPattern) : bool :=
  match ptype p with PRegex => true | _ => false end.
Definition is_header_or_footer (p : DetectionPattern) : bool :=
  match ptype p with PHeader | PFooter => true | _ => false end.

(** The loop variables [matchedPatterns], [totalWeight], [matchedWeight]. *)
Record Tally : Type := {
  t_matched : list string;
  t_total : Q;
  t_weight : Q
}.

Definition tally0 : Tally := {| t_matched := []; t_total := 0; t_weight := 0 |}.

(** One turn of a weighing loop: the weight always joins the total and,
    on a hit, the matched weight. *)
Definition tally_step (hit : bool) (p : DetectionPattern) (t : Tally) : Tally :=
  if hit
  then {| t_matched := t_matched t ++ [pattern p];
          t_total := (t_total t + weight p)%Q;
          t_weight := (t_weight t + weight p)%Q |}
  else {| t_matched := t_matched t;
          t_total := (t_total t + weight p)%Q;
          t_weight := t_weight t |}.

(** [totalWeight > 0 ? matchedWeight / totalWeight : 0] *)
Definition ratio (t : Tally) : Q :=
  if Qgtb (t_total t) 0 then (t_weight t / t_total t)%Q else 0%Q.

Definition verdict (threshold : Q) (c : Customer) (conf : Q)
           (matched : list string) (m : DetectionMethod) : CustomerDetectionResult :=
  {| customerId := if Qgtb conf threshold then Some (id c) else None;
     customerName := if Qgtb conf threshold then Some (name c) else None;
     confidence := conf;
     matchedPatterns := matched;
     detectionMethod := m |}.

Section WithRegExp.

(** [RegExp_matches p i s]: [None] when [new RegExp(p, ...)] throws a
    syntax error, otherwise the successive matches of [p] in [s]
    (ignoring case when [i]); empty when there is none. *)
Variable RegExp_matches : string -> bool -> string -> option (list string).

Definition exact_hit (text : string) (p : DetectionPattern) : bool :=
  let searchText := if caseSensitive p then text else JS.toLowerCase text in
  let searchPattern :=
    if caseSensitive p then pattern p else JS.toLowerCase (pattern p) in
  JS.includes searchText searchPattern.

Definition checkExactMatch (text : string) (c : Customer)
           (ps : list DetectionPattern) : CustomerDetectionResult :=
  let t := fold_left (fun t p => tally_step (exact_hit text p) p t)
                     (filter is_text ps) tally0 in
  verdict (1 # 2) c (ratio t) (t_matched t) exact_match.

(** [matches && matches.length > 0]; a pattern that does not compile is
    caught and counts as a miss. *)
Definition regex_hit (text : string) (p : DetectionPattern) : bool :=
  match RegExp_matches (pattern p) (negb (caseSensitive p)) text with
  | Some (_ :: _) => true
  | _ => false
  end.

Definition header_footer_hit (headerLines footerLines : list string)
           (p : DetectionPattern) : bool :=
  let searchLines :=
    match ptype p with PHeader => headerLines | _ => footerLines end in
  let searchText := JS.join " " searchLines in
  let text_to_search :=
    if caseSensitive p then searchText else JS.toLowerCase searchText in
  let pattern_to_find :=
    if caseSensitive p then pattern p else JS.toLowerCase (pattern p) in
  JS.includes text_to_search pattern_to_find.

Definition checkPatternMatch (text : string) (c : Customer)
           (ps : list DetectionPattern) : CustomerDetectionResult :=
  let t1 := fold_left (fun t p => tally_step (regex_hit text p) p t)
                      (filter is_regex ps) tally0 in
  let lines := JS.lines text in
  let headerLines := JS.slice 0 (Nat.min 5 (length lines)) lines in
  let footerLines := JS.slice_last (Nat.min 5 (length lines)) lines in
  let t2 := fold_left
              (fun t p => tally_step (header_footer_hit headerLines footerLines p) p t)
              (filter is_header_or_footer ps) t1 in
  verdict (6 # 10) c (ratio t2) (t_matched t2) pattern_match.

(** The loop of [checkFuzzyMatch]: [matchedWords] and [matchedPatterns]. *)
Definition fuzzy_step (text : string) (acc : nat * list string) (word : string)
  : nat * list string :=
  if 2 <? String.length word then
    if JS.includes (JS.toLowerCase text) word
    then (S (fst acc), (snd acc ++ [word])%list)
    else acc
  else acc.

Definition checkFuzzyMatch (text : string) (c : Customer) : CustomerDetectionResult :=
  let customerName := JS.toLowerCase (name c) in
  let words := JS.split_ws customerName in
  let '(matchedWords, matched) := fold_left (fuzzy_step text) words (0, []) in
  let conf := if 0 <? length words
              then (Qnat matchedWords / Qnat (length words) * (8 # 10))%Q
              else 0%Q in
  verdict (1 # 2) c conf matched fuzzy_match.

(** The two loops of [checkFilenameMatch]: [confidence] and
    [matchedPatterns]. *)
Definition filename_word_step (fileNameLower : string)
           (acc : Q * list string) (word : string) : Q * list string :=
  if (2 <? String.length word) && JS.includes fileNameLower word
  then ((fst acc + (3 # 10))%Q, (snd acc ++ [word])%list)
  else acc.

Definition filename_pattern_step (fileNameLower : string)
           (acc : Q * list string) (p : DetectionPattern) : Q * list string :=
  if JS.includes fileNameLower (JS.toLowerCase (pattern p))
  then ((fst acc + (4 # 10))%Q, (snd acc ++ [pattern p])%list)
  else acc.

Definition checkFilenameMatch (fileName : string) (c : Customer)
           (ps : list DetectionPattern) : CustomerDetectionResult :=
  let fileNameLower := JS.toLowerCase fileName in
  let customerNameWords := JS.split_ws (JS.toLowerCase (name c)) in
  let a1 := fold_left (filename_word_step fileNameLower) customerNameWords (0%Q, []) in
  let a2 := fold_left (filename_pattern_step fileNameLower) ps a1 in
  let conf := Math_min (fst a2) (9 # 10) in
  verdict (1 # 2) c conf (snd a2) fuzzy_match.

Definition keep_positive (r : CustomerDetectionResult)
  : list CustomerDetectionResult :=
  if Qgtb (confidence r) 0 then [r] else [].

(** The heuristics run for one customer, in the order of the loop body.
    [fileName] is [None] when the argument is left out; the empty string
    is falsy as well. *)
Definition attempts (d : Detector) (text : string) (fileName : option string)
           (c : Customer) : list CustomerDetectionResult :=
  let ps := patterns_get (patterns d) (id c) in
  [ checkExactMatch text c ps; checkPatternMatch text c ps; checkFuzzyMatch text c ]
  ++ match fileName with
     | Some f => if String.eqb f "" then [] else [checkFilenameMatch f c ps]
     | None => []
     end.

(** What one customer adds to [results]: each attempt whose confidence is
    positive. *)
Definition candidates (d : Detector) (text : string) (fileName : option string)
           (c : Customer) : list CustomerDetectionResult :=
  flat_map keep_positive (attempts d text fileName c).

Definition pool (d : Detector) (text : string) (fileName : option string)
  : list CustomerDetectionResult :=
  flat_map (candidates d text fileName) (customers d).

Definition no_match : CustomerDetectionResult :=
  {| customerId := None; customerName := None; confidence := 0;
     matchedPatterns := []; detectionMethod := exact_match |}.

Definition detectCustomer (d : Detector) (text : string) (fileName : option string)
  : CustomerDetectionResult :=
  match sort_desc confidence (pool d text fileName) with
  | [] => no_match
  | best :: _ => best
  end.

End WithRegExp.

(** *** [parseIdentifierPatterns] *)

(** A pattern as the parser leaves it: each field holds whatever JSON
    value the data gave, [None] standing for [undefined]. *)
Record ParsedPattern : Type := {
  pp_type : option JS.json;
  pp_pattern : option JS.json;
  pp_weight : option JS.json;
  pp_caseSensitive : option JS.json
}.

(** One turn of the loop over an array.  A string gives a text pattern of
    weight one; an object (or an array, which has none of the keys) gives
    a pattern with defaults; [null] is an object for [typeof] and reading
    its [type] throws; numbers and booleans are skipped. *)
Definition parse_item (item : JS.json) : result (list ParsedPattern) :=
  match item with
  | JS.JStr s =>
      Ok [ {| pp_type := Some (JS.JStr "text");
              pp_pattern := Some (JS.JStr s);
              pp_weight := Some (JS.JNum 1);
              pp_caseSensitive := None |} ]
  | JS.JNull => Throw "Cannot read properties of null (reading 'type')"
  | JS.JArr _ | JS.JObj _ =>
      Ok [ {| pp_type := JS.or_else (JS.prop item "type") (Some (JS.JStr "text"));
              pp_pattern := JS.or_else (JS.prop item "pattern") (JS.prop item "value");
              pp_weight := JS.or_else (JS.prop item "weight") (Some (JS.JNum 1));
              pp_caseSensitive :=
                JS.or_else (JS.prop item "caseSensitive") (Some (JS.JBool false)) |} ]
  | JS.JBool _ | JS.JNum _ => Ok []
  end.

(** The loop over an array, [acc] being [patterns] so far.  An exception
    leaves the loop; the [catch] around it logs, and the patterns pushed
    before are returned. *)
Fixpoint parse_items (items : list JS.json) (acc : list ParsedPattern)
  : list ParsedPattern :=
  match items with
  | [] => acc
  | item :: rest =>
      match parse_item item with
      | Ok ps => parse_items rest (acc ++ ps)%list
      | Throw _ => acc
      end
  end.

(** One entry of the object format: only a string value counts. *)
Definition parse_entry (entry : string * JS.json) : list ParsedPattern :=
  match snd entry with
  | JS.JStr value =>
      [ {| pp_type := Some (JS.JStr (if JS.includes (fst entry) "regex"
                                     then "regex" else "text"));
           pp_pattern := Some (JS.JStr value);
           pp_weight := Some (JS.JNum (if JS.includes (fst entry) "name"
                                       then 2 else 1));
           pp_caseSensitive := None |} ]
  | _ => []
  end.

(** [entries] are the pairs in the order [Object.entries] gives them.
    [null] is an object for [typeof]; [Object.entries(null)] throws and
    the [catch] leaves the empty list. *)
Definition parseIdentifierPatterns (patternsData : JS.json) : list ParsedPattern :=
  match patternsData with
  | JS.JArr items => parse_items items []
  | JS.JObj entries => flat_map parse_entry entries
  | JS.JNull => []
  | _ => []
  end.

(** *** [addCustomerPattern], [learnFromCorrection] and
        [extractPotentialPatterns] *)

(** A field of an object as the database keeps it: a field that is
    undefined is not written. *)
Definition json_field (k : string) (v : option JS.json) : list (string * JS.json) :=
  match v with
  | Some j => [(k, j)]
  | None => []
  end.

(** A pattern as it is written to the JSON column. *)
Definition to_json (p : ParsedPattern) : JS.json :=
  JS.JObj (json_field "type" (pp_type p)
           ++ json_field "pattern" (pp_pattern p)
           ++ json_field "weight" (pp_weight p)
           ++ json_field "caseSensitive" (pp_caseSensitive p))%list.

(** [stored] is the [identifierPatterns] of the customer, [None] when
    [findUnique] finds no customer.  The result holds what the update
    writes to the column and what [this.patterns] holds for the customer
    afterwards; the update is taken to complete. *)
Definition addCustomerPattern (stored : option JS.json) (pattern : ParsedPattern)
  : result (JS.json * list ParsedPattern) :=
  match stored with
  | None => Throw "Customer not found"
  | Some data =>
      let currentPatterns := (parseIdentifierPatterns data ++ [pattern])%list in
      Ok (JS.JArr (map to_json currentPatterns), currentPatterns)
  end.

(** The name of a pattern type, and the object literal
    [{ type, pattern, weight }] that a pattern made by the detector is;
    [caseSensitive] is written only when it is set. *)
Definition type_name (t : PatternType) : string :=
  match t with
  | PText => "text"
  | PRegex => "regex"
  | PPosition => "position"
  | PHeader => "header"
  | PFooter => "footer"
  end.

Definition of_pattern (p : DetectionPattern) : ParsedPattern :=
  {| pp_type := Some (JS.JStr (type_name (ptype p)));
     pp_pattern := Some (JS.JStr (pattern p));
     pp_weight := Some (JS.JNum (weight p));
     pp_caseSensitive := if caseSensitive p then Some (JS.JBool true) else None |}.

(** The class [[A-Za-z\s&,.]] and the test of [/^[A-Z][A-Za-z\s&,.]+$/]. *)
Definition is_name_char (c : ascii) : bool :=
  JS.is_alpha c || JS.is_space c
  || Ascii.eqb c "&" || Ascii.eqb c "," || Ascii.eqb c ".".

Fixpoint all_name_chars (s : string) : bool :=
  match s with
  | EmptyString => true
  | String c s' => is_name_char c && all_name_chars s'
  end.

Definition looks_like_name (s : string) : bool :=
  match s with
  | String c rest =>
      JS.is_upper c && negb (String.eqb rest "") && all_name_chars rest
  | EmptyString => false
  end.

(** One turn of the loop over the header lines. *)
Definition header_candidate (line : string) : list DetectionPattern :=
  let trimmed := JS.trim line in
  if (5 <? String.length trimmed) && (String.length trimmed <? 50)
     && looks_like_name trimmed
  then [ {| ptype := PHeader; pattern := trimmed; weight := 15 # 10;
            caseSensitive := false |} ]
  else [].

Definition accountPatterns : list string :=
  [ "Account[:\s]+([A-Z0-9\-]{3,15})";
    "ID[:\s]+([A-Z0-9\-]{3,15})";
    "Reference[:\s]+([A-Z0-9\-]{3,15})" ].

(** [captures p text] lists [match[1]] for the successive matches of the
    expression [p], with flags [gi], in [text]: the account expressions
    are left to the runtime. *)
Definition extractPotentialPatterns (captures : string -> string -> list string)
           (text : string) : list DetectionPattern :=
  (flat_map header_candidate (JS.slice 0 5 (JS.lines text))
   ++ flat_map (fun p =>
                  map (fun m => {| ptype := PRegex; pattern := m; weight := 2;
                                   caseSensitive := false |})
                      (captures p text))
               accountPatterns)%list.

(** The loop of [learnFromCorrection] over the patterns to add, [stored]
    being the column of the customer; an exception of
    [addCustomerPattern] ends it. *)
Fixpoint add_patterns (stored : option JS.json) (ps : list DetectionPattern)
  : option JS.json :=
  match ps with
  | [] => stored
  | p :: rest =>
      match addCustomerPattern stored (of_pattern p) with
      | Ok (data, _) => add_patterns (Some data) rest
      | Throw _ => stored
      end
  end.

(** What the column of the customer holds after [learnFromCorrection]. *)
Definition learnFromCorrection (captures : string -> string -> list string)
           (stored : option JS.json) (documentText : string) : option JS.json :=
  add_patterns stored (JS.slice 0 3 (extractPotentialPatterns captures documentText)).

End CustomerDetector.


(** * Template engine ([TemplateEngine] in [src/lib/template-engine.ts]) *)

Module TemplateEngine.

(** An extracted value: extraction by regex, keyword, table or position
    yields a string, a calculation yields a number. *)
Inductive jsvalue : Type :=
| JString (s : string)
| JNumber (x : Q).

Inductive ExtractionType : Type :=
| et_regex | et_position | et_table | et_keyword | et_calculation
| et_unknown (tag : string).

Inductive Direction : Type := before | after | same_line.

Inductive DataType : Type :=
  dt_string | dt_number | dt_date | dt_currency | dt_percentage.

Inductive Operation : Type := op_sum | op_multiply | op_subtract | op_divide.

Record Position : Type := {
  page : option nat;
  pos_x : option nat;
  pos_y : option nat;
  pos_width : option nat;
  pos_height : option nat
}.

Record TableConfig : Type := {
  tableIndex : nat;
  columnIndex : option nat;
  rowIndex : option nat;
  headerName : option string
}.

Record KeywordConfig : Type := {
  keywords : list string;
  searchRadius : nat;
  direction : Direction
}.

Record CalculationConfig : Type := {
  operation : Operation;
  sourceFields : list string;
  formula : option string
}.

Record Validation : Type := {
  dataType : DataType;
  required : bool;
  minLength : option nat;
  maxLength : option nat;
  v_pattern : option string
}.

Record ExtractionRule : Type := {
  fieldName : string;
  extractionType : ExtractionType;
  r_pattern : option string;
  r_position : option Position;
  tableConfig : option TableConfig;
  keywordConfig : option KeywordConfig;
  calculationConfig : option CalculationConfig;
  validation : option Validation
}.

Record HardcodedMapping : Type := {
  m_fieldName : string;
  sourcePattern : string;
  targetValue : string;
  priority : Q;
  m_isActive : bool
}.

Record Template : Type := {
  t_id : string;
  t_customerId : string;
  t_name : string;
  extractionRules : list ExtractionRule;
  hardcodedMappings : list HardcodedMapping;
  t_isActive : bool
}.

Record TableData : Type := {
  rows : list (list string);
  headers : option (list string)
}.

(** The third argument of [processDocument], as the orchestrator builds it. *)
Record StructuredData : Type := {
  tables : list TableData;
  keyValuePairs : list (string * string);
  dates : list string;
  currency_numbers : list Q;
  percentage_numbers : list Q;
  general_numbers : list Q
}.

Record ProcessingResult : Type := {
  success : bool;
  extractedData : list (string * jsvalue);
  confidence : Q;
  errors : list string;
  warnings : list string
}.

(** A string that is neither missing nor empty, as [if (s)] tests it. *)
Definition truthy_string (s : option string) : option string :=
  match s with
  | Some s' => if String.eqb s' "" then None else Some s'
  | None => None
  end.

(** A number that is neither missing nor zero, as [if (n)] tests it. *)
Definition truthy_nat (n : option nat) : option nat :=
  match n with
  | Some 0 => None
  | other => other
  end.

(** *** [initialize] *)

(** The query keeps the active templates and, in each, the active mappings
    ordered by decreasing priority. *)
Definition load_template (t : Template) : Template :=
  {| t_id := t_id t;
     t_customerId := t_customerId t;
     t_name := t_name t;
     extractionRules := extractionRules t;
     hardcodedMappings := sort_desc priority (filter m_isActive (hardcodedMappings t));
     t_isActive := t_isActive t |}.

(** The field [templates] after [initialize], in insertion order. *)
Definition initialize (stored : list Template) : list Template :=
  map load_template (filter t_isActive stored).

(** *** Keyword extraction *)

Definition is_colon_or_space (c : ascii) : bool :=
  Ascii.eqb c ":" || JS.is_space c.

(** Length of the longest prefix inside the class [[:\s]]. *)
Fixpoint colon_space_run (s : string) : nat :=
  match s with
  | String c s' => if is_colon_or_space c then S (colon_space_run s') else 0
  | EmptyString => 0
  end.

Fixpoint no_line_terminator (s : string) : bool :=
  match s with
  | EmptyString => true
  | String c s' => negb (JS.is_line_terminator c) && no_line_terminator s'
  end.

(** [(.+)$] at the start of [s]: [s] is not empty and holds no line
    terminator. *)
Definition dot_plus_to_end (s : string) : bool :=
  negb (String.eqb s "") && no_line_terminator s.

(** The greedy [[:\s]*] gives characters back one at a time until the rest
    matches [(.+)$]. *)
Fixpoint give_back (k : nat) (s : string) : option string :=
  let rest := JS.substring_from k s in
  if dot_plus_to_end rest then Some rest
  else match k with
       | 0 => None
       | S k' => give_back k' s
       end.

(** [s.match(/^[:\s]*(.+)$/)]: the first group, or [None] without a match. *)
Definition match_after_colon (s : string) : option string :=
  give_back (colon_space_run s) s.

Definition same_line_value (line : string) (keywordIndex : nat) (keyword : string)
  : option string :=
  let afterKeyword :=
    JS.trim (JS.substring_from (keywordIndex + String.length keyword) line) in
  match match_after_colon afterKeyword with
  | Some g => Some (JS.trim g)
  | None => None
  end.

(** The first line that is not empty once trimmed. *)
Fixpoint first_nonempty_trimmed (ls : list string) : option string :=
  match ls with
  | [] => None
  | l :: ls' => let t := JS.trim l in
                if String.eqb t "" then first_nonempty_trimmed ls' else Some t
  end.

(** Lines [i+1 .. min(i + radius, length - 1)], in that order. *)
Definition lines_after (lines : list string) (i radius : nat) : list string :=
  JS.slice (i + 1) (Nat.min (i + radius) (length lines - 1) + 1) lines.

(** Lines [i-1] down to [max(i - radius, 0)], in that order. *)
Definition lines_before (lines : list string) (i radius : nat) : list string :=
  rev (JS.slice (i - radius) i lines).

(** The inner loop, from line [i] on: [Some r] when the loop leaves the
    function with [return r], [None] when it runs to its end. *)
Fixpoint scan_lines (lines : list string) (kc : KeywordConfig) (keyword : string)
         (i : nat) (rest : list string) : option (option string) :=
  match rest with
  | [] => None
  | line :: rest' =>
      match JS.indexOf (JS.toLowerCase line) (JS.toLowerCase keyword) with
      | None => scan_lines lines kc keyword (S i) rest'
      | Some keywordIndex =>
          match direction kc with
          | same_line => Some (same_line_value line keywordIndex keyword)
          | after =>
              match first_nonempty_trimmed (lines_after lines i (searchRadius kc)) with
              | Some l => Some (Some l)
              | None => scan_lines lines kc keyword (S i) rest'
              end
          | before =>
              match first_nonempty_trimmed (lines_before lines i (searchRadius kc)) with
              | Some l => Some (Some l)
              | None => scan_lines lines kc keyword (S i) rest'
              end
          end
      end
  end.

(** The outer loop over the keywords. *)
Fixpoint scan_keywords (lines : list string) (kc : KeywordConfig)
         (ks : list string) : option string :=
  match ks with
  | [] => None
  | keyword :: ks' =>
      match scan_lines lines kc keyword 0 lines with
      | Some r => r
      | None => scan_keywords lines kc ks'
      end
  end.

Definition extractWithKeyword (rule : ExtractionRule) (text : string) : option string :=
  match keywordConfig rule with
  | None => None
  | Some kc => scan_keywords (JS.lines text) kc (keywords kc)
  end.

(** *** Table and position extraction *)

(** [cell || null] *)
Definition cell_or_null (c : option string) : option string := truthy_string c.

Definition extractFromTable (rule : ExtractionRule) (tables : list TableData)
  : result (option string) :=
  match tableConfig rule, tables with
  | None, _ => Ok None
  | Some _, [] => Ok None
  | Some tc, _ =>
      match nth_error tables (tableIndex tc) with
      | None => Ok None
      | Some table =>
          match truthy_string (headerName tc) with
          | Some hn =>
              let headerRow :=
                match headers table with
                | Some h => Some h
                | None => nth_error (rows table) 0
                end in
              match headerRow with
              | None =>
                  Throw "Cannot read properties of undefined (reading 'findIndex')"
              | Some hr =>
                  match JS.findIndex
                          (fun header => JS.includes (JS.toLowerCase header)
                                                     (JS.toLowerCase hn)) hr with
                  | Some colIndex =>
                      match nth_error (rows table) 1 with
                      | Some row1 => Ok (cell_or_null (nth_error row1 colIndex))
                      | None => Ok None
                      end
                  | None => Ok None
                  end
              end
          | None =>
              match columnIndex tc with
              | Some ci =>
                  let targetRow := match rowIndex tc with Some r => r | None => 1 end in
                  match nth_error (rows table) targetRow with
                  | Some row => Ok (cell_or_null (nth_error row ci))
                  | None => Ok None
                  end
              | None => Ok None
              end
          end
      end
  end.

Definition extractFromPosition (rule : ExtractionRule) (text : string) : option string :=
  match r_position rule with
  | None => None
  | Some p =>
      let lines := JS.lines text in
      match truthy_nat (page p) with
      | Some _ =>
          let y := match pos_y p with Some y => y | None => 0 end in
          let startLine := y - 2 in
          let h := match truthy_nat (pos_height p) with Some h => h | None => 1 end in
          let endLine := Nat.min (length lines) (startLine + h) in
          Some (JS.trim (JS.join " " (JS.slice startLine endLine lines)))
      | None => None
      end
  end.

(** *** Hardcoded mappings, validation and the document loop *)

(** What the engine takes from the runtime.
    - [RegExp_matches p i s]: [None] when [new RegExp(p, ...)] throws a
      syntax error, otherwise the successive matches of [p] in [s]
      (ignoring case when [i]); empty when there is none.
    - [Number_toString x]: [String(x)] for a number.
    - [parseFloat s] and [Date_parse s]; [None] stands for [NaN].
    - [evaluate]: the outcome of [calculateValue] on a configuration,
      which hands its formula to [eval] and its operands to floating
      point arithmetic. *)
Record Runtime : Type := {
  RegExp_matches : string -> bool -> string -> option (list string);
  Number_toString : Q -> string;
  parseFloat : string -> option Q;
  Date_parse : string -> option Z;
  evaluate : CalculationConfig -> StructuredData -> result (option jsvalue)
}.

Section WithRuntime.

Variable rt : Runtime.

Definition String_of (v : jsvalue) : string :=
  match v with
  | JString s => s
  | JNumber x => Number_toString rt x
  end.

(** [regex.test(s)] on a fresh expression; [None] when it does not compile. *)
Definition RegExp_test (p : string) (ignoreCase : bool) (s : string) : option bool :=
  match RegExp_matches rt p ignoreCase s with
  | None => None
  | Some [] => Some false
  | Some (_ :: _) => Some true
  end.

Definition glob_to_regex (pattern : string) : string :=
  JS.replace_all_char "?" "." (JS.replace_all_char "*" ".*" pattern).

Definition matchWildcard (text pattern : string) : bool :=
  match RegExp_test ("^" ++ glob_to_regex pattern ++ "$") true text with
  | Some b => b
  | None => false
  end.

(** The test inside the loop of [applyHardcodedMappings]. *)
Definition mapping_matches (m : HardcodedMapping) (value : jsvalue) : bool :=
  let sourcePattern := JS.toLowerCase (sourcePattern m) in
  let valueStr := JS.toLowerCase (String_of value) in
  JS.includes valueStr sourcePattern
  || (JS.includes sourcePattern "*" && matchWildcard valueStr sourcePattern).

Fixpoint first_match (ms : list HardcodedMapping) (value : jsvalue) : jsvalue :=
  match ms with
  | [] => value
  | m :: ms' => if mapping_matches m value then JString (targetValue m)
                else first_match ms' value
  end.

Definition applyHardcodedMappings (mappings : list HardcodedMapping)
           (field : string) (value : jsvalue) : jsvalue :=
  first_match (filter (fun m => String.eqb (m_fieldName m) field) mappings) value.

Definition extractWithRegex (rule : ExtractionRule) (text : string)
  : result (option string) :=
  match truthy_string (r_pattern rule) with
  | None => Ok None
  | Some p =>
      match RegExp_matches rt p true text with
      | None => Throw ("Invalid regex pattern: " ++ p)
      | Some [] => Ok None
      | Some (m :: _) => Ok (Some m)
      end
  end.

Definition calculateValue (rule : ExtractionRule) (data : StructuredData)
  : result (option jsvalue) :=
  match calculationConfig rule with
  | None => Ok None
  | Some cc => evaluate rt cc data
  end.

Definition as_string (r : option string) : option jsvalue := option_map JString r.

Definition extractField (rule : ExtractionRule) (text : string) (data : StructuredData)
  : result (option jsvalue) :=
  match extractionType rule with
  | et_regex =>
      match extractWithRegex rule text with
      | Ok r => Ok (as_string r)
      | Throw e => Throw e
      end
  | et_keyword => Ok (as_string (extractWithKeyword rule text))
  | et_table =>
      match extractFromTable rule (tables data) with
      | Ok r => Ok (as_string r)
      | Throw e => Throw e
      end
  | et_position => Ok (as_string (extractFromPosition rule text))
  | et_calculation => calculateValue rule data
  | et_unknown tag => Throw ("Unknown extraction type: " ++ tag)
  end.

(** *** [validateField] *)

Record ValidationResult : Type := {
  isValid : bool;
  v_errors : list string
}.

(** [value === null || value === undefined || value === ''] *)
Definition no_value (value : option jsvalue) : bool :=
  match value with
  | None => true
  | Some (JString s) => String.eqb s ""
  | Some (JNumber _) => false
  end.

Fixpoint all_digits (s : string) : bool :=
  match s with
  | EmptyString => true
  | String c s' => JS.is_digit c && all_digits s'
  end.

Fixpoint skip_digits (s : string) : string :=
  match s with
  | String c s' => if JS.is_digit c then skip_digits s' else s
  | EmptyString => EmptyString
  end.

Definition starts_with_digit (s : string) : bool :=
  match s with
  | String c _ => JS.is_digit c
  | EmptyString => false
  end.

(** The test of [/^\$?\d+\.?\d*$/]: an optional dollar sign, one digit or
    more, an optional dot, digits up to the end. *)
Definition is_currency_amount (s : string) : bool :=
  let s1 := match s with
            | String c s' => if Ascii.eqb c "$" then s' else s
            | EmptyString => s
            end in
  starts_with_digit s1
  && match skip_digits s1 with
     | EmptyString => true
     | String c r => Ascii.eqb c "." && all_digits r
     end.

Definition type_errors (dt : DataType) (value : jsvalue) : list string :=
  match dt with
  | dt_string => []
  | dt_number =>
      match parseFloat rt (String_of value) with
      | None => ["Value must be a number"]
      | Some _ => []
      end
  | dt_date =>
      match Date_parse rt (String_of value) with
      | None => ["Value must be a valid date"]
      | Some _ => []
      end
  | dt_currency =>
      if is_currency_amount (JS.replace_all_char "," "" (String_of value)) then []
      else ["Value must be a valid currency amount"]
  | dt_percentage =>
      match parseFloat rt (JS.replace_first "%" "" (String_of value)) with
      | None => ["Value must be a valid percentage"]
      | Some numVal =>
          if Qgtb 0 numVal || Qgtb numVal 100
          then ["Value must be a valid percentage"] else []
      end
  end.

Definition min_length_errors (v : Validation) (strValue : string) : list string :=
  match truthy_nat (minLength v) with
  | Some m => if String.length strValue <? m
              then ["Value must be at least " ++ Number_toString rt (Qnat m)
                    ++ " characters long"]
              else []
  | None => []
  end.

Definition max_length_errors (v : Validation) (strValue : string) : list string :=
  match truthy_nat (maxLength v) with
  | Some m => if m <? String.length strValue
              then ["Value must not exceed " ++ Number_toString rt (Qnat m)
                    ++ " characters"]
              else []
  | None => []
  end.

Definition length_errors (v : Validation) (strValue : string) : list string :=
  (min_length_errors v strValue ++ max_length_errors v strValue)%list.

Definition pattern_errors (v : Validation) (strValue : string) : list string :=
  match truthy_string (v_pattern v) with
  | Some p =>
      match RegExp_test p false strValue with
      | None => ["Invalid validation pattern"]
      | Some false => ["Value does not match required pattern"]
      | Some true => []
      end
  | None => []
  end.

Definition is_nil {A : Type} (l : list A) : bool :=
  match l with [] => true | _ :: _ => false end.

Definition validateField (rule : ExtractionRule) (value : option jsvalue)
  : ValidationResult :=
  match validation rule with
  | None => {| isValid := true; v_errors := [] |}
  | Some v =>
      if required v && no_value value
      then {| isValid := false;
              v_errors := ["Field is required but no value was extracted"] |}
      else
        match value with
        | None => {| isValid := true; v_errors := [] |}
        | Some val =>
            if no_value value then {| isValid := true; v_errors := [] |}
            else
              let strValue := String_of val in
              let errors := (type_errors (dataType v) val
                             ++ length_errors v strValue
                             ++ pattern_errors v strValue)%list in
              {| isValid := is_nil errors; v_errors := errors |}
        end
  end.

(** *** [processDocument] *)

(** [rule.validation?.required] *)
Definition is_required (rule : ExtractionRule) : bool :=
  match validation rule with
  | Some v => required v
  | None => false
  end.

(** The variables of the loop: the result under construction and the two
    counters. *)
Record LoopState : Type := {
  res_data : list (string * jsvalue);
  res_errors : list string;
  res_warnings : list string;
  totalFields : nat;
  successfulExtractions : nat
}.

Definition loop0 : LoopState :=
  {| res_data := []; res_errors := []; res_warnings := [];
     totalFields := 0; successfulExtractions := 0 |}.

Definition push_error (st : LoopState) (msg : string) : LoopState :=
  {| res_data := res_data st;
     res_errors := (res_errors st ++ [msg])%list;
     res_warnings := res_warnings st;
     totalFields := totalFields st;
     successfulExtractions := successfulExtractions st |}.

Definition push_warning (st : LoopState) (msg : string) : LoopState :=
  {| res_data := res_data st;
     res_errors := res_errors st;
     res_warnings := (res_warnings st ++ [msg])%list;
     totalFields := totalFields st;
     successfulExtractions := successfulExtractions st |}.

Definition set_field (st : LoopState) (k : string) (v : jsvalue) : LoopState :=
  {| res_data := JS.obj_set (res_data st) k v;
     res_errors := res_errors st;
     res_warnings := res_warnings st;
     totalFields := totalFields st;
     successfulExtractions := successfulExtractions st |}.

Definition count_field (st : LoopState) : LoopState :=
  {| res_data := res_data st;
     res_errors := res_errors st;
     res_warnings := res_warnings st;
     totalFields := S (totalFields st);
     successfulExtractions := successfulExtractions st |}.

Definition count_success (st : LoopState) : LoopState :=
  {| res_data := res_data st;
     res_errors := res_errors st;
     res_warnings := res_warnings st;
     totalFields := totalFields st;
     successfulExtractions := S (successfulExtractions st) |}.

Definition validation_warning (rule : ExtractionRule) (vr : ValidationResult) : string :=
  "Validation failed for " ++ fieldName rule ++ ": " ++ JS.join ", " (v_errors vr).

Definition required_error (rule : ExtractionRule) : string :=
  "Required field '" ++ fieldName rule ++ "' could not be extracted".

Definition optional_warning (rule : ExtractionRule) : string :=
  "Optional field '" ++ fieldName rule ++ "' could not be extracted".

Definition extraction_error (rule : ExtractionRule) (message : string) : string :=
  "Error extracting field '" ++ fieldName rule ++ "': " ++ message.

(** The body of the loop over the rules. *)
Definition process_rule (template : Template) (text : string) (data : StructuredData)
           (st : LoopState) (rule : ExtractionRule) : LoopState :=
  let st := count_field st in
  match extractField rule text data with
  | Ok (Some extractedValue) =>
      let mappedValue :=
        applyHardcodedMappings (hardcodedMappings template) (fieldName rule)
                               extractedValue in
      let validationResult := validateField rule (Some mappedValue) in
      if isValid validationResult
      then count_success (set_field st (fieldName rule) mappedValue)
      else set_field (push_warning st (validation_warning rule validationResult))
                     (fieldName rule) mappedValue
  | Ok None =>
      if is_required rule then push_error st (required_error rule)
      else push_warning st (optional_warning rule)
  | Throw message => push_error st (extraction_error rule message)
  end.

Definition run_rules (template : Template) (text : string) (data : StructuredData)
  : LoopState :=
  fold_left (process_rule template text data) (extractionRules template) loop0.

Definition loop_confidence (st : LoopState) : Q :=
  if 0 <? totalFields st
  then (Qnat (successfulExtractions st) / Qnat (totalFields st))%Q
  else 0%Q.

Definition processDocument (template : Template) (text : string) (data : StructuredData)
  : ProcessingResult :=
  let st := run_rules template text data in
  let conf := loop_confidence st in
  {| success := is_nil (res_errors st) && Qgtb conf (1 # 2);
     extractedData := res_data st;
     confidence := conf;
     errors := res_errors st;
     warnings := res_warnings st |}.

(** *** [scoreTemplate] and [selectTemplate] *)

(** What one rule adds to [score]. *)
Definition rule_points (text : string) (rule : ExtractionRule) : Q :=
  match extractionType rule with
  | et_keyword =>
      match keywordConfig rule with
      | Some kc =>
          if existsb (fun k => JS.includes (JS.toLowerCase text) (JS.toLowerCase k))
                     (keywords kc)
          then 1%Q else 0%Q
      | None => 0%Q
      end
  | et_regex =>
      match truthy_string (r_pattern rule) with
      | Some p =>
          match RegExp_test p true text with
          | Some true => 1%Q
          | _ => 0%Q
          end
      | None => 0%Q
      end
  | et_position => (1 # 2)%Q
  | _ => 0%Q
  end.

Definition name_points (templateName text word : string) : Q :=
  if JS.includes templateName word && JS.includes (JS.toLowerCase text) word
  then 2%Q else 0%Q.

(** The loop over the rules: [score] and [totalChecks]. *)
Definition score_step (text : string) (acc : Q * nat) (rule : ExtractionRule) : Q * nat :=
  ((fst acc + rule_points text rule)%Q, S (snd acc)).

Definition scoreTemplate (template : Template) (text : string) : Q :=
  let '(score, totalChecks) :=
    fold_left (score_step text) (extractionRules template) (0%Q, 0) in
  let templateName := JS.toLowerCase (t_name template) in
  let score := (score + name_points templateName text "invoice")%Q in
  let score := (score + name_points templateName text "receipt")%Q in
  let score := (score + name_points templateName text "statement")%Q in
  let totalChecks := totalChecks + 3 in
  if 0 <? totalChecks then (score / Qnat totalChecks)%Q else 0%Q.

Definition selectTemplate (templates : list Template) (customerId text : string)
  : option Template :=
  let customerTemplates :=
    filter (fun t => String.eqb (t_customerId t) customerId) templates in
  match customerTemplates with
  | [] => None
  | [only] => Some only
  | first :: _ =>
      let templateScores :=
        map (fun t => (t, scoreTemplate t text)) customerTemplates in
      match sort_desc snd templateScores with
      | (best, score) :: _ => if Qgtb score (3 # 10) then Some best else Some first
      | [] => Some first
      end
  end.

End WithRuntime.

(** *** [getTemplateStats] *)

Record TemplateStats : Type := {
  totalTemplates : nat;
  customerTemplates : list (string * nat)
}.

(** One turn of the loop over the loaded templates:
    [customerTemplates[id] = (customerTemplates[id] || 0) + 1]. *)
Definition count_template (acc : list (string * nat)) (t : Template)
  : list (string * nat) :=
  let before := match truthy_nat (JS.obj_get acc (t_customerId t)) with
                | Some n => n
                | None => 0
                end in
  JS.obj_set acc (t_customerId t) (before + 1).

Definition getTemplateStats (templates : list Template) : TemplateStats :=
  {| totalTemplates := length templates;
     customerTemplates := fold_left count_template templates [] |}.

End TemplateEngine.

(** * Text extractor ([PDFProcessor] in [src/lib/template-engine.ts]) *)

Module PDFProcessor.

Record PageData : Type := {
  pageNumber : nat;
  page_text : string;
  page_confidence : Q
}.

Record Metadata : Type := {
  totalPages : nat;
  author : option string;
  creator : option string;
  creationDate : option string;
  modificationDate : option string
}.

Record ExtractedData : Type := {
  text : string;
  pages : list PageData;
  metadata : Metadata;
  confidence : Q
}.

(** What [pdf-parse] returns. *)
Record ParsedPdf : Type := {
  pdf_text : string;
  numpages : nat;
  info_Author : option string;
  info_Creator : option string;
  info_CreationDate : option string;
  info_ModDate : option string
}.

(** What the recognition engine returns: the text and a confidence on
    the scale 0 to 100. *)
Record Recognition : Type := {
  ocr_text : string;
  ocr_confidence : Q
}.

Definition form_feed : ascii := ascii_of_nat 12.

(** [words.filter(word => word.length > 2)] *)
Definition long_words (text : string) : list string :=
  filter (fun word => 2 <? String.length word) (JS.split_ws text).

(** The test of [/^[a-zA-Z]+$/] *)
Fixpoint all_alpha (s : string) : bool :=
  match s with
  | EmptyString => true
  | String c s' => JS.is_alpha c && all_alpha s'
  end.

Definition is_alphabetic (word : string) : bool :=
  negb (String.eqb word "") && all_alpha word.

(** [meaningfulWords.length / words.length > 0.5].  Without any word the
    quotient is [0 / 0], that is [NaN], and the comparison is false. *)
Definition isTextMeaningful (text : string) : bool :=
  let words := long_words text in
  let meaningfulWords := filter is_alphabetic words in
  match length words with
  | 0 => false
  | S _ => Qgtb (Qnat (length meaningfulWords) / Qnat (length words))%Q (1 # 2)
  end.

(** The pages of the direct extraction: the pieces between form feeds
    that are not blank, numbered by their place among all pieces. *)
Fixpoint pages_from (index : nat) (textPerPage : list string) : list PageData :=
  match textPerPage with
  | [] => []
  | pageText :: rest =>
      if String.eqb (JS.trim pageText) "" then pages_from (S index) rest
      else {| pageNumber := index + 1;
              page_text := JS.trim pageText;
              page_confidence := 95 # 100 |} :: pages_from (S index) rest
  end.

Definition with_confidence (d : ExtractedData) (c : Q) : ExtractedData :=
  {| text := text d; pages := pages d; metadata := metadata d; confidence := c |}.

Section WithLibraries.

(** The document bytes. *)
Variable Buffer : Type.

(** [pdf-parse], the creation of the recognition worker and its
    [recognize] method; each may throw. *)
Variable pdfParse : Buffer -> result ParsedPdf.
Variable createWorker : result unit.
Variable recognize : Buffer -> result Recognition.

(** [initialize]: any failure is rethrown under one message. *)
Definition initialize : result unit :=
  match createWorker with
  | Ok _ => Ok tt
  | Throw _ => Throw "OCR initialization failed"
  end.

Definition extractTextDirectly (buffer : Buffer) : result ExtractedData :=
  match pdfParse buffer with
  | Throw e => Throw ("Direct text extraction failed: " ++ e)
  | Ok data =>
      Ok {| text := pdf_text data;
            pages := pages_from 0 (JS.split_char form_feed (pdf_text data));
            metadata := {| totalPages := numpages data;
                           author := info_Author data;
                           creator := info_Creator data;
                           creationDate := info_CreationDate data;
                           modificationDate := info_ModDate data |};
            confidence := 95 # 100 |}
  end.

Definition ocr_result (data : Recognition) : ExtractedData :=
  {| text := ocr_text data;
     pages := [ {| pageNumber := 1;
                   page_text := ocr_text data;
                   page_confidence := (ocr_confidence data / 100)%Q |} ];
     metadata := {| totalPages := 1; author := None; creator := None;
                    creationDate := None; modificationDate := None |};
     confidence := (ocr_confidence data / 100)%Q |}.

(** [worker] tells whether [tesseractWorker] is set; when it is not, the
    method first runs [initialize], outside its own [try]. *)
Definition extractTextWithOCR (worker : bool) (buffer : Buffer) : result ExtractedData :=
  match (if worker then Ok tt else initialize) with
  | Throw e => Throw e
  | Ok _ =>
      match recognize buffer with
      | Throw e => Throw ("OCR extraction failed: " ++ e)
      | Ok data => Ok (ocr_result data)
      end
  end.

(** The [catch] of [processPDF] *)
Definition rethrow_processing {A : Type} (r : result A) : result A :=
  match r with
  | Ok a => Ok a
  | Throw e => Throw ("PDF processing failed: " ++ e)
  end.

Definition processPDF (worker : bool) (buffer : Buffer) : result ExtractedData :=
  rethrow_processing
    match extractTextDirectly buffer with
    | Throw e => Throw e
    | Ok directExtraction =>
        if (100 <? String.length (text directExtraction))
           && isTextMeaningful (text directExtraction)
        then Ok (with_confidence directExtraction (95 # 100))
        else extractTextWithOCR worker buffer
    end.

End WithLibraries.

(** *** [extractTables] *)

Definition is_tab (c : ascii) : bool := nat_of_ascii c =? 9.

Definition starts_with_space (s : string) : bool :=
  match s with
  | String c _ => JS.is_space c
  | EmptyString => false
  end.

(** A character added to the piece under construction. *)
Definition push_char (c : ascii) (pieces : list string) : list string :=
  match pieces with
  | w :: ws => String c w :: ws
  | [] => [String c EmptyString]
  end.

(** [line.split(/\s{2,}|\t+/)].  The expression is tried at each place
    from left to right, its first alternative first and greedily: a run of
    two white-space characters or more is one separator, whatever it
    holds; a white-space character that stands alone is a separator when
    it is a tab, and part of a piece otherwise.  [in_separator] tells that
    the character before belongs to a separator. *)
Fixpoint split_columns_from (in_separator : bool) (s : string) : list string :=
  match s with
  | EmptyString => [EmptyString]
  | String c s' =>
      if JS.is_space c then
        if in_separator then split_columns_from true s'
        else if starts_with_space s' || is_tab c
             then EmptyString :: split_columns_from true s'
             else push_char c (split_columns_from false s')
      else push_char c (split_columns_from false s')
  end.

Definition split_columns (line : string) : list string :=
  split_columns_from false line.

Definition looksLikeTableRow (line : string) : bool :=
  let potentialColumns :=
    filter (fun col => 0 <? String.length (JS.trim col)) (split_columns line) in
  2 <=? length potentialColumns.

Definition parseTableRow (line : string) : list string :=
  filter (fun col => 0 <? String.length col) (map JS.trim (split_columns line)).

(** [y] is a difference of two numbers. *)
Record TablePosition : Type := {
  tp_x : nat;
  tp_y : Z;
  tp_width : nat;
  tp_height : nat
}.

(** [TableData]: [rows], [headers] and [position]. *)
Record TableData : Type := {
  td_rows : list (list string);
  td_headers : option (list string);
  td_position : TablePosition
}.

(** The table pushed for [currentTable], [top] being the line count
    from which the number of rows is subtracted. *)
Definition make_table (currentTable : list (list string)) (top : nat) : TableData :=
  {| td_rows := currentTable;
     td_headers := nth_error currentTable 0;
     td_position :=
       {| tp_x := 0;
          tp_y := (Z.of_nat top - Z.of_nat (length currentTable))%Z;
          tp_width := 100;
          tp_height := length currentTable |} |}.

(** The variables of the loop over the lines. *)
Record TableScan : Type := {
  sc_tables : list TableData;
  currentTable : list (list string);
  isInTable : bool
}.

Definition scan0 : TableScan :=
  {| sc_tables := []; currentTable := []; isInTable := false |}.

(** The body of the loop, for line [i]. *)
Definition table_step (st : TableScan) (i : nat) (rawLine : string) : TableScan :=
  let line := JS.trim rawLine in
  if looksLikeTableRow line then
    {| sc_tables := sc_tables st;
       currentTable := (currentTable st ++ [parseTableRow line])%list;
       isInTable := true |}
  else if isInTable st && (0 <? length (currentTable st)) then
    {| sc_tables := if 2 <=? length (currentTable st)
                    then (sc_tables st ++ [make_table (currentTable st) i])%list
                    else sc_tables st;
       currentTable := [];
       isInTable := false |}
  else st.

Fixpoint scan_tables (i : nat) (ls : list string) (st : TableScan) : TableScan :=
  match ls with
  | [] => st
  | rawLine :: rest => scan_tables (S i) rest (table_step st i rawLine)
  end.

Definition extractTables (text : string) : list TableData :=
  let lines := JS.lines text in
  let st := scan_tables 0 lines scan0 in
  if 2 <=? length (currentTable st)
  then (sc_tables st ++ [make_table (currentTable st) (length lines)])%list
  else sc_tables st.

End PDFProcessor.

(** * Processing orchestrator ([ProcessingOrchestrator] in
      [src/lib/template-engine.ts]) *)

Module DocumentStatus.
(** Modelled from the spec: the enumeration [DocumentStatus] of the Prisma
    schema, which is not under [src/]; the design of the orchestrator
    names the states UPLOADED, PROCESSING, COMPLETED and FAILED. *)
Inductive t : Type := UPLOADED | PROCESSING | COMPLETED | FAILED.
End DocumentStatus.

Module JobStatus.
(** Modelled from the spec: the enumeration [JobStatus] of the Prisma
    schema, which is not under [src/]; the data model names the states
    PENDING, RUNNING, COMPLETED and FAILED. *)
Inductive t : Type := PENDING | RUNNING | COMPLETED | FAILED.
End JobStatus.

Module ProcessingOrchestrator.

Definition Buffer : Type := string.

Record ProcessingRequest : Type := {
  req_documentId : string;
  filePath : string;
  fileName : string;
  buffer : Buffer;
  userId : string
}.

Record ProcessingResponse : Type := {
  success : bool;
  documentId : string;
  processingJobId : string;
  customerId : option string;
  templateId : option string;
  csvFilePath : option string;
  extractedData : option (list (string * TemplateEngine.jsvalue));
  confidence : Q;
  errors : list string;
  warnings : list string
}.

Record CsvRecord : Type := {
  field_name : string;
  field_value : string;
  data_type : string
}.

(** The rows and files that a run reads or writes: the document of the
    request, the job of the run, the CSV files and the CSV output rows. *)
Record World : Type := {
  document_status : DocumentStatus.t;
  document_confidenceScore : option Q;
  document_customerId : option string;
  document_templateId : option string;
  job_status : option JobStatus.t;
  job_errorMessage : option string;
  csv_files : list (string * list CsvRecord);
  csv_outputs : list string
}.

(** The calls into the storage layer; each may throw. *)
Inductive IoCall : Type :=
| io_job_create | io_job_update | io_document_update | io_csv_output_create
| io_load_customers | io_load_templates
| io_mkdir | io_write_records | io_stat.

(** The state a run threads: the world and the [response] object, which
    the method mutates step by step and returns in every case. *)
Record St : Type := {
  world : World;
  response : ProcessingResponse
}.

(** A computation that reads and writes the state and may throw; what was
    written before a throw stays written. *)
Definition M (A : Type) : Type := St -> result A * St.

Definition ret {A : Type} (a : A) : M A := fun s => (Ok a, s).

Definition bind {A B : Type} (m : M A) (k : A -> M B) : M B :=
  fun s => match m s with
           | (Ok a, s') => k a s'
           | (Throw e, s') => (Throw e, s')
           end.

Definition throw {A : Type} (message : string) : M A := fun s => (Throw message, s).

(** [try { body } catch (error) { handler(error.message) }] *)
Definition try_catch {A : Type} (body : M A) (handler : string -> M A) : M A :=
  fun s => match body s with
           | (Ok a, s') => (Ok a, s')
           | (Throw e, s') => handler e s'
           end.

Definition lift {A : Type} (r : result A) : M A := fun s => (r, s).

Definition get_response : M ProcessingResponse := fun s => (Ok (response s), s).

Definition modify_response (f : ProcessingResponse -> ProcessingResponse) : M unit :=
  fun s => (Ok tt, {| world := world s; response := f (response s) |}).

Definition modify_world (f : World -> World) : M unit :=
  fun s => (Ok tt, {| world := f (world s); response := response s |}).

Notation "x <- m ;; k" := (bind m (fun x => k))
  (at level 61, m at next level, right associativity).
Notation "m ;;; k" := (bind m (fun _ => k))
  (at level 61, right associativity).

(** *** Updates of the response *)

Definition response0 (request : ProcessingRequest) : ProcessingResponse :=
  {| success := false; documentId := req_documentId request;
     processingJobId := ""; customerId := None; templateId := None;
     csvFilePath := None; extractedData := None; confidence := 0;
     errors := []; warnings := [] |}.

Definition with_job (jobId : string) (r : ProcessingResponse) : ProcessingResponse :=
  {| success := success r; documentId := documentId r;
     processingJobId := jobId; customerId := customerId r;
     templateId := templateId r; csvFilePath := csvFilePath r;
     extractedData := extractedData r; confidence := confidence r;
     errors := errors r; warnings := warnings r |}.

Definition add_warning (w : string) (r : ProcessingResponse) : ProcessingResponse :=
  {| success := success r; documentId := documentId r;
     processingJobId := processingJobId r; customerId := customerId r;
     templateId := templateId r; csvFilePath := csvFilePath r;
     extractedData := extractedData r; confidence := confidence r;
     errors := errors r; warnings := (warnings r ++ [w])%list |}.

Definition add_error (e : string) (r : ProcessingResponse) : ProcessingResponse :=
  {| success := success r; documentId := documentId r;
     processingJobId := processingJobId r; customerId := customerId r;
     templateId := templateId r; csvFilePath := csvFilePath r;
     extractedData := extractedData r; confidence := confidence r;
     errors := (errors r ++ [e])%list; warnings := warnings r |}.

(** The four assignments that end a basic-CSV branch. *)
Definition with_basic_csv (path : string) (data : list (string * TemplateEngine.jsvalue))
           (conf : Q) (r : ProcessingResponse) : ProcessingResponse :=
  {| success := true; documentId := documentId r;
     processingJobId := processingJobId r; customerId := customerId r;
     templateId := templateId r; csvFilePath := Some path;
     extractedData := Some data; confidence := conf;
     errors := errors r; warnings := warnings r |}.

(** The assignments under "Update response" of the template branch. *)
Definition with_template_outcome (cid tid path : string) (custConf : Q)
           (pr : TemplateEngine.ProcessingResult) (r : ProcessingResponse)
  : ProcessingResponse :=
  {| success := TemplateEngine.success pr; documentId := documentId r;
     processingJobId := processingJobId r; customerId := Some cid;
     templateId := Some tid; csvFilePath := Some path;
     extractedData := Some (TemplateEngine.extractedData pr);
     confidence := ((custConf + TemplateEngine.confidence pr) / 2)%Q;
     errors := TemplateEngine.errors pr;
     warnings := (warnings r ++ TemplateEngine.warnings pr)%list |}.

(** *** Updates of the world *)

Definition set_job (st : JobStatus.t) (msg : option string) (w : World) : World :=
  {| document_status := document_status w;
     document_confidenceScore := document_confidenceScore w;
     document_customerId := document_customerId w;
     document_templateId := document_templateId w;
     job_status := Some st;
     job_errorMessage := match msg with Some m => Some m | None => job_errorMessage w end;
     csv_files := csv_files w; csv_outputs := csv_outputs w |}.

Definition set_document_status (st : DocumentStatus.t) (w : World) : World :=
  {| document_status := st;
     document_confidenceScore := document_confidenceScore w;
     document_customerId := document_customerId w;
     document_templateId := document_templateId w;
     job_status := job_status w; job_errorMessage := job_errorMessage w;
     csv_files := csv_files w; csv_outputs := csv_outputs w |}.

Definition set_document_score (st : DocumentStatus.t) (score : Q) (w : World) : World :=
  {| document_status := st;
     document_confidenceScore := Some score;
     document_customerId := document_customerId w;
     document_templateId := document_templateId w;
     job_status := job_status w; job_errorMessage := job_errorMessage w;
     csv_files := csv_files w; csv_outputs := csv_outputs w |}.

Definition set_document_outcome (cid tid : string) (st : DocumentStatus.t) (score : Q)
           (w : World) : World :=
  {| document_status := st;
     document_confidenceScore := Some score;
     document_customerId := Some cid;
     document_templateId := Some tid;
     job_status := job_status w; job_errorMessage := job_errorMessage w;
     csv_files := csv_files w; csv_outputs := csv_outputs w |}.

Definition add_csv_file (path : string) (records : list CsvRecord) (w : World) : World :=
  {| document_status := document_status w;
     document_confidenceScore := document_confidenceScore w;
     document_customerId := document_customerId w;
     document_templateId := document_templateId w;
     job_status := job_status w; job_errorMessage := job_errorMessage w;
     csv_files := (csv_files w ++ [(path, records)])%list;
     csv_outputs := csv_outputs w |}.

Definition add_csv_output (path : string) (w : World) : World :=
  {| document_status := document_status w;
     document_confidenceScore := document_confidenceScore w;
     document_customerId := document_customerId w;
     document_templateId := document_templateId w;
     job_status := job_status w; job_errorMessage := job_errorMessage w;
     csv_files := csv_files w;
     csv_outputs := (csv_outputs w ++ [path])%list |}.

(** The test of [/^\d+\.?\d*%$/] *)
Definition is_percentage_literal (s : string) : bool :=
  TemplateEngine.starts_with_digit s
  && match TemplateEngine.skip_digits s with
     | String c r =>
         if Ascii.eqb c "." then String.eqb (TemplateEngine.skip_digits r) "%"
         else Ascii.eqb c "%" && String.eqb r ""
     | EmptyString => false
     end.

(** What the orchestrator is given.
    - [runtime]: the runtime of the template engine and of the detector;
    - [pdfParse], [createWorker], [recognize]: the libraries of the text
      extractor;
    - [extractTables], [detectKeyValuePairs], [extractDates] (as ISO
      strings), [extractNumbers]: the side functions of the text
      extractor, which only supply content for the rows of the CSV and
      for the table rules;
    - [fault c]: the message of the exception that storage call [c]
      throws, [None] when it completes;
    - [now_iso] ([new Date().toISOString()]), [uploadsDir], [path_join]
      and [new_job_id], the identifier the database gives the new job;
    - [detector] and [stored_templates]: what the database holds for the
      detector and for the engine. *)
Record Collaborators : Type := {
  runtime : TemplateEngine.Runtime;
  pdfParse : Buffer -> result PDFProcessor.ParsedPdf;
  createWorker : result unit;
  recognize : Buffer -> result PDFProcessor.Recognition;
  extractTables : string -> list TemplateEngine.TableData;
  detectKeyValuePairs : string -> list (string * string);
  extractDates : string -> list string;
  extractNumbers : string -> list Q * list Q * list Q;
  fault : IoCall -> option string;
  now_iso : string;
  uploadsDir : string;
  path_join : string -> string -> string;
  new_job_id : string;
  detector : CustomerDetector.Detector;
  stored_templates : list TemplateEngine.Template
}.

Section WithCollaborators.

Variable env : Collaborators.

(** A call into the storage layer that changes the world when it
    completes. *)
Definition io (c : IoCall) (f : World -> World) : M unit :=
  match fault env c with
  | Some message => throw message
  | None => modify_world f
  end.

Definition formatValue (value : TemplateEngine.jsvalue) : string :=
  TemplateEngine.String_of (runtime env) value.

Definition determineDataType (value : TemplateEngine.jsvalue) : string :=
  match value with
  | TemplateEngine.JNumber _ => "number"
  | TemplateEngine.JString strValue =>
      match TemplateEngine.Date_parse (runtime env) strValue with
      | Some _ => "date"
      | None =>
          if TemplateEngine.is_currency_amount (JS.replace_all_char "," "" strValue)
          then "currency"
          else if is_percentage_literal strValue then "percentage"
          else match TemplateEngine.parseFloat (runtime env) strValue with
               | Some _ => "number"
               | None => "string"
               end
      end
  end.

Definition csv_record (entry : string * TemplateEngine.jsvalue) : CsvRecord :=
  {| field_name := fst entry;
     field_value := formatValue (snd entry);
     data_type := determineDataType (snd entry) |}.

(** [new Date().toISOString().replace(/[:.]/g, '-')] *)
Definition timestamp : string :=
  JS.replace_all_char "." "-" (JS.replace_all_char ":" "-" (now_iso env)).

Definition csv_path (request : ProcessingRequest) : string :=
  path_join env (path_join env (uploadsDir env) "csv")
            (JS.replace_first ".pdf" "" (fileName request) ++ "_" ++ timestamp ++ ".csv").

(** The [catch] of [generateCSV] *)
Definition rethrow_csv {A : Type} (m : M A) : M A :=
  try_catch m (fun e => throw ("CSV generation failed: " ++ e)).

Definition generateCSV (data : list (string * TemplateEngine.jsvalue))
           (request : ProcessingRequest) : M string :=
  rethrow_csv
    (io io_mkdir (fun w => w) ;;;
     io io_write_records (add_csv_file (csv_path request) (map csv_record data)) ;;;
     ret (csv_path request)).

Fixpoint set_all (o : list (string * TemplateEngine.jsvalue))
         (kvs : list (string * string)) : list (string * TemplateEngine.jsvalue) :=
  match kvs with
  | [] => o
  | (k, v) :: kvs' => set_all (JS.obj_set o k (TemplateEngine.JString v)) kvs'
  end.

(** [customerId || 'unknown'] *)
Definition customer_or_unknown (cid : option string) : string :=
  match TemplateEngine.truthy_string cid with
  | Some c => c
  | None => "unknown"
  end.

Definition basicData (ed : PDFProcessor.ExtractedData) (request : ProcessingRequest)
           (cid : option string) : list (string * TemplateEngine.jsvalue) :=
  let text := PDFProcessor.text ed in
  let dates := extractDates env text in
  let currency := fst (fst (extractNumbers env text)) in
  let o0 :=
    [ ("document_name", TemplateEngine.JString (fileName request));
      ("extraction_date", TemplateEngine.JString (now_iso env));
      ("total_pages",
       TemplateEngine.JNumber (Qnat (PDFProcessor.totalPages (PDFProcessor.metadata ed))));
      ("customer_id", TemplateEngine.JString (customer_or_unknown cid)) ] in
  let o1 := set_all o0 (detectKeyValuePairs env text) in
  let o2 := match dates with
            | [] => o1
            | _ :: _ => JS.obj_set o1 "detected_dates"
                                   (TemplateEngine.JString (JS.join "; " dates))
            end in
  match currency with
  | [] => o2
  | _ :: _ => JS.obj_set o2 "currency_amounts"
                (TemplateEngine.JString
                   (JS.join "; " (map (TemplateEngine.Number_toString (runtime env))
                                      currency)))
  end.

Definition createBasicCSV (ed : PDFProcessor.ExtractedData) (request : ProcessingRequest)
           (cid : option string)
  : M (string * list (string * TemplateEngine.jsvalue)) :=
  csvFilePath <- generateCSV (basicData ed request cid) request ;;
  ret (csvFilePath, basicData ed request cid).

(** [initialize] of the orchestrator: the recognition worker, then the two
    loads; afterwards the worker is set. *)
Definition initialize : M unit :=
  lift (PDFProcessor.initialize (createWorker env)) ;;;
  match fault env io_load_customers with
  | Some _ => throw "Customer detector initialization failed"
  | None =>
      match fault env io_load_templates with
      | Some _ => throw "Template engine initialization failed"
      | None => ret tt
      end
  end.

Definition structured (text : string) : TemplateEngine.StructuredData :=
  let numbers := extractNumbers env text in
  {| TemplateEngine.tables := extractTables env text;
     TemplateEngine.keyValuePairs := detectKeyValuePairs env text;
     TemplateEngine.dates := extractDates env text;
     TemplateEngine.currency_numbers := fst (fst numbers);
     TemplateEngine.percentage_numbers := snd (fst numbers);
     TemplateEngine.general_numbers := snd numbers |}.

Definition status_of_success (b : bool) : DocumentStatus.t :=
  if b then DocumentStatus.COMPLETED else DocumentStatus.FAILED.

Definition job_status_of_success (b : bool) : JobStatus.t :=
  if b then JobStatus.COMPLETED else JobStatus.FAILED.

(** The branch taken once a customer is detected. *)
Definition process_for_customer (request : ProcessingRequest)
           (ed : PDFProcessor.ExtractedData)
           (detection : CustomerDetector.CustomerDetectionResult) (cid : string)
  : M unit :=
  let text := PDFProcessor.text ed in
  match TemplateEngine.selectTemplate (runtime env)
          (TemplateEngine.initialize (stored_templates env)) cid text with
  | None =>
      modify_response (add_warning "No template found for detected customer") ;;;
      csvData <- createBasicCSV ed request (Some cid) ;;
      modify_response
        (with_basic_csv (fst csvData) (snd csvData)
           (CustomerDetector.confidence detection * (5 # 10))%Q)
  | Some template =>
      let processingResult :=
        TemplateEngine.processDocument (runtime env) template text (structured text) in
      csvFilePath <- generateCSV (TemplateEngine.extractedData processingResult) request ;;
      modify_response
        (with_template_outcome cid (TemplateEngine.t_id template) csvFilePath
           (CustomerDetector.confidence detection) processingResult) ;;;
      r <- get_response ;;
      io io_document_update
         (set_document_outcome cid (TemplateEngine.t_id template)
            (status_of_success (success r)) (confidence r)) ;;;
      match TemplateEngine.truthy_string (Some csvFilePath) with
      | Some p =>
          io io_stat (fun w => w) ;;;
          io io_csv_output_create (add_csv_output p)
      | None => ret tt
      end
  end.

(** The body of the [try] of [processDocument]. *)
Definition pipeline (request : ProcessingRequest) : M unit :=
  initialize ;;;
  ed <- lift (PDFProcessor.processPDF Buffer (pdfParse env) (createWorker env) (recognize env)
                true (buffer request)) ;;
  let text := PDFProcessor.text ed in
  if String.length text <? 10 then throw "Insufficient text extracted from PDF"
  else
    let customerDetection :=
      CustomerDetector.detectCustomer (TemplateEngine.RegExp_matches (runtime env))
                                      (detector env) text
                                      (Some (fileName request)) in
    match TemplateEngine.truthy_string (CustomerDetector.customerId customerDetection) with
    | None =>
        modify_response (add_warning "Could not automatically detect customer") ;;;
        io io_document_update (set_document_score DocumentStatus.COMPLETED 0) ;;;
        csvData <- createBasicCSV ed request None ;;
        modify_response (with_basic_csv (fst csvData) (snd csvData) (3 # 10))
    | Some cid => process_for_customer request ed customerDetection cid
    end ;;;
    r <- get_response ;;
    io io_job_update (set_job (job_status_of_success (success r)) None).

(** The [catch] of [processDocument]. *)
Definition on_failure (message : string) : M unit :=
  modify_response (add_error message) ;;;
  io io_job_update (set_job JobStatus.FAILED (Some message)) ;;;
  io io_document_update (set_document_status DocumentStatus.FAILED).

Definition processDocument (request : ProcessingRequest) : M ProcessingResponse :=
  io io_job_create (set_job JobStatus.RUNNING None) ;;;
  modify_response (with_job (new_job_id env)) ;;;
  try_catch (pipeline request) on_failure ;;;
  get_response.

(** A run starts from the response as the method first builds it. *)
Definition run (request : ProcessingRequest) (w : World)
  : result ProcessingResponse * St :=
  processDocument request {| world := w; response := response0 request |}.

End WithCollaborators.

End ProcessingOrchestrator.


(** * The upload route ([POST] and [processDocumentAsync] in
      [src/app/api/upload/route.ts]) *)

Module UploadRoute.

(** What [/[^a-zA-Z0-9.-]/] does not match. *)
Definition is_safe_char (c : ascii) : bool :=
  JS.is_alpha c || JS.is_digit c || Ascii.eqb c "." || Ascii.eqb c "-".

(** [file.name.replace(/[^a-zA-Z0-9.-]/g, '_')] *)
Fixpoint sanitize (name : string) : string :=
  match name with
  | EmptyString => EmptyString
  | String c rest =>
      String (if is_safe_char c then c else "_"%char) (sanitize rest)
  end.

Section WithCollaborators.

Variable env : ProcessingOrchestrator.Collaborators.

(** The [try] of [processDocumentAsync]: the document is marked
    PROCESSING, then the orchestrator runs; the response is only logged. *)
Definition attempt (request : ProcessingOrchestrator.ProcessingRequest)
           (w : ProcessingOrchestrator.World)
  : result unit * ProcessingOrchestrator.World :=
  match ProcessingOrchestrator.fault env ProcessingOrchestrator.io_document_update with
  | Some message => (Throw message, w)
  | None =>
      match ProcessingOrchestrator.run
              env request
              (ProcessingOrchestrator.set_document_status DocumentStatus.PROCESSING w)
      with
      | (Ok _, s) => (Ok tt, ProcessingOrchestrator.world s)
      | (Throw message, s) => (Throw message, ProcessingOrchestrator.world s)
      end
  end.

(** [processDocumentAsync]: the [catch] marks the document FAILED, and
    swallows a failure of that update. *)
Definition processDocumentAsync (documentId filePath fileName : string)
           (buffer : ProcessingOrchestrator.Buffer) (userId : string)
           (w : ProcessingOrchestrator.World) : ProcessingOrchestrator.World :=
  let request :=
    {| ProcessingOrchestrator.req_documentId := documentId;
       ProcessingOrchestrator.filePath := filePath;
       ProcessingOrchestrator.fileName := fileName;
       ProcessingOrchestrator.buffer := buffer;
       ProcessingOrchestrator.userId := userId |} in
  match attempt request w with
  | (Ok _, w') => w'
  | (Throw _, w') =>
      match ProcessingOrchestrator.fault env ProcessingOrchestrator.io_document_update with
      | Some _ => w'
      | None => ProcessingOrchestrator.set_document_status DocumentStatus.FAILED w'
      end
  end.

End WithCollaborators.

End UploadRoute.

(** * Vocabulary of the statements *)

(** A word of the customer name counts for the fuzzy match when it is
    longer than two characters and occurs in the lower-cased text. *)
Definition fuzzy_hit (text : string) (word : string) : bool :=
  (2 <? String.length word) && JS.includes (JS.toLowerCase text) word.

(** A confidence, a score or a ratio inside the closed unit interval. *)
Definition in_unit_interval (q : Q) : Prop := (0 <= q)%Q /\ (q <= 1)%Q.

(** Every configured pattern weight of the detector is non-negative. *)
Definition weights_nonneg (d : CustomerDetector.Detector) : Prop :=
  forall k ps p, In (k, ps) (CustomerDetector.patterns d) -> In p ps ->
                 (0 <= CustomerDetector.weight p)%Q.

(** The matched weight of a tally is between zero and the total weight. *)
Definition tally_ok (t : CustomerDetector.Tally) : Prop :=
  (0 <= CustomerDetector.t_weight t)%Q
  /\ (CustomerDetector.t_weight t <= CustomerDetector.t_total t)%Q.

(** A list of mappings in the order of decreasing priority. *)
Definition by_priority_desc (ms : list TemplateEngine.HardcodedMapping) : Prop :=
  StronglySorted
    (fun a b => (TemplateEngine.priority b <= TemplateEngine.priority a)%Q) ms.







Definition LF : string := String JS.newline EmptyString.

(** The text of the invoice scenario. *)
Definition invoice_text : string :=
  "Invoice #INV-1001" ++ LF ++ "Date: 2024-01-05" ++ LF ++ "Total: $250.00".



(** The templates of a customer, in the order the engine holds them. *)
Definition templates_of (templates : list TemplateEngine.Template) (customerId : string)
  : list TemplateEngine.Template :=
  filter (fun t => String.eqb (TemplateEngine.t_customerId t) customerId) templates.

(** The direct text is kept when it is longer than 100 characters and more
    than half of its words of more than two characters are purely
    alphabetic. *)
Definition direct_text_accepted (text : string) : Prop :=
  100 < String.length text
  /\ (1 # 2 < Qnat (length (filter PDFProcessor.is_alphabetic
                                   (PDFProcessor.long_words text)))
              / Qnat (length (PDFProcessor.long_words text)))%Q.

(** Every call into the storage layer completes. *)
Definition storage_completes (env : ProcessingOrchestrator.Collaborators) : Prop :=
  forall c, ProcessingOrchestrator.fault env c = None.

(** ** Sample data for the scenarios *)

(** A reference matcher for the expressions that [matchWildcard] builds from
    a pattern of letters, digits, spaces, [*] and [?]: between [^] and
    [$], a literal character, [.] or [.*]. *)
Inductive glob_token : Type :=
| GLit (c : ascii)
| GAny
| GStar.

Definition is_plain (c : ascii) : bool :=
  JS.is_alpha c || JS.is_digit c || Ascii.eqb c " " || Ascii.eqb c "_" || Ascii.eqb c "-".

Fixpoint glob_tokens (p : string) : option (list glob_token) :=
  match p with
  | EmptyString => Some []
  | String c p' =>
      if Ascii.eqb c "." then
        match p' with
        | String d p'' =>
            if Ascii.eqb d "*" then option_map (cons GStar) (glob_tokens p'')
            else option_map (cons GAny) (glob_tokens p')
        | EmptyString => Some [GAny]
        end
      else if is_plain c then option_map (cons (GLit c)) (glob_tokens p')
      else None
  end.

Fixpoint glob_match (ignoreCase : bool) (ts : list glob_token) (s : string) : bool :=
  match ts with
  | [] => String.eqb s ""
  | GLit c :: ts' =>
      match s with
      | String d s' =>
          (if ignoreCase then Ascii.eqb (JS.lower_char c) (JS.lower_char d)
           else Ascii.eqb c d)
          && glob_match ignoreCase ts' s'
      | EmptyString => false
      end
  | GAny :: ts' =>
      match s with
      | String d s' => negb (JS.is_line_terminator d) && glob_match ignoreCase ts' s'
      | EmptyString => false
      end
  | GStar :: ts' =>
      (fix star (s : string) : bool :=
         glob_match ignoreCase ts' s
         || match s with
            | String d s' => negb (JS.is_line_terminator d) && star s'
            | EmptyString => false
            end) s
  end.

(** The anchored expression [^body$], split into tokens. *)
Definition anchored_tokens (p : string) : option (list glob_token) :=
  match p with
  | String c body =>
      if Ascii.eqb c "^" then
        match JS.indexOf body "$" with
        | Some n =>
            if String.length body =? S n
            then glob_tokens (String.substring 0 n body)
            else None
        | None => None
        end
      else None
  | EmptyString => None
  end.

(** An engine that knows the anchored fragment and rejects every other
    expression. *)
Definition fragment_engine (p : string) (ignoreCase : bool) (s : string)
  : option (list string) :=
  match anchored_tokens p with
  | Some ts => Some (if glob_match ignoreCase ts s then [s] else [])
  | None => None
  end.

(** [String(x)] for the integers; a fraction is written [n/d]. *)
Definition sample_number_string (x : Q) : string :=
  let n := NilZero.string_of_int (Z.to_int (Qnum x)) in
  if Pos.eqb (Qden x) 1 then n
  else n ++ "/" ++ NilZero.string_of_uint (Pos.to_uint (Qden x)).

Definition sample_runtime : TemplateEngine.Runtime :=
  {| TemplateEngine.RegExp_matches := fragment_engine;
     TemplateEngine.Number_toString := sample_number_string;
     TemplateEngine.parseFloat := fun _ => None;
     TemplateEngine.Date_parse := fun _ => None;
     TemplateEngine.evaluate := fun _ _ => Ok None |}.

Definition mapping (field source target : string) (p : Q) : TemplateEngine.HardcodedMapping :=
  {| TemplateEngine.m_fieldName := field;
     TemplateEngine.sourcePattern := source;
     TemplateEngine.targetValue := target;
     TemplateEngine.priority := p;
     TemplateEngine.m_isActive := true |}.

(** A required invoice number and a purchase order number that the
    invoice text does not hold; the amount must be a plain number. *)
Definition required_rule (field keyword : string) (dt : TemplateEngine.DataType)
  : TemplateEngine.ExtractionRule :=
  {| TemplateEngine.fieldName := field;
     TemplateEngine.extractionType := TemplateEngine.et_keyword;
     TemplateEngine.r_pattern := None;
     TemplateEngine.r_position := None;
     TemplateEngine.tableConfig := None;
     TemplateEngine.keywordConfig :=
       Some {| TemplateEngine.keywords := [keyword];
               TemplateEngine.searchRadius := 2;
               TemplateEngine.direction := TemplateEngine.same_line |};
     TemplateEngine.calculationConfig := None;
     TemplateEngine.validation :=
       Some {| TemplateEngine.dataType := dt;
               TemplateEngine.required := true;
               TemplateEngine.minLength := None;
               TemplateEngine.maxLength := None;
               TemplateEngine.v_pattern := None |} |}.

Definition sample_template : TemplateEngine.Template :=
  {| TemplateEngine.t_id := "tpl-1";
     TemplateEngine.t_customerId := "cust-1";
     TemplateEngine.t_name := "ACME Invoice Template";
     TemplateEngine.extractionRules :=
       [ required_rule "invoice_number" "Invoice #" TemplateEngine.dt_string;
         required_rule "po_number" "PO Number:" TemplateEngine.dt_string;
         required_rule "total_amount" "Total:" TemplateEngine.dt_number ];
     TemplateEngine.hardcodedMappings :=
       [ mapping "expense_type" "freight" "SHIPPING_COST" 2;
         mapping "expense_type" "tax" "TAX_AMOUNT" 3 ];
     TemplateEngine.t_isActive := true |}.

Definition no_data : TemplateEngine.StructuredData :=
  {| TemplateEngine.tables := [];
     TemplateEngine.keyValuePairs := [];
     TemplateEngine.dates := [];
     TemplateEngine.currency_numbers := [];
     TemplateEngine.percentage_numbers := [];
     TemplateEngine.general_numbers := [] |}.

(** One customer whose name has two words, and two text patterns of
    weight 2 and 1. *)
Definition acme : CustomerDetector.Customer :=
  {| CustomerDetector.id := "cust-1"; CustomerDetector.name := "Acme Corporation" |}.

Definition text_pattern (p : string) (w : Q) : CustomerDetector.DetectionPattern :=
  {| CustomerDetector.ptype := CustomerDetector.PText;
     CustomerDetector.pattern := p;
     CustomerDetector.weight := w;
     CustomerDetector.caseSensitive := false |}.

Definition sample_detector : CustomerDetector.Detector :=
  {| CustomerDetector.customers := [acme];
     CustomerDetector.patterns :=
       [("cust-1", [text_pattern "ACME Corp" 2; text_pattern "AC-2024" 1])] |}.

(** A detector that knows the customer by name only. *)
Definition name_only_detector : CustomerDetector.Detector :=
  {| CustomerDetector.customers := [acme]; CustomerDetector.patterns := [] |}.

Definition sample_letter : string :=
  "Dear customer, this letter confirms that the quarterly service agreement "
  ++ "between both companies remains valid until further written notice".

Definition sample_parsed (text : string) : PDFProcessor.ParsedPdf :=
  {| PDFProcessor.pdf_text := text;
     PDFProcessor.numpages := 1;
     PDFProcessor.info_Author := None;
     PDFProcessor.info_Creator := None;
     PDFProcessor.info_CreationDate := None;
     PDFProcessor.info_ModDate := None |}.

(** What direct extraction makes of the sample letter. *)
Definition sample_direct : PDFProcessor.ExtractedData :=
  {| PDFProcessor.text := sample_letter;
     PDFProcessor.pages :=
       [ {| PDFProcessor.pageNumber := 1;
            PDFProcessor.page_text := sample_letter;
            PDFProcessor.page_confidence := 95 # 100 |} ];
     PDFProcessor.metadata :=
       {| PDFProcessor.totalPages := 1;
          PDFProcessor.author := None;
          PDFProcessor.creator := None;
          PDFProcessor.creationDate := None;
          PDFProcessor.modificationDate := None |};
     PDFProcessor.confidence := 95 # 100 |}.

Definition sample_recognition : PDFProcessor.Recognition :=
  {| PDFProcessor.ocr_text := "INVOICE 1001 TOTAL 250.00";
     PDFProcessor.ocr_confidence := 87 |}.

Definition no_customers : CustomerDetector.Detector :=
  {| CustomerDetector.customers := []; CustomerDetector.patterns := [] |}.

Definition sample_env : ProcessingOrchestrator.Collaborators :=
  {| ProcessingOrchestrator.runtime := sample_runtime;
     ProcessingOrchestrator.pdfParse := fun _ => Ok (sample_parsed sample_letter);
     ProcessingOrchestrator.createWorker := Ok tt;
     ProcessingOrchestrator.recognize := fun _ => Ok sample_recognition;
     ProcessingOrchestrator.extractTables := fun _ => [];
     ProcessingOrchestrator.detectKeyValuePairs := fun _ => [];
     ProcessingOrchestrator.extractDates := fun _ => [];
     ProcessingOrchestrator.extractNumbers := fun _ => ([], [], []);
     ProcessingOrchestrator.fault := fun _ => None;
     ProcessingOrchestrator.now_iso := "2024-01-05T10:00:00.000Z";
     ProcessingOrchestrator.uploadsDir := "./uploads";
     ProcessingOrchestrator.path_join := fun a b => a ++ "/" ++ b;
     ProcessingOrchestrator.new_job_id := "job-1";
     ProcessingOrchestrator.detector := no_customers;
     ProcessingOrchestrator.stored_templates := [sample_template] |}.

Definition sample_request : ProcessingOrchestrator.ProcessingRequest :=
  {| ProcessingOrchestrator.req_documentId := "doc-1";
     ProcessingOrchestrator.filePath := "./uploads/letter.pdf";
     ProcessingOrchestrator.fileName := "letter.pdf";
     ProcessingOrchestrator.buffer := "%PDF-1.4";
     ProcessingOrchestrator.userId := "user-1" |}.

Definition uploaded_world : ProcessingOrchestrator.World :=
  {| ProcessingOrchestrator.document_status := DocumentStatus.UPLOADED;
     ProcessingOrchestrator.document_confidenceScore := None;
     ProcessingOrchestrator.document_customerId := None;
     ProcessingOrchestrator.document_templateId := None;
     ProcessingOrchestrator.job_status := None;
     ProcessingOrchestrator.job_errorMessage := None;
     ProcessingOrchestrator.csv_files := [];
     ProcessingOrchestrator.csv_outputs := [] |}.



(** A mapping whose pattern has a question mark and no star. *)
Definition question_mark_mapping : TemplateEngine.HardcodedMapping :=
  mapping "expense_type" "fr?ight" "SHIPPING_COST" 1.

(** A parser that rejects the document and a recognition that reads it. *)
Definition rejecting_parser (b : string) : result PDFProcessor.ParsedPdf :=
  Throw "Invalid PDF structure".

Definition reading_recognizer (b : string) : result PDFProcessor.Recognition :=
  Ok sample_recognition.

(** ** Vocabulary of the further properties *)

(** The sum of the weights of a list of patterns. *)
Definition total_weight (ps : list CustomerDetector.DetectionPattern) : Q :=
  fold_right (fun p acc => (CustomerDetector.weight p + acc)%Q) 0%Q ps.

(** The patterns of a list that a test accepts, and what the tally of a
    weighing loop over the list holds at the end. *)
Definition hits (hit : CustomerDetector.DetectionPattern -> bool)
           (ps : list CustomerDetector.DetectionPattern)
  : list CustomerDetector.DetectionPattern :=
  filter hit ps.

(** The weighted ratio of the patterns found among [ps]: zero when the
    total weight is not positive. *)
Definition weighted_ratio (hit : CustomerDetector.DetectionPattern -> bool)
           (ps : list CustomerDetector.DetectionPattern) : Q :=
  if Qgtb (total_weight ps) 0
  then (total_weight (hits hit ps) / total_weight ps)%Q
  else 0%Q.

(** The first five and the last five lines of a text. *)
Definition header_lines (text : string) : list string :=
  JS.slice 0 (Nat.min 5 (length (JS.lines text))) (JS.lines text).

Definition footer_lines (text : string) : list string :=
  JS.slice_last (Nat.min 5 (length (JS.lines text))) (JS.lines text).



(** The pattern that the checks see in a parsed pattern whose fields have
    the types of [DetectionPattern]: a type among the five, a string
    pattern, a number weight; [caseSensitive] only ever acts through its
    truthiness. *)
Definition as_pattern_type (v : option JS.json) : option CustomerDetector.PatternType :=
  match v with
  | Some (JS.JStr s) =>
      if String.eqb s "text" then Some CustomerDetector.PText
      else if String.eqb s "regex" then Some CustomerDetector.PRegex
      else if String.eqb s "position" then Some CustomerDetector.PPosition
      else if String.eqb s "header" then Some CustomerDetector.PHeader
      else if String.eqb s "footer" then Some CustomerDetector.PFooter
      else None
  | _ => None
  end.

Definition as_pattern (p : CustomerDetector.ParsedPattern)
  : option CustomerDetector.DetectionPattern :=
  match as_pattern_type (CustomerDetector.pp_type p),
        CustomerDetector.pp_pattern p, CustomerDetector.pp_weight p with
  | Some ty, Some (JS.JStr s), Some (JS.JNum w) =>
      Some {| CustomerDetector.ptype := ty;
              CustomerDetector.pattern := s;
              CustomerDetector.weight := w;
              CustomerDetector.caseSensitive :=
                JS.truthy (CustomerDetector.pp_caseSensitive p) |}
  | _, _, _ => None
  end.

(** The pattern that an entry of the object format stands for. *)
Definition legacy_pattern (key value : string) : CustomerDetector.DetectionPattern :=
  {| CustomerDetector.ptype :=
       if JS.includes key "regex" then CustomerDetector.PRegex
       else CustomerDetector.PText;
     CustomerDetector.pattern := value;
     CustomerDetector.weight := if JS.includes key "name" then 2 else 1;
     CustomerDetector.caseSensitive := false |}.

(** The string-valued entries of an object, as patterns. *)
Fixpoint legacy_patterns (entries : list (string * JS.json))
  : list CustomerDetector.DetectionPattern :=
  match entries with
  | [] => []
  | (key, JS.JStr value) :: rest => legacy_pattern key value :: legacy_patterns rest
  | _ :: rest => legacy_patterns rest
  end.

(** A detector whose patterns all come from object-format data. *)
Definition from_legacy_data (d : CustomerDetector.Detector) : Prop :=
  forall k ps, In (k, ps) (CustomerDetector.patterns d) ->
               exists entries, ps = legacy_patterns entries.

Definition is_null (v : JS.json) : bool :=
  match v with JS.JNull => true | _ => false end.

(** The text pattern that a string of an array stands for. *)
Definition plain_pattern (s : string) : CustomerDetector.DetectionPattern :=
  {| CustomerDetector.ptype := CustomerDetector.PText;
     CustomerDetector.pattern := s;
     CustomerDetector.weight := 1;
     CustomerDetector.caseSensitive := false |}.

(** Object-format data of a customer, and the detector it feeds. *)
Definition legacy_data : list (string * JS.json) :=
  [ ("companyName", JS.JStr "ACME Corp");
    ("accountNumber", JS.JStr "AC-2024");
    ("since", JS.JNum 2019) ].

Definition legacy_detector : CustomerDetector.Detector :=
  {| CustomerDetector.customers := [acme];
     CustomerDetector.patterns := [("cust-1", legacy_patterns legacy_data)] |}.

(** A pattern configured with weight 0 and no type, and what is parsed
    from it. *)
Definition zero_weight_item : JS.json :=
  JS.JObj [("pattern", JS.JStr "ACME Corp"); ("weight", JS.JNum 0)].

Definition zero_weight_parsed : CustomerDetector.ParsedPattern :=
  {| CustomerDetector.pp_type := Some (JS.JStr "text");
     CustomerDetector.pp_pattern := Some (JS.JStr "ACME Corp");
     CustomerDetector.pp_weight := Some (JS.JNum 1);
     CustomerDetector.pp_caseSensitive := Some (JS.JBool false) |}.

(** A template whose two required fields the invoice text holds. *)
Definition complete_template : TemplateEngine.Template :=
  {| TemplateEngine.t_id := "tpl-3";
     TemplateEngine.t_customerId := "cust-1";
     TemplateEngine.t_name := "ACME Invoice Template";
     TemplateEngine.extractionRules :=
       [ required_rule "invoice_number" "Invoice #" TemplateEngine.dt_string;
         required_rule "total_amount" "Total:" TemplateEngine.dt_currency ];
     TemplateEngine.hardcodedMappings := [];
     TemplateEngine.t_isActive := true |}.

(** A rule of an extraction type that the engine does not know, and a
    template that holds it beside a rule that extracts. *)
Definition barcode_rule : TemplateEngine.ExtractionRule :=
  {| TemplateEngine.fieldName := "barcode";
     TemplateEngine.extractionType := TemplateEngine.et_unknown "barcode";
     TemplateEngine.r_pattern := None;
     TemplateEngine.r_position := None;
     TemplateEngine.tableConfig := None;
     TemplateEngine.keywordConfig := None;
     TemplateEngine.calculationConfig := None;
     TemplateEngine.validation := None |}.

Definition barcode_template : TemplateEngine.Template :=
  {| TemplateEngine.t_id := "tpl-4";
     TemplateEngine.t_customerId := "cust-1";
     TemplateEngine.t_name := "ACME Invoice Template";
     TemplateEngine.extractionRules :=
       [ required_rule "invoice_number" "Invoice #" TemplateEngine.dt_string;
         barcode_rule ];
     TemplateEngine.hardcodedMappings := [];
     TemplateEngine.t_isActive := true |}.

(** The sum of the counts of a table of counts. *)
Definition sum_counts (o : list (string * nat)) : nat :=
  fold_right (fun kv acc => snd kv + acc) 0 o.

(** A line that the table detection takes for a row, and the row it
    gives. *)
Definition row_like (rawLine : string) : bool :=
  PDFProcessor.looksLikeTableRow (JS.trim rawLine).

Definition row_of (rawLine : string) : list string :=
  PDFProcessor.parseTableRow (JS.trim rawLine).


(** A list is empty or ends with an element that fails [f]; a list is
    empty or starts with an element that fails [f]. *)
Definition ends_without {A : Type} (f : A -> bool) (l : list A) : Prop :=
  l = [] \/ exists l' x, l = (l' ++ [x])%list /\ f x = false.

Definition starts_without {A : Type} (f : A -> bool) (l : list A) : Prop :=
  match l with
  | [] => True
  | x :: _ => f x = false
  end.

(** A detected table that stands for a block of consecutive lines of
    [lines]: the block has two lines or more, all taken for rows, and
    cannot be extended on either side. *)
Definition table_of_block (lines : list string) (t : PDFProcessor.TableData) : Prop :=
  exists before block after,
    lines = (before ++ block ++ after)%list
    /\ 2 <= length block
    /\ forallb row_like block = true
    /\ ends_without row_like before
    /\ starts_without row_like after
    /\ PDFProcessor.td_rows t = map row_of block
    /\ PDFProcessor.td_headers t = hd_error (map row_of block)
    /\ PDFProcessor.tp_y (PDFProcessor.td_position t) = Z.of_nat (length before)
    /\ PDFProcessor.tp_height (PDFProcessor.td_position t) = length block.

(** An invoice with a table of three lines in the middle. *)
Definition table_text : string :=
  "Invoice #INV-1001" ++ LF
  ++ "Item      Qty   Price" ++ LF
  ++ "Widget    2     $5.00" ++ LF
  ++ "Gadget    1     $240.00" ++ LF
  ++ "Total: $250.00".

Definition table_text_table : PDFProcessor.TableData :=
  {| PDFProcessor.td_rows :=
       [ ["Item"; "Qty"; "Price"];
         ["Widget"; "2"; "$5.00"];
         ["Gadget"; "1"; "$240.00"] ];
     PDFProcessor.td_headers := Some ["Item"; "Qty"; "Price"];
     PDFProcessor.td_position :=
       {| PDFProcessor.tp_x := 0;
          PDFProcessor.tp_y := 1;
          PDFProcessor.tp_width := 100;
          PDFProcessor.tp_height := 3 |} |}.

(** ** Assertions on a run of the orchestrator *)

(** [hoare P m Q E]: from a state that satisfies [P], [m] ends in a state
    that satisfies [Q] with its result when it returns, and [E] with the
    message when it throws. *)
Definition hoare {A : Type} (P : ProcessingOrchestrator.St -> Prop)
           (m : ProcessingOrchestrator.M A)
           (Q : A -> ProcessingOrchestrator.St -> Prop)
           (E : string -> ProcessingOrchestrator.St -> Prop) : Prop :=
  forall s, P s ->
            match m s with
            | (Ok a, s') => Q a s'
            | (Throw e, s') => E e s'
            end.

(** [m] keeps the invariant [I], however it ends. *)
Definition preserves {A : Type} (I : ProcessingOrchestrator.St -> Prop)
           (m : ProcessingOrchestrator.M A) : Prop :=
  hoare I m (fun _ => I) (fun _ => I).

(** The confidence of the response under construction is in the unit
    interval. *)
Definition confidence_bounded (s : ProcessingOrchestrator.St) : Prop :=
  in_unit_interval
    (ProcessingOrchestrator.confidence (ProcessingOrchestrator.response s)).

(** A CSV file was written at [path]. *)
Definition written (path : string) (w : ProcessingOrchestrator.World) : Prop :=
  In path (map fst (ProcessingOrchestrator.csv_files w)).

(** Every CSV output row, and the path in the response, name a written
    file. *)
Definition outputs_written (s : ProcessingOrchestrator.St) : Prop :=
  (forall p, In p (ProcessingOrchestrator.csv_outputs (ProcessingOrchestrator.world s)) ->
             written p (ProcessingOrchestrator.world s))
  /\ (forall p, ProcessingOrchestrator.csvFilePath (ProcessingOrchestrator.response s)
                = Some p ->
                written p (ProcessingOrchestrator.world s)).

(** The job and document rows can be written. *)
Definition rows_writable (env : ProcessingOrchestrator.Collaborators) : Prop :=
  ProcessingOrchestrator.fault env ProcessingOrchestrator.io_job_create = None
  /\ ProcessingOrchestrator.fault env ProcessingOrchestrator.io_job_update = None
  /\ ProcessingOrchestrator.fault env ProcessingOrchestrator.io_document_update = None.

(** When the response says failure, the document row says FAILED. *)
Definition failure_recorded (s : ProcessingOrchestrator.St) : Prop :=
  ProcessingOrchestrator.success (ProcessingOrchestrator.response s) = false ->
  ProcessingOrchestrator.document_status (ProcessingOrchestrator.world s)
  = DocumentStatus.FAILED.

(** How a run leaves the job: COMPLETED beside a successful response, or
    FAILED beside a document marked FAILED and a response that says
    failure or lists an error. *)
Definition job_settled (s : ProcessingOrchestrator.St) : Prop :=
  (ProcessingOrchestrator.job_status (ProcessingOrchestrator.world s)
   = Some JobStatus.COMPLETED
   /\ ProcessingOrchestrator.success (ProcessingOrchestrator.response s) = true)
  \/ (ProcessingOrchestrator.job_status (ProcessingOrchestrator.world s)
      = Some JobStatus.FAILED
      /\ ProcessingOrchestrator.document_status (ProcessingOrchestrator.world s)
         = DocumentStatus.FAILED
      /\ (ProcessingOrchestrator.success (ProcessingOrchestrator.response s) = false
          \/ ProcessingOrchestrator.errors (ProcessingOrchestrator.response s) <> [])).

(** What a run extracts from the request and whom it detects in it. *)
Definition extraction_of (env : ProcessingOrchestrator.Collaborators)
           (request : ProcessingOrchestrator.ProcessingRequest)
  : result PDFProcessor.ExtractedData :=
  PDFProcessor.processPDF ProcessingOrchestrator.Buffer
    (ProcessingOrchestrator.pdfParse env) (ProcessingOrchestrator.createWorker env)
    (ProcessingOrchestrator.recognize env) true
    (ProcessingOrchestrator.buffer request).

Definition detection_of (env : ProcessingOrchestrator.Collaborators)
           (request : ProcessingOrchestrator.ProcessingRequest)
           (ed : PDFProcessor.ExtractedData)
  : CustomerDetector.CustomerDetectionResult :=
  CustomerDetector.detectCustomer
    (TemplateEngine.RegExp_matches (ProcessingOrchestrator.runtime env))
    (ProcessingOrchestrator.detector env) (PDFProcessor.text ed)
    (Some (ProcessingOrchestrator.fileName request)).

(** The document row is as it was: status, score, customer, template. *)
Definition document_untouched (w w' : ProcessingOrchestrator.World) : Prop :=
  ProcessingOrchestrator.document_status w' = ProcessingOrchestrator.document_status w
  /\ ProcessingOrchestrator.document_confidenceScore w'
     = ProcessingOrchestrator.document_confidenceScore w
  /\ ProcessingOrchestrator.document_customerId w'
     = ProcessingOrchestrator.document_customerId w
  /\ ProcessingOrchestrator.document_templateId w'
     = ProcessingOrchestrator.document_templateId w.

(** The status in which background processing leaves a document when
    every storage call completes, read off the branches of a run. *)
Definition settled_status (env : ProcessingOrchestrator.Collaborators)
           (request : ProcessingOrchestrator.ProcessingRequest) : DocumentStatus.t :=
  match ProcessingOrchestrator.createWorker env, extraction_of env request with
  | Throw _, _ => DocumentStatus.FAILED
  | Ok _, Throw _ => DocumentStatus.FAILED
  | Ok _, Ok ed =>
      if String.length (PDFProcessor.text ed) <? 10 then DocumentStatus.FAILED
      else
        match TemplateEngine.truthy_string
                (CustomerDetector.customerId (detection_of env request ed)) with
        | None => DocumentStatus.COMPLETED
        | Some cid =>
            match TemplateEngine.selectTemplate
                    (ProcessingOrchestrator.runtime env)
                    (TemplateEngine.initialize (ProcessingOrchestrator.stored_templates env))
                    cid (PDFProcessor.text ed) with
            | None => DocumentStatus.PROCESSING
            | Some template =>
                ProcessingOrchestrator.status_of_success
                  (TemplateEngine.success
                     (TemplateEngine.processDocument
                        (ProcessingOrchestrator.runtime env) template
                        (PDFProcessor.text ed)
                        (ProcessingOrchestrator.structured env (PDFProcessor.text ed))))
            end
        end
  end.

(** Every character of a string satisfies [f]. *)
Definition every_char (f : ascii -> bool) (s : string) : bool :=
  forallb f (list_ascii_of_string s).

(** ** Scenarios of a run *)

(** The collaborators of a scenario: what the parser reads, what
    recognition reads, the detector and the stored templates; storage
    completes. *)
Definition scenario (parsed_text : string) (recognition : PDFProcessor.Recognition)
           (d : CustomerDetector.Detector) (templates : list TemplateEngine.Template)
  : ProcessingOrchestrator.Collaborators :=
  {| ProcessingOrchestrator.runtime := sample_runtime;
     ProcessingOrchestrator.pdfParse := fun _ => Ok (sample_parsed parsed_text);
     ProcessingOrchestrator.createWorker := Ok tt;
     ProcessingOrchestrator.recognize := fun _ => Ok recognition;
     ProcessingOrchestrator.extractTables := fun _ => [];
     ProcessingOrchestrator.detectKeyValuePairs := fun _ => [];
     ProcessingOrchestrator.extractDates := fun _ => [];
     ProcessingOrchestrator.extractNumbers := fun _ => ([], [], []);
     ProcessingOrchestrator.fault := fun _ => None;
     ProcessingOrchestrator.now_iso := "2024-01-05T10:00:00.000Z";
     ProcessingOrchestrator.uploadsDir := "./uploads";
     ProcessingOrchestrator.path_join := fun a b => a ++ "/" ++ b;
     ProcessingOrchestrator.new_job_id := "job-1";
     ProcessingOrchestrator.detector := d;
     ProcessingOrchestrator.stored_templates := templates |}.

(** A scan on which recognition reads next to nothing. *)
Definition faint_recognition : PDFProcessor.Recognition :=
  {| PDFProcessor.ocr_text := "n/a"; PDFProcessor.ocr_confidence := 12 |}.

Definition faint_scan : ProcessingOrchestrator.Collaborators :=
  scenario "" faint_recognition no_customers [].

(** A letter of the sample customer, with and without a template. *)
Definition acme_letter : string :=
  sample_letter ++ ". Sincerely, ACME Corp, account AC-2024".

Definition acme_without_template : ProcessingOrchestrator.Collaborators :=
  scenario acme_letter sample_recognition sample_detector [].

Definition acme_with_template : ProcessingOrchestrator.Collaborators :=
  scenario acme_letter sample_recognition sample_detector [complete_template].

(** The direct extraction of the letter of the sample customer. *)
Definition acme_direct : PDFProcessor.ExtractedData :=
  {| PDFProcessor.text := acme_letter;
     PDFProcessor.pages :=
       [ {| PDFProcessor.pageNumber := 1;
            PDFProcessor.page_text := acme_letter;
            PDFProcessor.page_confidence := 95 # 100 |} ];
     PDFProcessor.metadata :=
       {| PDFProcessor.totalPages := 1;
          PDFProcessor.author := None;
          PDFProcessor.creator := None;
          PDFProcessor.creationDate := None;
          PDFProcessor.modificationDate := None |};
     PDFProcessor.confidence := 95 # 100 |}.

(** ** Stored patterns *)

(** A pattern that the database gives back as it was: its pattern is not
    empty and its weight is not zero. *)
Definition kept_by_storage (q : CustomerDetector.DetectionPattern) : Prop :=
  CustomerDetector.pattern q <> "" /\ Qeq_bool (CustomerDetector.weight q) 0 = false.

(** The patterns that the checks see in a JSON column. *)
Definition patterns_read (data : JS.json)
  : list (option CustomerDetector.DetectionPattern) :=
  map as_pattern (CustomerDetector.parseIdentifierPatterns data).

(** An engine for the account expressions that finds one account
    number. *)
Definition one_account (p text : string) : list string :=
  if String.prefix "Account" p then ["AC-2024"] else [].

(** The head of a letter of the sample customer. *)
Definition letterhead : string :=
  "  Acme Corporation  " ++ LF ++ "Account: AC-2024" ++ LF ++ "Dear customer,".

(** A mapping without source pattern. *)
Definition catch_all_mapping : TemplateEngine.HardcodedMapping :=
  mapping "expense_type" "" "OTHER" 1.

(** The header that the sample letterhead teaches. *)
Definition learned_header : CustomerDetector.DetectionPattern :=
  {| CustomerDetector.ptype := CustomerDetector.PHeader;
     CustomerDetector.pattern := "Acme Corporation";
     CustomerDetector.weight := 15 # 10;
     CustomerDetector.caseSensitive := false |}.
(** * Properties

    ** Rational arithmetic *)

Lemma Qgtb_true (a b : Q) : Qgtb a b = true <-> (b < a)%Q.
Proof.
  unfold Qgtb. rewrite negb_true_iff. split; intro H.
  - destruct (Qlt_le_dec b a) as [L | L]; [exact L |].
    apply Qle_bool_iff in L. congruence.
  - destruct (Qle_bool a b) eqn:E; [| reflexivity].
    apply Qle_bool_iff in E. exfalso. exact (Qlt_not_le _ _ H E).
Qed.

Lemma Qgtb_false (a b : Q) : Qgtb a b = false <-> (a <= b)%Q.
Proof.
  unfold Qgtb. rewrite negb_false_iff. apply Qle_bool_iff.
Qed.

Lemma Math_min_le_r (a b : Q) : (Math_min a b <= b)%Q.
Proof.
  unfold Math_min. destruct (Qgtb a b) eqn:E.
  - apply Qle_refl.
  - apply Qgtb_false. exact E.
Qed.

Lemma Math_min_glb (a b c : Q) : (c <= a)%Q -> (c <= b)%Q -> (c <= Math_min a b)%Q.
Proof.
  intros Ha Hb. unfold Math_min. destruct (Qgtb a b); assumption.
Qed.

Lemma Qnat_nonneg (n : nat) : (0 <= Qnat n)%Q.
Proof.
  unfold Qnat, Qle. simpl. lia.
Qed.

Lemma Qnat_le (m n : nat) : m <= n -> (Qnat m <= Qnat n)%Q.
Proof.
  intro H. unfold Qnat, Qle. simpl. lia.
Qed.

Lemma Qnat_pos (n : nat) : 0 < n -> (0 < Qnat n)%Q.
Proof.
  intro H. unfold Qnat, Qlt. simpl. lia.
Qed.

(** A quotient of two rationals [0 <= m <= t] with [0 < t] lies in the
    unit interval. *)
Lemma Qdiv_unit_interval (m t : Q) :
  (0 <= m)%Q -> (m <= t)%Q -> (0 < t)%Q -> (0 <= m / t)%Q /\ (m / t <= 1)%Q.
Proof.
  intros Hm Hmt Ht. split.
  - apply Qle_shift_div_l; [exact Ht |]. lra.
  - apply Qle_shift_div_r; [exact Ht |]. lra.
Qed.

(** ** String primitives *)

Lemma split_char_nonempty (sep : ascii) (s : string) : JS.split_char sep s <> [].
Proof.
  destruct s as [| c s']; simpl; [discriminate |].
  destruct (Ascii.eqb c sep); [discriminate |].
  destruct (JS.split_char sep s'); discriminate.
Qed.

Lemma split_ws_from_nonempty (b : bool) (s : string) : JS.split_ws_from b s <> [].
Proof.
  revert b. induction s as [| c s' IH]; intro b; simpl; [discriminate |].
  destruct (JS.is_space c).
  - destruct b; [apply IH | discriminate].
  - destruct (JS.split_ws_from false s'); discriminate.
Qed.

Lemma split_ws_length_pos (s : string) : 0 < List.length (JS.split_ws s).
Proof.
  pose proof (split_ws_from_nonempty false s) as H. unfold JS.split_ws.
  destruct (JS.split_ws_from false s); [congruence | simpl; lia].
Qed.

Example split_ws_examples :
  JS.split_ws " acme  global corp " = [""; "acme"; "global"; "corp"; ""]
  /\ JS.split_ws "" = [""]
  /\ JS.lines ("a" ++ String JS.newline "b") = ["a"; "b"]
  /\ JS.trim "  x y  " = "x y"
  /\ JS.indexOf "Invoice #INV" "#" = Some 8
  /\ JS.includes "abc" "" = true.
Proof. repeat split; reflexivity. Qed.

(** ** The descending stable sort *)

Section SortDescendingFacts.
Context {A : Type}.
Variable key : A -> Q.

Lemma insert_desc_In (x y : A) (l : list A) :
 
  In y (insert_desc key x l) <-> y = x \/ In y l.
Proof.
  induction l as [| z l IH]; simpl.
  - intuition congruence.
  - destruct (Qgtb (key z) (key x)); simpl; [rewrite IH |]; intuition congruence.
Qed.

Lemma sort_desc_In (y : A) (l : list A) : In y (sort_desc key l) <-> In y l.
Proof.
  induction l as [| x l IH]; simpl; [tauto |].
  rewrite insert_desc_In, IH. intuition congruence.
Qed.

Lemma sort_desc_length (l : list A) : length (sort_desc key l) = length l.
Proof.
  induction l as [| x l IH]; simpl; [reflexivity |].
  rewrite <- IH. generalize (sort_desc key l) as s.
  induction s as [| z s IHs]; simpl; [reflexivity |].
  destruct (Qgtb (key z) (key x)); simpl; [rewrite IHs |]; reflexivity.
Qed.

Lemma sort_desc_head (x : A) (l : list A) :
  hd_error (sort_desc key (x :: l)) = Some (first_max key x l).
Proof.
  revert x. induction l as [| y l IH]; intro x; [reflexivity |].
  change (sort_desc key (x :: y :: l)) with (insert_desc key x (sort_desc key (y :: l))).
  specialize (IH y). change (first_max key x (y :: l))
    with (let b := first_max key y l in if Qgtb (key b) (key x) then b else x).
  destruct (sort_desc key (y :: l)) as [| h s]; [discriminate |].
  simpl in IH. injection IH as ->. simpl.
  destruct (Qgtb (key (first_max key y l)) (key x)); reflexivity.
Qed.

Lemma first_max_In (x : A) (l : list A) : In (first_max key x l) (x :: l).
Proof.
  revert x. induction l as [| y l IH]; intro x; simpl; [tauto |].
  destruct (Qgtb (key (first_max key y l)) (key x)).
  - right. apply (IH y).
  - left. reflexivity.
Qed.

Lemma first_max_greatest (x : A) (l : list A) (y : A) :
  In y (x :: l) -> (key y <= key (first_max key x l))%Q.
Proof.
  revert x y. induction l as [| z l IH]; intros x y Hy.
  - destruct Hy as [<- | []]. simpl. apply Qle_refl.
  - change (first_max key x (z :: l))
      with (let b := first_max key z l in if Qgtb (key b) (key x) then b else x).
    cbv zeta. destruct (Qgtb (key (first_max key z l)) (key x)) eqn:E.
    + apply Qgtb_true in E. destruct Hy as [<- | Hy].
      * apply Qlt_le_weak. exact E.
      * apply IH. exact Hy.
    + apply Qgtb_false in E. destruct Hy as [<- | Hy].
      * apply Qle_refl.
      * apply Qle_trans with (key (first_max key z l)); [apply IH; exact Hy | exact E].
Qed.

End SortDescendingFacts.

(** ** Customer detector *)

Section DetectorFacts.
Import CustomerDetector.

Lemma fuzzy_step_hit (text : string) (n : nat) (l : list string) (w : string) :
  fuzzy_step text (n, l) w
  = if fuzzy_hit text w then (S n, (l ++ [w])%list) else (n, l).
Proof.
  unfold fuzzy_step, fuzzy_hit. simpl.
  destruct (2 <? String.length w); [| reflexivity].
  destruct (JS.includes (JS.toLowerCase text) w); reflexivity.
Qed.

Lemma fuzzy_fold (text : string) (ws : list string) (n : nat) (l : list string) :
  fold_left (fuzzy_step text) ws (n, l)
  = (n + length (filter (fuzzy_hit text) ws), (l ++ filter (fuzzy_hit text) ws)%list).
Proof.
  revert n l. induction ws as [| w ws IH]; intros n l.
  - simpl. rewrite Nat.add_0_r, app_nil_r. reflexivity.
  - cbn [fold_left filter]. rewrite fuzzy_step_hit.
    destruct (fuzzy_hit text w); rewrite IH.
    + rewrite <- app_assoc. cbn [length app]. f_equal. lia.
    + reflexivity.
Qed.

Lemma filter_length_le {A : Type} (f : A -> bool) (l : list A) :
  length (filter f l) <= length l.
Proof.
  induction l as [| x l IH]; simpl; [lia |].
  destruct (f x); simpl; lia.
Qed.

(** Confidence and matched words of the fuzzy match, in closed form. *)
Lemma checkFuzzyMatch_confidence (text : string) (c : Customer) :
  let words := JS.split_ws (JS.toLowerCase (name c)) in
  let matched := filter (fuzzy_hit text) words in
  confidence (checkFuzzyMatch text c)
  = (Qnat (length matched) / Qnat (length words) * (8 # 10))%Q
  /\ matchedPatterns (checkFuzzyMatch text c) = matched.
Proof.
  cbv zeta. unfold checkFuzzyMatch. rewrite fuzzy_fold. simpl.
  pose proof (split_ws_length_pos (JS.toLowerCase (name c))) as Hpos.
  apply Nat.ltb_lt in Hpos. rewrite Hpos. split; reflexivity.
Qed.

Lemma scaled_ratio_bounds (m n : nat) :
  m <= n -> 0 < n ->
  (0 <= Qnat m / Qnat n * (8 # 10))%Q /\ (Qnat m / Qnat n * (8 # 10) <= 8 # 10)%Q.
Proof.
  intros Hle Hpos.
  destruct (Qdiv_unit_interval (Qnat m) (Qnat n)) as [H0 H1];
    [apply Qnat_nonneg | apply Qnat_le; exact Hle | apply Qnat_pos; exact Hpos |].
  split; nra.
Qed.


Lemma tally_step_ok (hit : bool) (p : DetectionPattern) (t : Tally) :
  (0 <= weight p)%Q -> tally_ok t -> tally_ok (tally_step hit p t).
Proof.
  unfold tally_ok, tally_step. intros Hw [H0 H1].
  destruct hit; simpl; split; lra.
Qed.

Lemma tally_fold_ok (hit : DetectionPattern -> bool) (ps : list DetectionPattern) :
  (forall p, In p ps -> (0 <= weight p)%Q) ->
  forall t, tally_ok t ->
            tally_ok (fold_left (fun t p => tally_step (hit p) p t) ps t).
Proof.
  induction ps as [| p ps IH]; intros Hw t Ht; simpl; [exact Ht |].
  apply IH.
  - intros q Hq. apply Hw. right. exact Hq.
  - apply tally_step_ok; [apply Hw; left; reflexivity | exact Ht].
Qed.

Lemma tally0_ok : tally_ok tally0.
Proof.
  unfold tally_ok, tally0. simpl. split; apply Qle_refl.
Qed.

Lemma ratio_bounds (t : Tally) : tally_ok t -> in_unit_interval (ratio t).
Proof.
  intros [H0 H1]. unfold ratio, in_unit_interval.
  destruct (Qgtb (t_total t) 0) eqn:E.
  - apply Qgtb_true in E. apply Qdiv_unit_interval; assumption.
  - split; [apply Qle_refl | discriminate].
Qed.

Lemma filter_weights (f : DetectionPattern -> bool) (ps : list DetectionPattern) :
  (forall p, In p ps -> (0 <= weight p)%Q) ->
  forall p, In p (filter f ps) -> (0 <= weight p)%Q.
Proof.
  intros H p Hp. apply filter_In in Hp. apply H. apply Hp.
Qed.

Lemma checkExactMatch_bounds (text : string) (c : Customer) (ps : list DetectionPattern) :
  (forall p, In p ps -> (0 <= weight p)%Q) ->
  in_unit_interval (confidence (checkExactMatch text c ps)).
Proof.
  intro Hw. unfold checkExactMatch. simpl. apply ratio_bounds.
  apply (tally_fold_ok (exact_hit text));
    [apply filter_weights; exact Hw | apply tally0_ok].
Qed.

Lemma checkFuzzyMatch_bounds (text : string) (c : Customer) :
  (0 <= confidence (checkFuzzyMatch text c))%Q
  /\ (confidence (checkFuzzyMatch text c) <= 8 # 10)%Q.
Proof.
  destruct (checkFuzzyMatch_confidence text c) as [-> _].
  apply scaled_ratio_bounds; [apply filter_length_le | apply split_ws_length_pos].
Qed.

Lemma filename_words_nonneg (f : string) (ws : list string) (acc : Q * list string) :
  (0 <= fst acc)%Q -> (0 <= fst (fold_left (filename_word_step f) ws acc))%Q.
Proof.
  revert acc. induction ws as [| w ws IH]; intros acc H; simpl; [exact H |].
  apply IH. unfold filename_word_step.
  destruct ((2 <? String.length w) && JS.includes f w); simpl; [lra | exact H].
Qed.

Lemma filename_patterns_nonneg (f : string) (ps : list DetectionPattern)
      (acc : Q * list string) :
  (0 <= fst acc)%Q -> (0 <= fst (fold_left (filename_pattern_step f) ps acc))%Q.
Proof.
  revert acc. induction ps as [| p ps IH]; intros acc H; simpl; [exact H |].
  apply IH. unfold filename_pattern_step.
  destruct (JS.includes f (JS.toLowerCase (pattern p))); simpl; [lra | exact H].
Qed.

Lemma checkFilenameMatch_bounds (f : string) (c : Customer) (ps : list DetectionPattern) :
  (0 <= confidence (checkFilenameMatch f c ps))%Q
  /\ (confidence (checkFilenameMatch f c ps) <= 9 # 10)%Q.
Proof.
  unfold checkFilenameMatch. simpl. split.
  - apply Math_min_glb; [| unfold Qle; simpl; lia].
    apply filename_patterns_nonneg, filename_words_nonneg. simpl. apply Qle_refl.
  - apply Math_min_le_r.
Qed.

Lemma patterns_get_In (m : list (string * list DetectionPattern)) (k : string)
      (p : DetectionPattern) :
  In p (patterns_get m k) -> exists k' ps, In (k', ps) m /\ In p ps.
Proof.
  induction m as [| [k' v] m IH]; simpl; [tauto |].
  destruct (String.eqb k' k).
  - intro H. exists k', v. split; [left; reflexivity | exact H].
  - intro H. destruct (IH H) as (k2 & ps & Hin & Hp).
    exists k2, ps. split; [right; exact Hin | exact Hp].
Qed.

Lemma pool_In (E : string -> bool -> string -> option (list string)) (d : Detector)
      (text : string) (fileName : option string) (r : CustomerDetectionResult) :
  In r (pool E d text fileName)
  <-> exists c, In c (customers d) /\ In r (attempts E d text fileName c)
                /\ (0 < confidence r)%Q.
Proof.
  unfold pool, candidates. rewrite in_flat_map. split.
  - intros (c & Hc & Hr). apply in_flat_map in Hr. destruct Hr as (a & Ha & Hk).
    unfold keep_positive in Hk. destruct (Qgtb (confidence a) 0) eqn:E0; [| destruct Hk].
    destruct Hk as [<- | []]. exists c. repeat split; try assumption.
    apply Qgtb_true. exact E0.
  - intros (c & Hc & Ha & Hpos). exists c. split; [exact Hc |].
    apply in_flat_map. exists r. split; [exact Ha |].
    unfold keep_positive. apply Qgtb_true in Hpos. rewrite Hpos. left. reflexivity.
Qed.

(** The sort puts in front the first pooled candidate of greatest
    confidence; with an empty pool the default result is returned. *)
Lemma detectCustomer_best (E : string -> bool -> string -> option (list string))
      (d : Detector) (text : string) (fileName : option string) :
  detectCustomer E d text fileName
  = match pool E d text fileName with
    | [] => no_match
    | r :: rs => first_max confidence r rs
    end.
Proof.
  unfold detectCustomer. destruct (pool E d text fileName) as [| r rs]; [reflexivity |].
  pose proof (sort_desc_head confidence r rs) as H.
  destruct (sort_desc confidence (r :: rs)); [discriminate |].
  simpl in H. congruence.
Qed.

Lemma attempts_bounds (E : string -> bool -> string -> option (list string))
      (d : Detector) (text : string) (fileName : option string) (c : Customer)
      (r : CustomerDetectionResult) :
  weights_nonneg d -> In r (attempts E d text fileName c) ->
  in_unit_interval (confidence r).
Proof.
  intros Hw Hr.
  assert (Hps : forall p, In p (patterns_get (patterns d) (id c)) -> (0 <= weight p)%Q).
  { intros p Hp. destruct (patterns_get_In _ _ _ Hp) as (k & ps & Hin & Hp').
    exact (Hw k ps p Hin Hp'). }
  unfold attempts in Hr. apply in_app_or in Hr. destruct Hr as [Hr | Hr].
  - destruct Hr as [<- | [<- | [<- | []]]].
    + apply checkExactMatch_bounds. exact Hps.
    + unfold checkPatternMatch. simpl. apply ratio_bounds.
      apply (tally_fold_ok (header_footer_hit _ _));
        [apply filter_weights; exact Hps |].
      apply (tally_fold_ok (regex_hit E text));
        [apply filter_weights; exact Hps | apply tally0_ok].
    + destruct (checkFuzzyMatch_bounds text c) as [H0 H1].
      split; [exact H0 |]. apply Qle_trans with (8 # 10)%Q; [exact H1 |].
      unfold Qle; simpl; lia.
  - destruct fileName as [f |]; [| destruct Hr].
    destruct (String.eqb f ""); [destruct Hr |].
    destruct Hr as [<- | []].
    destruct (checkFilenameMatch_bounds f c (patterns_get (patterns d) (id c))) as [H0 H1].
    split; [exact H0 |]. apply Qle_trans with (9 # 10)%Q; [exact H1 |].
    unfold Qle; simpl; lia.
Qed.

Lemma detectCustomer_bounds (E : string -> bool -> string -> option (list string))
      (d : Detector) (text : string) (fileName : option string) :
  weights_nonneg d ->
  in_unit_interval (confidence (detectCustomer E d text fileName)).
Proof.
  intro Hw. rewrite detectCustomer_best.
  destruct (pool E d text fileName) as [| r rs] eqn:Hpool.
  - simpl. split; [apply Qle_refl | discriminate].
  - pose proof (first_max_In confidence r rs) as Hin. rewrite <- Hpool in Hin.
    apply pool_In in Hin. destruct Hin as (c & _ & Ha & _).
    exact (attempts_bounds E d text fileName c _ Hw Ha).
Qed.

End DetectorFacts.

(** ** The sort yields a list in decreasing order of key *)

Section SortedFacts.
Context {A : Type}.
Variable key : A -> Q.

Let desc (a b : A) : Prop := (key b <= key a)%Q.

Lemma insert_desc_sorted (x : A) (l : list A) :
  StronglySorted desc l -> StronglySorted desc (insert_desc key x l).
Proof.
  induction l as [| y l IH]; intro Hs; simpl.
  - constructor; [constructor | constructor].
  - inversion Hs as [| y' l' Hsl Hall]; subst.
    destruct (Qgtb (key y) (key x)) eqn:E.
    + apply Qgtb_true in E. constructor; [apply IH; exact Hsl |].
      apply Forall_forall. intros z Hz. apply insert_desc_In in Hz.
      destruct Hz as [-> | Hz].
      * unfold desc. apply Qlt_le_weak. exact E.
      * rewrite Forall_forall in Hall. apply Hall. exact Hz.
    + apply Qgtb_false in E. constructor; [exact Hs |].
      constructor; [exact E |].
      apply Forall_forall. intros z Hz. rewrite Forall_forall in Hall.
      unfold desc. apply Qle_trans with (key y); [apply Hall; exact Hz | exact E].
Qed.

Lemma sort_desc_sorted (l : list A) : StronglySorted desc (sort_desc key l).
Proof.
  induction l as [| x l IH]; simpl; [constructor |].
  apply insert_desc_sorted. exact IH.
Qed.

Lemma filter_sorted (f : A -> bool) (l : list A) :
  StronglySorted desc l -> StronglySorted desc (filter f l).
Proof.
  induction l as [| x l IH]; intro Hs; simpl; [constructor |].
  inversion Hs as [| x' l' Hsl Hall]; subst.
  destruct (f x); [| apply IH; exact Hsl].
  constructor; [apply IH; exact Hsl |].
  apply Forall_forall. intros z Hz. apply filter_In in Hz.
  rewrite Forall_forall in Hall. apply Hall. apply Hz.
Qed.

Lemma sorted_app_r (l1 l2 : list A) :
  StronglySorted desc (l1 ++ l2) -> StronglySorted desc l2.
Proof.
  induction l1 as [| x l1 IH]; simpl; intro Hs; [exact Hs |].
  inversion Hs; subst. apply IH. assumption.
Qed.

End SortedFacts.

(** ** Hardcoded mappings *)

Section MappingFacts.
Import TemplateEngine.
Variable rt : Runtime.

Let matches := mapping_matches rt.
Let apply_mappings := applyHardcodedMappings rt.

(** The loop returns the target of the first mapping that matches, and
    the value itself when none does. *)
Lemma first_match_spec (ms : list HardcodedMapping) (value : jsvalue) :
  (first_match rt ms value = value
   /\ forall m, In m ms -> matches m value = false)
  \/ exists l1 m l2,
      ms = (l1 ++ m :: l2)%list
      /\ (forall m', In m' l1 -> matches m' value = false)
      /\ matches m value = true
      /\ first_match rt ms value = JString (targetValue m).
Proof.
  unfold matches. induction ms as [| m ms IH]; simpl.
  - left. split; [reflexivity | intros m []].
  - destruct (mapping_matches rt m value) eqn:E.
    + right. exists [], m, ms. repeat split; try assumption. intros m' [].
    + destruct IH as [[Hv Hnone] | (l1 & m0 & l2 & -> & Hl1 & Hm0 & Hres)].
      * left. split; [exact Hv |]. intros m' [<- | Hm']; [exact E | apply Hnone; exact Hm'].
      * right. exists (m :: l1), m0, l2. repeat split; try assumption.
        intros m' [<- | Hm']; [exact E | apply Hl1; exact Hm'].
Qed.

(** On mappings in decreasing order of priority, a value that matches
    some mapping of the field is rewritten to the target of a matching
    mapping of that field whose priority no other matching one exceeds. *)
Lemma apply_top_priority (ms : list HardcodedMapping) (field : string)
      (value : jsvalue) (m1 : HardcodedMapping) :
  by_priority_desc ms ->
  In m1 ms -> m_fieldName m1 = field -> matches m1 value = true ->
  exists m,
    In m ms /\ m_fieldName m = field /\ matches m value = true
    /\ apply_mappings ms field value = JString (targetValue m)
    /\ forall m', In m' ms -> m_fieldName m' = field -> matches m' value = true ->
                  (priority m' <= priority m)%Q.
Proof.
  unfold matches, apply_mappings.
  intros Hsorted Hin1 Hf1 Hm1. unfold applyHardcodedMappings.
  set (fm := filter (fun m => String.eqb (m_fieldName m) field) ms).
  assert (Hfm : forall m, In m fm <-> In m ms /\ m_fieldName m = field).
  { intro m. unfold fm. rewrite filter_In, String.eqb_eq. reflexivity. }
  assert (Hs : by_priority_desc fm) by (apply filter_sorted; exact Hsorted).
  destruct (first_match_spec fm value)
    as [[_ Hnone] | (l1 & m & l2 & Heq & Hl1 & Hm & Hres)]; unfold matches in *.
  - rewrite (Hnone m1) in Hm1; [discriminate | apply Hfm; split; assumption].
  - assert (Hmin : In m fm) by (rewrite Heq; apply in_or_app; right; left; reflexivity).
    apply Hfm in Hmin. destruct Hmin as [Hmin Hmf].
    exists m. repeat split; try assumption.
    intros m' Hin' Hf' Hm'.
    assert (Hin'' : In m' fm) by (apply Hfm; split; assumption).
    rewrite Heq in Hin''. apply in_app_or in Hin''.
    destruct Hin'' as [Hin'' | [<- | Hin'']].
    + rewrite (Hl1 m' Hin'') in Hm'. discriminate.
    + apply Qle_refl.
    + unfold by_priority_desc in Hs. rewrite Heq in Hs.
      apply sorted_app_r in Hs.
      inversion Hs as [| a l Hsl Hall]; subst.
      rewrite Forall_forall in Hall. apply Hall. exact Hin''.
Qed.

Lemma initialize_mappings_sorted (stored : list Template) (t : Template) :
  In t (initialize stored) -> by_priority_desc (hardcodedMappings t).
Proof.
  unfold initialize. rewrite in_map_iff. intros (t0 & <- & _).
  unfold load_template. simpl. apply sort_desc_sorted.
Qed.

End MappingFacts.

(** ** Objects used as maps *)

Lemma obj_get_set_same {V : Type} (o : list (string * V)) (k : string) (v : V) :
  JS.obj_get (JS.obj_set o k v) k = Some v.
Proof.
  induction o as [| [k' v'] o IH]; simpl.
  - rewrite String.eqb_refl. reflexivity.
  - destruct (String.eqb k' k) eqn:E; simpl.
    + rewrite String.eqb_refl. reflexivity.
    + rewrite E. exact IH.
Qed.

Lemma obj_get_set_other {V : Type} (o : list (string * V)) (k k' : string) (v : V) :
  k' <> k -> JS.obj_get (JS.obj_set o k v) k' = JS.obj_get o k'.
Proof.
  intro Hne. induction o as [| [k0 v0] o IH]; simpl.
  - destruct (String.eqb k k') eqn:E; [| reflexivity].
    apply String.eqb_eq in E. congruence.
  - destruct (String.eqb k0 k) eqn:E; simpl.
    + apply String.eqb_eq in E. subst k0.
      destruct (String.eqb k k') eqn:E'; [| reflexivity].
      apply String.eqb_eq in E'. congruence.
    + destruct (String.eqb k0 k'); [reflexivity | exact IH].
Qed.

Lemma obj_set_keeps {V : Type} (o : list (string * V)) (k k' : string) (v : V) :
  JS.obj_get o k' <> None -> JS.obj_get (JS.obj_set o k v) k' <> None.
Proof.
  intro H. destruct (String.eqb k' k) eqn:E.
  - apply String.eqb_eq in E. subst k'. rewrite obj_get_set_same. discriminate.
  - apply String.eqb_neq in E. rewrite obj_get_set_other; assumption.
Qed.

(** ** The loop of [processDocument] *)

Section EngineLoopFacts.
Import TemplateEngine.
Variable rt : Runtime.
Variable template : Template.
Variable text : string.
Variable data : StructuredData.

Let step := process_rule rt template text data.



Lemma step_shape (st : LoopState) (rule : ExtractionRule) :
  totalFields (step st rule) = S (totalFields st)
  /\ successfulExtractions st <= successfulExtractions (step st rule)
  /\ successfulExtractions (step st rule) <= S (successfulExtractions st)
  /\ (exists es, res_errors (step st rule) = (res_errors st ++ es)%list)
  /\ (exists ws, res_warnings (step st rule) = (res_warnings st ++ ws)%list)
  /\ (forall k, JS.obj_get (res_data st) k <> None ->
                JS.obj_get (res_data (step st rule)) k <> None).
Proof.
  unfold step, process_rule.
  destruct (extractField rt rule text data) as [[v |] | msg].
  - destruct (isValid _); simpl.
    + repeat split; try lia.
      * exists []. rewrite app_nil_r. reflexivity.
      * exists []. rewrite app_nil_r. reflexivity.
      * intros k. apply obj_set_keeps.
    + repeat split; try lia.
      * exists []. rewrite app_nil_r. reflexivity.
      * eexists. reflexivity.
      * intros k. apply obj_set_keeps.
  - destruct (is_required rule); simpl; repeat split; try lia;
      try (eexists; reflexivity); try (exists []; rewrite app_nil_r; reflexivity);
      intros k H; exact H.
  - simpl. repeat split; try lia;
      try (eexists; reflexivity); try (exists []; rewrite app_nil_r; reflexivity).
    intros k H; exact H.
Qed.

Lemma fold_shape (rules : list ExtractionRule) (st : LoopState) :
  let st' := fold_left step rules st in
  totalFields st' = totalFields st + length rules
  /\ successfulExtractions st' <= successfulExtractions st + length rules
  /\ (forall e, In e (res_errors st) -> In e (res_errors st'))
  /\ (forall w, In w (res_warnings st) -> In w (res_warnings st'))
  /\ (forall k, JS.obj_get (res_data st) k <> None ->
                JS.obj_get (res_data st') k <> None).
Proof.
  revert st. induction rules as [| r rules IH]; intro st; cbn [fold_left length].
  - cbv zeta. repeat split; try lia; auto.
  - specialize (IH (step st r)). cbv zeta in *.
    destruct IH as (Ht & Hs & He & Hw & Hd).
    destruct (step_shape st r) as (Ht1 & _ & Hs1 & (es & Hes) & (ws & Hws) & Hd1).
    repeat split.
    + lia.
    + lia.
    + intros e Hin. apply He. rewrite Hes. apply in_or_app. left. exact Hin.
    + intros w Hin. apply Hw. rewrite Hws. apply in_or_app. left. exact Hin.
    + intros k Hk. apply Hd, Hd1, Hk.
Qed.

Lemma run_rules_counters :
  let st := run_rules rt template text data in
  totalFields st = length (extractionRules template)
  /\ successfulExtractions st <= totalFields st.
Proof.
  cbv zeta. unfold run_rules. fold step.
  destruct (fold_shape (extractionRules template) loop0) as (Ht & Hs & _).
  cbv zeta in *. simpl in *. lia.
Qed.

(** The run seen from one of its rules: the rules before it, the rule,
    the rules after it. *)
Lemma run_rules_split (rule : ExtractionRule) :
  In rule (extractionRules template) ->
  exists before after,
    extractionRules template = (before ++ rule :: after)%list
    /\ run_rules rt template text data
       = fold_left step after (step (fold_left step before loop0) rule).
Proof.
  intro Hin. destruct (in_split _ _ Hin) as (l1 & l2 & Heq).
  exists l1, l2. split; [exact Heq |].
  unfold run_rules. fold step. rewrite Heq, fold_left_app. reflexivity.
Qed.

Lemma loop_confidence_bounds (st : LoopState) :
  successfulExtractions st <= totalFields st -> in_unit_interval (loop_confidence st).
Proof.
  intro Hle. unfold loop_confidence, in_unit_interval.
  destruct (0 <? totalFields st) eqn:E.
  - apply Nat.ltb_lt in E. apply Qdiv_unit_interval;
      [apply Qnat_nonneg | apply Qnat_le; exact Hle | apply Qnat_pos; exact E].
  - split; [apply Qle_refl | discriminate].
Qed.

Lemma processDocument_confidence_bounds :
  in_unit_interval
    (confidence (processDocument rt template text data)).
Proof.
  unfold processDocument. simpl. apply loop_confidence_bounds.
  apply run_rules_counters.
Qed.






End EngineLoopFacts.

(** ** Keyword extraction *)

Section KeywordFacts.
Import TemplateEngine.








Lemma match_after_colon_empty : match_after_colon "" = None.
Proof. reflexivity. Qed.

End KeywordFacts.

(** ** Template scoring and selection *)

Section SelectionFacts.
Import TemplateEngine.
Variable rt : Runtime.



Lemma first_max_scored (f : Template -> Q) (x : Template) (l : list Template) :
  first_max snd (x, f x) (map (fun t => (t, f t)) l)
  = (first_max f x l, f (first_max f x l)).
Proof.
  revert x. induction l as [| y l IH]; intro x; [reflexivity |].
  cbn [map first_max]. rewrite (IH y). cbn [snd].
  destruct (Qgtb (f (first_max f y l)) (f x)); reflexivity.
Qed.

(** None without a template, the template when it is alone, and with
    several the first of greatest score when that score is above 0.3,
    the first of the list otherwise. *)
Lemma selectTemplate_cases (templates : list Template) (customerId text : string) :
  selectTemplate rt templates customerId text
  = match templates_of templates customerId with
    | [] => None
    | [only] => Some only
    | first :: others =>
        let best := first_max (fun t => scoreTemplate rt t text)
                              first others in
        if Qgtb (scoreTemplate rt best text) (3 # 10)
        then Some best else Some first
    end.
Proof.
  unfold selectTemplate, templates_of.
  destruct (filter _ templates) as [| first [| second rest]]; [reflexivity .. |].
  pose proof (sort_desc_head snd
                (first, scoreTemplate rt first text)
                (map (fun t => (t, scoreTemplate rt t text)) (second :: rest)))
    as H.
  rewrite (first_max_scored (fun t => scoreTemplate rt t text)) in H.
  change (map (fun t => (t, scoreTemplate rt t text)) (first :: second :: rest))
    with ((first, scoreTemplate rt first text)
            :: map (fun t => (t, scoreTemplate rt t text)) (second :: rest)).
  destruct (sort_desc snd _) as [| [b s] tl]; [discriminate |].
  simpl in H. injection H as -> ->. reflexivity.
Qed.

End SelectionFacts.

(** ** Text extraction *)

Section ExtractorFacts.
Import PDFProcessor.
Variable Buffer : Type.
Variable pdfParse : Buffer -> result ParsedPdf.
Variable createWorker : result unit.
Variable recognize : Buffer -> result Recognition.

Lemma isTextMeaningful_ratio (text : string) :
  isTextMeaningful text = true
  <-> (1 # 2 < Qnat (length (filter is_alphabetic (long_words text)))
               / Qnat (length (long_words text)))%Q.
Proof.
  unfold isTextMeaningful.
  destruct (long_words text) as [| w ws] eqn:E.
  - simpl. split; [discriminate |]. unfold Qlt. simpl. lia.
  - rewrite <- E. destruct (length (long_words text)) eqn:El.
    + rewrite E in El. discriminate.
    + rewrite <- El. apply Qgtb_true.
Qed.

Lemma accepted_iff (text : string) :
  (100 <? String.length text) && isTextMeaningful text = true
  <-> direct_text_accepted text.
Proof.
  unfold direct_text_accepted.
  rewrite andb_true_iff, Nat.ltb_lt, isTextMeaningful_ratio. reflexivity.
Qed.

Lemma processPDF_direct (worker : bool) (buffer : Buffer) (d : ExtractedData) :
  extractTextDirectly Buffer pdfParse buffer = Ok d ->
  direct_text_accepted (text d) ->
  processPDF Buffer pdfParse createWorker recognize worker buffer
  = Ok (with_confidence d (95 # 100)).
Proof.
  intros Hd Hacc. unfold processPDF. rewrite Hd.
  apply accepted_iff in Hacc. rewrite Hacc. reflexivity.
Qed.

Lemma processPDF_fallback (worker : bool) (buffer : Buffer) (d : ExtractedData) :
  extractTextDirectly Buffer pdfParse buffer = Ok d ->
  ~ direct_text_accepted (text d) ->
  processPDF Buffer pdfParse createWorker recognize worker buffer
  = rethrow_processing (extractTextWithOCR Buffer createWorker recognize worker buffer).
Proof.
  intros Hd Hacc. unfold processPDF. rewrite Hd.
  destruct ((100 <? String.length (text d)) && isTextMeaningful (text d)) eqn:E.
  - exfalso. apply Hacc. apply accepted_iff. exact E.
  - reflexivity.
Qed.

Lemma extractTextWithOCR_ok (worker : bool) (buffer : Buffer) (o : ExtractedData) :
  extractTextWithOCR Buffer createWorker recognize worker buffer = Ok o ->
  exists data, recognize buffer = Ok data
               /\ o = ocr_result data
               /\ confidence o = (ocr_confidence data / 100)%Q.
Proof.
  unfold extractTextWithOCR.
  destruct (if worker then Ok tt else initialize createWorker); [| discriminate].
  destruct (recognize buffer) as [data | e]; [| discriminate].
  intro H. injection H as <-. exists data. repeat split.
Qed.

Lemma extractTextWithOCR_recognized (buffer : Buffer) (data : Recognition) :
  recognize buffer = Ok data ->
  extractTextWithOCR Buffer createWorker recognize true buffer = Ok (ocr_result data).
Proof.
  intro H. unfold extractTextWithOCR. rewrite H. reflexivity.
Qed.

Lemma processPDF_direct_throws (worker : bool) (buffer : Buffer) (e : string) :
  pdfParse buffer = Throw e ->
  processPDF Buffer pdfParse createWorker recognize worker buffer
  = Throw ("PDF processing failed: " ++ "Direct text extraction failed: " ++ e).
Proof.
  intro H. unfold processPDF, extractTextDirectly. rewrite H. reflexivity.
Qed.

End ExtractorFacts.

(** ** The orchestrator *)

Section OrchestratorFacts.
Import ProcessingOrchestrator.
Variable env : Collaborators.

(** The branch without a customer, when every storage call completes. *)
Lemma run_without_customer (request : ProcessingRequest) (w : World)
      (ed : PDFProcessor.ExtractedData) :
  storage_completes env ->
  createWorker env = Ok tt ->
  PDFProcessor.processPDF Buffer (pdfParse env) (createWorker env) (recognize env)
                          true (buffer request) = Ok ed ->
  10 <= String.length (PDFProcessor.text ed) ->
  CustomerDetector.customerId
    (CustomerDetector.detectCustomer (TemplateEngine.RegExp_matches (runtime env))
       (detector env) (PDFProcessor.text ed) (Some (fileName request))) = None ->
  exists resp s,
    run env request w = (Ok resp, s)
    /\ success resp = true
    /\ confidence resp = (3 # 10)%Q
    /\ csvFilePath resp = Some (csv_path env request)
    /\ In (csv_path env request, map (csv_record env) (basicData env ed request None))
          (csv_files (world s))
    /\ document_status (world s) = DocumentStatus.COMPLETED
    /\ job_status (world s) = Some JobStatus.COMPLETED
    /\ errors resp = []
    /\ warnings resp = ["Could not automatically detect customer"].
Proof.
  intros Hio Hworker Hpdf Hlen Hnone.
  unfold run, processDocument, pipeline, initialize, createBasicCSV, generateCSV,
    rethrow_csv, io, PDFProcessor.initialize.
  unfold bind, try_catch, lift, modify_response, modify_world, get_response, ret.
  rewrite Hpdf, Hworker, !Hio. cbn -[Nat.ltb CustomerDetector.detectCustomer].
  rewrite Hnone.
  destruct (Nat.ltb (String.length (PDFProcessor.text ed)) 10) eqn:E;
    [apply Nat.ltb_lt in E; lia |].
  cbn. eexists. eexists. split; [reflexivity |].
  cbn. repeat split.
  apply in_or_app. right. left. reflexivity.
Qed.

(** The same branch when writing the CSV records throws: the exception is
    caught at the top, the run fails and the document ends FAILED. *)
Lemma run_without_customer_write_fails (request : ProcessingRequest) (w : World)
      (ed : PDFProcessor.ExtractedData) (message : string) :
  (forall c, c <> io_write_records -> fault env c = None) ->
  fault env io_write_records = Some message ->
  createWorker env = Ok tt ->
  PDFProcessor.processPDF Buffer (pdfParse env) (createWorker env) (recognize env)
                          true (buffer request) = Ok ed ->
  10 <= String.length (PDFProcessor.text ed) ->
  CustomerDetector.customerId
    (CustomerDetector.detectCustomer (TemplateEngine.RegExp_matches (runtime env))
       (detector env) (PDFProcessor.text ed) (Some (fileName request))) = None ->
  exists resp s,
    run env request w = (Ok resp, s)
    /\ success resp = false
    /\ csvFilePath resp = None
    /\ errors resp = ["CSV generation failed: " ++ message]
    /\ csv_files (world s) = csv_files w
    /\ document_status (world s) = DocumentStatus.FAILED
    /\ job_status (world s) = Some JobStatus.FAILED.
Proof.
  intros Hio Hw Hworker Hpdf Hlen Hnone.
  unfold run, processDocument, pipeline, initialize, createBasicCSV, generateCSV,
    rethrow_csv, on_failure, io, PDFProcessor.initialize.
  unfold bind, try_catch, lift, modify_response, modify_world, get_response, ret, throw.
  rewrite Hpdf, Hworker, Hw.
  rewrite !Hio by discriminate.
  cbn -[Nat.ltb CustomerDetector.detectCustomer].
  rewrite Hnone.
  destruct (Nat.ltb (String.length (PDFProcessor.text ed)) 10) eqn:E;
    [apply Nat.ltb_lt in E; lia |].
  cbn. eexists. eexists. split; [reflexivity |].
  cbn. repeat split.
Qed.

End OrchestratorFacts.

(** ** Wildcard mappings *)

(** The test of the loop, spelled out: the lower-cased value holds the
    lower-cased pattern, or the pattern holds a star and the anchored
    translation matches. *)
Lemma mapping_matches_iff (rt : TemplateEngine.Runtime)
      (m : TemplateEngine.HardcodedMapping) (value : TemplateEngine.jsvalue) :
  let source := JS.toLowerCase (TemplateEngine.sourcePattern m) in
  let valueStr := JS.toLowerCase (TemplateEngine.String_of rt value) in
  TemplateEngine.mapping_matches rt m value = true
  <-> JS.includes valueStr source = true
      \/ (JS.includes source "*" = true
          /\ TemplateEngine.RegExp_test
               rt ("^" ++ TemplateEngine.glob_to_regex source ++ "$") true valueStr
             = Some true).
Proof.
  cbv zeta. unfold TemplateEngine.mapping_matches, TemplateEngine.matchWildcard.
  rewrite orb_true_iff, andb_true_iff.
  destruct (TemplateEngine.RegExp_test rt _ true _) as [[|] |];
    intuition congruence.
Qed.

(** A single mapping of the field rewrites the value exactly when the test
    succeeds. *)
Lemma single_mapping_applies (rt : TemplateEngine.Runtime)
      (m : TemplateEngine.HardcodedMapping) (value : TemplateEngine.jsvalue) :
  TemplateEngine.applyHardcodedMappings rt [m] (TemplateEngine.m_fieldName m) value
  = if TemplateEngine.mapping_matches rt m value
    then TemplateEngine.JString (TemplateEngine.targetValue m)
    else value.
Proof.
  unfold TemplateEngine.applyHardcodedMappings. simpl.
  rewrite String.eqb_refl. reflexivity.
Qed.

(** The wildcard scenario: with an engine on which [^frei.*$] matches
    "freight charge", the mapping from "frei*" rewrites that value. *)
Lemma wildcard_scenario (rt : TemplateEngine.Runtime) (ms : list string) (m0 : string) :
  TemplateEngine.RegExp_matches rt "^frei.*$" true "freight charge" = Some (m0 :: ms) ->
  TemplateEngine.applyHardcodedMappings
    rt [mapping "expense_type" "frei*" "SHIPPING_COST" 1] "expense_type"
    (TemplateEngine.JString "freight charge")
  = TemplateEngine.JString "SHIPPING_COST".
Proof.
  intro H. cbv in H |- *. rewrite H. reflexivity.
Qed.

(** ** Scenarios *)

(** Two text patterns of weight 2 (found) and 1 (not found): the exact
    match has confidence 2/3 and names the customer. *)
Example exact_match_two_thirds :
  let r := CustomerDetector.checkExactMatch
             "Invoice from ACME Corp" acme
             [text_pattern "ACME Corp" 2; text_pattern "AC-2024" 1] in
  (CustomerDetector.confidence r == 2 # 3)%Q
  /\ CustomerDetector.customerId r = Some "cust-1".
Proof. split; reflexivity. Qed.

(** With the reference matcher, the mapping from "frei*" rewrites
    "freight charge". *)
Example wildcard_scenario_reference :
  TemplateEngine.applyHardcodedMappings
    sample_runtime [mapping "expense_type" "frei*" "SHIPPING_COST" 1] "expense_type"
    (TemplateEngine.JString "freight charge")
  = TemplateEngine.JString "SHIPPING_COST".
Proof. apply (wildcard_scenario sample_runtime [] "freight charge"). reflexivity. Qed.

(** The three directions of a keyword rule on a short text. *)
Example keyword_directions :
  let text := "Bill To:" ++ LF ++ "" ++ LF ++ "Acme Corporation" ++ LF ++ "Total: 12" in
  let rule d r :=
    {| TemplateEngine.fieldName := "f";
       TemplateEngine.extractionType := TemplateEngine.et_keyword;
       TemplateEngine.r_pattern := None;
       TemplateEngine.r_position := None;
       TemplateEngine.tableConfig := None;
       TemplateEngine.keywordConfig :=
         Some {| TemplateEngine.keywords := ["total:"; "bill to:"];
                 TemplateEngine.searchRadius := r;
                 TemplateEngine.direction := d |};
       TemplateEngine.calculationConfig := None;
       TemplateEngine.validation := None |} in
  TemplateEngine.extractWithKeyword (rule TemplateEngine.same_line 1) text = Some "12"
  /\ TemplateEngine.extractWithKeyword (rule TemplateEngine.before 1) text
     = Some "Acme Corporation"
  /\ TemplateEngine.extractWithKeyword (rule TemplateEngine.after 1) text = None
  /\ TemplateEngine.extractWithKeyword (rule TemplateEngine.after 2) text
     = Some "Acme Corporation".
Proof. repeat split; reflexivity. Qed.

(** A text without a word of three characters is not meaningful: the
    quotient has no value. *)
Example no_long_word_not_meaningful :
  PDFProcessor.isTextMeaningful "12 34 56 78 90 ab cd" = false.
Proof. reflexivity. Qed.

(** * The claims *)

(** C1.  Basic-CSV fallback.  Whenever customer detection returns no
    customer (which supposes that the recognition worker was created and
    that extraction gave a text of ten characters or more) and the calls
    into the storage layer complete, [processDocument] writes a CSV file,
    leaves the document COMPLETED and returns a response with
    [success = true] and [confidence = 0.3]; the job ends COMPLETED too. *)
Theorem C1_basic_csv_fallback
        (env : ProcessingOrchestrator.Collaborators)
        (request : ProcessingOrchestrator.ProcessingRequest)
        (w : ProcessingOrchestrator.World)
        (ed : PDFProcessor.ExtractedData) :
  storage_completes env ->
  ProcessingOrchestrator.createWorker env = Ok tt ->
  PDFProcessor.processPDF ProcessingOrchestrator.Buffer
    (ProcessingOrchestrator.pdfParse env) (ProcessingOrchestrator.createWorker env)
    (ProcessingOrchestrator.recognize env) true
    (ProcessingOrchestrator.buffer request) = Ok ed ->
  10 <= String.length (PDFProcessor.text ed) ->
  CustomerDetector.customerId
    (CustomerDetector.detectCustomer
       (TemplateEngine.RegExp_matches (ProcessingOrchestrator.runtime env))
       (ProcessingOrchestrator.detector env) (PDFProcessor.text ed)
       (Some (ProcessingOrchestrator.fileName request))) = None ->
  exists resp s path records,
    ProcessingOrchestrator.run env request w = (Ok resp, s)
    /\ ProcessingOrchestrator.success resp = true
    /\ ProcessingOrchestrator.confidence resp = (3 # 10)%Q
    /\ ProcessingOrchestrator.csvFilePath resp = Some path
    /\ In (path, records) (ProcessingOrchestrator.csv_files (ProcessingOrchestrator.world s))
    /\ ProcessingOrchestrator.document_status (ProcessingOrchestrator.world s)
       = DocumentStatus.COMPLETED
    /\ ProcessingOrchestrator.job_status (ProcessingOrchestrator.world s)
       = Some JobStatus.COMPLETED.
Proof.
  intros Hio Hworker Hpdf Hlen Hnone.
  destruct (run_without_customer env request w ed Hio Hworker Hpdf Hlen Hnone)
    as (resp & s & Hrun & Hs & Hc & Hp & Hfile & Hdoc & Hjob & _).
  exists resp, s, (ProcessingOrchestrator.csv_path env request),
    (map (ProcessingOrchestrator.csv_record env)
         (ProcessingOrchestrator.basicData env ed request None)).
  repeat split; assumption.
Qed.

Lemma C1_basic_csv_fallback_witness :
  exists resp s path records,
    ProcessingOrchestrator.run sample_env sample_request uploaded_world = (Ok resp, s)
    /\ ProcessingOrchestrator.success resp = true
    /\ ProcessingOrchestrator.confidence resp = (3 # 10)%Q
    /\ ProcessingOrchestrator.csvFilePath resp = Some path
    /\ In (path, records) (ProcessingOrchestrator.csv_files (ProcessingOrchestrator.world s))
    /\ ProcessingOrchestrator.document_status (ProcessingOrchestrator.world s)
       = DocumentStatus.COMPLETED
    /\ ProcessingOrchestrator.job_status (ProcessingOrchestrator.world s)
       = Some JobStatus.COMPLETED.
Proof.
  apply (C1_basic_csv_fallback sample_env sample_request uploaded_world
           (PDFProcessor.with_confidence sample_direct (95 # 100))).
  - intro c. reflexivity.
  - reflexivity.
  - vm_compute. reflexivity.
  - vm_compute. lia.
  - reflexivity.
Defined.



(** C3.  Hardcoded mapping precedence.  Take a template as [initialize]
    loads it, a field, an extracted value and two mappings [m1], [m2] of
    the template for that field that both match the value, [m1] with the
    higher priority.  Then [applyHardcodedMappings] returns the target of
    a matching mapping of the field whose priority is at least that of
    [m1] and which no matching mapping of the field exceeds; so [m2] never
    wins over [m1], and when [m1] is above every other matching mapping of
    the field the result is the target of [m1]. *)
Theorem C3_higher_priority_mapping_wins
        (rt : TemplateEngine.Runtime) (stored : list TemplateEngine.Template)
        (t : TemplateEngine.Template) (field : string) (value : TemplateEngine.jsvalue)
        (m1 m2 : TemplateEngine.HardcodedMapping) :
  In t (TemplateEngine.initialize stored) ->
  In m1 (TemplateEngine.hardcodedMappings t) ->
  In m2 (TemplateEngine.hardcodedMappings t) ->
  TemplateEngine.m_fieldName m1 = field ->
  TemplateEngine.m_fieldName m2 = field ->
  TemplateEngine.mapping_matches rt m1 value = true ->
  TemplateEngine.mapping_matches rt m2 value = true ->
  (TemplateEngine.priority m2 < TemplateEngine.priority m1)%Q ->
  let result :=
    TemplateEngine.applyHardcodedMappings rt (TemplateEngine.hardcodedMappings t)
                                          field value in
  (exists m,
      In m (TemplateEngine.hardcodedMappings t)
      /\ TemplateEngine.m_fieldName m = field
      /\ TemplateEngine.mapping_matches rt m value = true
      /\ result = TemplateEngine.JString (TemplateEngine.targetValue m)
      /\ (TemplateEngine.priority m1 <= TemplateEngine.priority m)%Q
      /\ (TemplateEngine.priority m2 < TemplateEngine.priority m)%Q
      /\ forall m', In m' (TemplateEngine.hardcodedMappings t) ->
                    TemplateEngine.m_fieldName m' = field ->
                    TemplateEngine.mapping_matches rt m' value = true ->
                    (TemplateEngine.priority m' <= TemplateEngine.priority m)%Q)
  /\ ((forall m', In m' (TemplateEngine.hardcodedMappings t) ->
                  TemplateEngine.m_fieldName m' = field ->
                  TemplateEngine.mapping_matches rt m' value = true ->
                  m' = m1 \/ (TemplateEngine.priority m' < TemplateEngine.priority m1)%Q) ->
      result = TemplateEngine.JString (TemplateEngine.targetValue m1)).
Proof.
  intros Ht Hin1 Hin2 Hf1 Hf2 Hm1 Hm2 Hlt. cbv zeta.
  pose proof (initialize_mappings_sorted stored t Ht) as Hsorted.
  destruct (apply_top_priority rt (TemplateEngine.hardcodedMappings t) field value m1
                               Hsorted Hin1 Hf1 Hm1)
    as (m & Hin & Hf & Hm & Hres & Hmax).
  assert (H1 : (TemplateEngine.priority m1 <= TemplateEngine.priority m)%Q)
    by (apply Hmax; assumption).
  split.
  - exists m. repeat split; try assumption.
    apply Qlt_le_trans with (TemplateEngine.priority m1); assumption.
  - intro Honly. destruct (Honly m Hin Hf Hm) as [-> | Hbelow]; [exact Hres |].
    exfalso. exact (Qlt_not_le _ _ Hbelow H1).
Qed.

(** The sample template stores the freight mapping (priority 2) before
    the tax mapping (priority 3); on a value that holds both words the tax
    mapping wins. *)
Lemma C3_higher_priority_mapping_wins_witness :
  TemplateEngine.applyHardcodedMappings
    sample_runtime
    (TemplateEngine.hardcodedMappings (TemplateEngine.load_template sample_template))
    "expense_type" (TemplateEngine.JString "Freight and tax")
  = TemplateEngine.JString "TAX_AMOUNT".
Proof.
  refine (proj2 (C3_higher_priority_mapping_wins
                   sample_runtime [sample_template]
                   (TemplateEngine.load_template sample_template)
                   "expense_type" (TemplateEngine.JString "Freight and tax")
                   (mapping "expense_type" "tax" "TAX_AMOUNT" 3)
                   (mapping "expense_type" "freight" "SHIPPING_COST" 2)
                   _ _ _ _ _ _ _ _) _).
  - simpl. left. reflexivity.
  - simpl. left. reflexivity.
  - simpl. right. left. reflexivity.
  - reflexivity.
  - reflexivity.
  - reflexivity.
  - reflexivity.
  - reflexivity.
  - simpl. intros m' [<- | [<- | []]] _ _.
    + left. reflexivity.
    + right. reflexivity.
Defined.



(** C5.  When every configured pattern weight is non-negative, the
    confidence of the result of [detectCustomer] lies in [0, 1]; the
    confidence of the result of [processDocument] of the template engine
    always does. *)
Theorem C5_confidence_in_unit_interval
        (d : CustomerDetector.Detector) (text : string) (fileName : option string)
        (rt : TemplateEngine.Runtime) (template : TemplateEngine.Template)
        (docText : string) (data : TemplateEngine.StructuredData) :
  weights_nonneg d ->
  in_unit_interval
    (CustomerDetector.confidence
       (CustomerDetector.detectCustomer (TemplateEngine.RegExp_matches rt)
                                        d text fileName))
  /\ in_unit_interval
       (TemplateEngine.confidence
          (TemplateEngine.processDocument rt template docText data)).
Proof.
  intro Hw. split.
  - apply detectCustomer_bounds. exact Hw.
  - apply processDocument_confidence_bounds.
Qed.

Lemma C5_confidence_in_unit_interval_witness :
  in_unit_interval
    (CustomerDetector.confidence
       (CustomerDetector.detectCustomer
          (TemplateEngine.RegExp_matches sample_runtime)
          sample_detector "Invoice from ACME Corp" (Some "acme_jan.pdf")))
  /\ in_unit_interval
       (TemplateEngine.confidence
          (TemplateEngine.processDocument sample_runtime sample_template
                                          invoice_text no_data)).
Proof.
  apply (C5_confidence_in_unit_interval
           sample_detector "Invoice from ACME Corp" (Some "acme_jan.pdf")
           sample_runtime sample_template invoice_text no_data).
  intros k ps p Hin Hp. simpl in Hin. destruct Hin as [Heq | []].
  injection Heq as _ <-. simpl in Hp.
  destruct Hp as [<- | [<- | []]]; unfold Qle; simpl; lia.
Defined.




(** C7.  The code at a pattern that has a question mark and no star: the
    translation of "fr?ight" is [fr.ight], which matches "freight" once
    anchored, yet [applyHardcodedMappings] leaves "freight" as it is,
    whatever the regular expression engine, because the wildcard test is
    only reached for a pattern that holds a star. *)
Theorem C7_question_mark_pattern_not_applied (rt : TemplateEngine.Runtime) :
  TemplateEngine.glob_to_regex "fr?ight" = "fr.ight"
  /\ fragment_engine "^fr.ight$" true "freight" = Some ["freight"]
  /\ TemplateEngine.matchWildcard sample_runtime "freight" "fr?ight" = true
  /\ TemplateEngine.mapping_matches rt question_mark_mapping
                                    (TemplateEngine.JString "freight") = false
  /\ TemplateEngine.applyHardcodedMappings
       rt [question_mark_mapping] "expense_type" (TemplateEngine.JString "freight")
     = TemplateEngine.JString "freight".
Proof.
  repeat split.
Qed.


(** C9, as the claim words it, fails: when the parser rejects the
    document, [processPDF] throws and returns neither result, although
    recognition would have read the document. *)
Lemma C9_parse_failure_counterexample :
  PDFProcessor.processPDF string rejecting_parser (Ok tt) reading_recognizer
                          true "%PDF-1.4"
  = Throw "PDF processing failed: Direct text extraction failed: Invalid PDF structure"
  /\ PDFProcessor.extractTextWithOCR string (Ok tt) reading_recognizer true "%PDF-1.4"
     = Ok (PDFProcessor.ocr_result sample_recognition)
  /\ ~ (forall (pdfParse : string -> result PDFProcessor.ParsedPdf)
               (recognize : string -> result PDFProcessor.Recognition)
               (buffer : string),
           exists r, PDFProcessor.processPDF string pdfParse (Ok tt) recognize true buffer
                     = Ok r).
Proof.
  split; [reflexivity |]. split; [reflexivity |].
  intro H. destruct (H rejecting_parser reading_recognizer "%PDF-1.4") as [r Hr].
  discriminate Hr.
Qed.

(** C9, amended.  When direct extraction completes, [processPDF] returns
    its result with the confidence set to 0.95 if the text is longer than
    100 characters and more than half of its words of more than two
    characters are purely alphabetic; otherwise it drops that result and
    hands over to recognition, whose result, when it completes, carries
    the confidence reported by the engine divided by 100.  When direct
    extraction throws, or recognition is needed and throws, [processPDF]
    throws. *)
Theorem C9_direct_extraction_or_ocr
        (Buffer : Type) (pdfParse : Buffer -> result PDFProcessor.ParsedPdf)
        (createWorker : result unit)
        (recognize : Buffer -> result PDFProcessor.Recognition)
        (worker : bool) (buffer : Buffer) :
  let run := PDFProcessor.processPDF Buffer pdfParse createWorker recognize worker buffer in
  let ocr := PDFProcessor.extractTextWithOCR Buffer createWorker recognize worker buffer in
  match PDFProcessor.extractTextDirectly Buffer pdfParse buffer with
  | Throw e => run = Throw ("PDF processing failed: " ++ e)
  | Ok d =>
      (direct_text_accepted (PDFProcessor.text d) ->
       run = Ok (PDFProcessor.with_confidence d (95 # 100)))
      /\ (~ direct_text_accepted (PDFProcessor.text d) ->
          run = PDFProcessor.rethrow_processing ocr
          /\ (forall o, ocr = Ok o ->
                run = Ok o
                /\ exists data,
                    recognize buffer = Ok data
                    /\ o = PDFProcessor.ocr_result data
                    /\ PDFProcessor.confidence o
                       = (PDFProcessor.ocr_confidence data / 100)%Q)
          /\ (forall e, ocr = Throw e -> run = Throw ("PDF processing failed: " ++ e)))
  end.
Proof.
  cbv zeta.
  destruct (PDFProcessor.extractTextDirectly Buffer pdfParse buffer) as [d | e] eqn:Hd.
  - split.
    + intro Hacc. apply processPDF_direct; assumption.
    + intro Hrej.
      pose proof (processPDF_fallback Buffer pdfParse createWorker recognize
                                      worker buffer d Hd Hrej) as Hrun.
      split; [exact Hrun |]. split.
      * intros o Ho. rewrite Hrun, Ho. split; [reflexivity |].
        apply (extractTextWithOCR_ok Buffer createWorker recognize worker buffer o Ho).
      * intros e He. rewrite Hrun, He. reflexivity.
  - unfold PDFProcessor.processPDF. rewrite Hd. reflexivity.
Qed.

(** The sample letter is long and made of words, and is kept; a short
    note goes to recognition. *)
Lemma C9_direct_extraction_or_ocr_witness :
  PDFProcessor.processPDF string (fun _ => Ok (sample_parsed sample_letter))
                          (Ok tt) reading_recognizer true "%PDF-1.4"
  = Ok (PDFProcessor.with_confidence sample_direct (95 # 100))
  /\ PDFProcessor.processPDF string (fun _ => Ok (sample_parsed "INV 1001"))
                             (Ok tt) reading_recognizer true "%PDF-1.4"
     = Ok (PDFProcessor.ocr_result sample_recognition).
Proof.
  split.
  - pose proof (C9_direct_extraction_or_ocr
                  string (fun _ => Ok (sample_parsed sample_letter)) (Ok tt)
                  reading_recognizer true "%PDF-1.4") as H.
    cbv zeta in H.
    change (PDFProcessor.extractTextDirectly
              string (fun _ => Ok (sample_parsed sample_letter)) "%PDF-1.4")
      with (@Ok PDFProcessor.ExtractedData sample_direct) in H.
    destruct H as [Hdirect _]. apply Hdirect.
    split; [vm_compute; lia | vm_compute; reflexivity].
  - pose proof (C9_direct_extraction_or_ocr
                  string (fun _ => Ok (sample_parsed "INV 1001")) (Ok tt)
                  reading_recognizer true "%PDF-1.4") as H.
    cbv zeta in H. simpl PDFProcessor.extractTextDirectly in H.
    destruct H as [_ Hocr].
    assert (Hrej : ~ direct_text_accepted "INV 1001").
    { intros [Hlen _]. vm_compute in Hlen. lia. }
    destruct (Hocr Hrej) as (_ & Hok & _).
    apply (Hok (PDFProcessor.ocr_result sample_recognition)). reflexivity.
Defined.

(** C10.  A result without a customer need not have confidence zero.  For
    a customer known by name only whose name is half found in the text,
    [detectCustomer] returns the fuzzy candidate, with no customer and a
    positive confidence.  In general every attempt of positive confidence
    joins the pool, above its threshold or not, and the result is the
    first pooled candidate of greatest confidence, returned as it is. *)
Theorem C10_null_customer_with_positive_confidence :
  (exists E d text fileName,
      CustomerDetector.customerId (CustomerDetector.detectCustomer E d text fileName)
      = None
      /\ (0 < CustomerDetector.confidence
                (CustomerDetector.detectCustomer E d text fileName))%Q)
  /\ (forall E d text fileName c r,
         In c (CustomerDetector.customers d) ->
         In r (CustomerDetector.attempts E d text fileName c) ->
         (0 < CustomerDetector.confidence r)%Q ->
         In r (CustomerDetector.pool E d text fileName))
  /\ (forall E d text fileName,
         CustomerDetector.detectCustomer E d text fileName
         = match CustomerDetector.pool E d text fileName with
           | [] => CustomerDetector.no_match
           | r :: rs => first_max CustomerDetector.confidence r rs
           end)
  /\ (forall E d text fileName r,
         In r (CustomerDetector.pool E d text fileName) ->
         In (CustomerDetector.detectCustomer E d text fileName)
            (CustomerDetector.pool E d text fileName)
         /\ (CustomerDetector.confidence r
             <= CustomerDetector.confidence
                  (CustomerDetector.detectCustomer E d text fileName))%Q).
Proof.
  split; [| split; [| split]].
  - exists fragment_engine, name_only_detector, "invoice from acme ltd", None.
    split; [reflexivity |]. vm_compute. reflexivity.
  - intros E d text fileName c r Hc Hr Hpos. apply pool_In. exists c. repeat split; assumption.
  - intros. apply detectCustomer_best.
  - intros E d text fileName r Hr. rewrite detectCustomer_best.
    destruct (CustomerDetector.pool E d text fileName) as [| r0 rs]; [destruct Hr |].
    split; [apply first_max_In | apply first_max_greatest; exact Hr].
Qed.

Lemma C10_null_customer_with_positive_confidence_witness :
  In (CustomerDetector.checkFuzzyMatch "invoice from acme ltd" acme)
     (CustomerDetector.pool fragment_engine name_only_detector
                            "invoice from acme ltd" None).
Proof.
  apply (proj1 (proj2 C10_null_customer_with_positive_confidence)
               fragment_engine name_only_detector "invoice from acme ltd" None acme).
  - simpl. left. reflexivity.
  - simpl. right. right. left. reflexivity.
  - vm_compute. reflexivity.
Defined.

(** * Further properties

    ** Customer detection *)

Section DetectionProperties.
Import CustomerDetector.
Variable E : string -> bool -> string -> option (list string).

(** Every attempt is a verdict on its customer, against a threshold of
    one half at least. *)
Lemma attempt_is_verdict (d : Detector) (text : string) (fileName : option string)
      (c : Customer) (r : CustomerDetectionResult) :
  In r (attempts E d text fileName c) ->
  exists threshold conf ms m,
    r = verdict threshold c conf ms m /\ (1 # 2 <= threshold)%Q.
Proof.
  unfold attempts. intro H. apply in_app_or in H. destruct H as [H | H].
  - destruct H as [<- | [<- | [<- | []]]].
    + unfold checkExactMatch. do 4 eexists. split; [reflexivity | apply Qle_refl].
    + unfold checkPatternMatch. do 4 eexists.
      split; [reflexivity | unfold Qle; simpl; lia].
    + unfold checkFuzzyMatch.
      destruct (fold_left (fuzzy_step text) _ (0, [])) as [n l].
      do 4 eexists. split; [reflexivity | apply Qle_refl].
  - destruct fileName as [f |]; [| destruct H].
    destruct (String.eqb f ""); [destruct H |]. destruct H as [<- | []].
    unfold checkFilenameMatch. do 4 eexists. split; [reflexivity | apply Qle_refl].
Qed.

(** No threshold is above 0.6. *)
Lemma attempts_threshold (d : Detector) (text : string) (fileName : option string)
      (c : Customer) (r : CustomerDetectionResult) :
  In r (attempts E d text fileName c) ->
  exists threshold conf ms m,
    r = verdict threshold c conf ms m /\ (threshold <= 6 # 10)%Q.
Proof.
  unfold attempts. intro H. apply in_app_or in H. destruct H as [H | H].
  - destruct H as [<- | [<- | [<- | []]]].
    + unfold checkExactMatch. do 4 eexists.
      split; [reflexivity | unfold Qle; simpl; lia].
    + unfold checkPatternMatch. do 4 eexists. split; [reflexivity | apply Qle_refl].
    + unfold checkFuzzyMatch.
      destruct (fold_left (fuzzy_step text) _ (0, [])) as [n l].
      do 4 eexists. split; [reflexivity | unfold Qle; simpl; lia].
  - destruct fileName as [f |]; [| destruct H].
    destruct (String.eqb f ""); [destruct H |]. destruct H as [<- | []].
    unfold checkFilenameMatch. do 4 eexists.
    split; [reflexivity | unfold Qle; simpl; lia].
Qed.

(** The first element of greatest key splits the list: strictly smaller
    keys before it, no greater key after it. *)
Lemma first_max_split {A : Type} (key : A -> Q) (x : A) (l : list A) :
  exists before after,
    x :: l = (before ++ first_max key x l :: after)%list
    /\ (forall y, In y before -> (key y < key (first_max key x l))%Q)
    /\ (forall y, In y after -> (key y <= key (first_max key x l))%Q).
Proof.
  revert x. induction l as [| y l IH]; intro x.
  - exists [], []. simpl. repeat split; intros ? [].
  - destruct (IH y) as (bef & aft & Heq & Hbef & Haft).
    change (first_max key x (y :: l))
      with (let b := first_max key y l in if Qgtb (key b) (key x) then b else x).
    cbv zeta. destruct (Qgtb (key (first_max key y l)) (key x)) eqn:Hcmp.
    + apply Qgtb_true in Hcmp. exists (x :: bef), aft. repeat split.
      * rewrite Heq. reflexivity.
      * intros z [<- | Hz]; [exact Hcmp | apply Hbef; exact Hz].
      * exact Haft.
    + apply Qgtb_false in Hcmp. exists [], (y :: l). repeat split.
      * intros ? [].
      * intros z Hz.
        apply Qle_trans with (key (first_max key y l)); [| exact Hcmp].
        apply first_max_greatest. exact Hz.
Qed.

(** X1.  A result that names a customer has a confidence above one half, and
    the customer is one the detector holds, reported with its own name. *)
Theorem detected_customer_is_known (d : Detector) (text : string)
        (fileName : option string) (cid : string) :
  customerId (detectCustomer E d text fileName) = Some cid ->
  (1 # 2 < confidence (detectCustomer E d text fileName))%Q
  /\ exists c, In c (customers d) /\ id c = cid
               /\ customerName (detectCustomer E d text fileName) = Some (name c).
Proof.
  rewrite detectCustomer_best.
  destruct (pool E d text fileName) as [| r rs] eqn:Hpool; [discriminate |].
  pose proof (first_max_In confidence r rs) as Hin. rewrite <- Hpool in Hin.
  apply pool_In in Hin. destruct Hin as (c & Hc & Ha & _).
  destruct (attempt_is_verdict d text fileName c _ Ha) as (th & conf & ms & m & -> & Hth).
  unfold verdict. simpl. destruct (Qgtb conf th) eqn:Hcmp; [| discriminate].
  intro H. injection H as <-. apply Qgtb_true in Hcmp. split.
  - apply Qle_lt_trans with th; assumption.
  - exists c. repeat split. exact Hc.
Qed.

(** X2.  Ties go to the candidate met first: in the pool, every candidate
    ahead of the result has a strictly smaller confidence and no candidate
    behind it a greater one. *)
Theorem detection_tie_break (d : Detector) (text : string) (fileName : option string) :
  pool E d text fileName <> [] ->
  exists before after,
    pool E d text fileName
    = (before ++ detectCustomer E d text fileName :: after)%list
    /\ (forall r, In r before ->
                  (confidence r < confidence (detectCustomer E d text fileName))%Q)
    /\ (forall r, In r after ->
                  (confidence r <= confidence (detectCustomer E d text fileName))%Q).
Proof.
  intro Hne. rewrite detectCustomer_best.
  destruct (pool E d text fileName) as [| r rs]; [congruence |].
  apply first_max_split.
Qed.

(** *** A positive confidence comes with a matched pattern *)

Lemma tally_fold_empty (hit : DetectionPattern -> bool) (ps : list DetectionPattern)
      (t : Tally) :
  (t_matched t = [] -> t_weight t = 0%Q) ->
  t_matched (fold_left (fun t p => tally_step (hit p) p t) ps t) = [] ->
  t_weight (fold_left (fun t p => tally_step (hit p) p t) ps t) = 0%Q.
Proof.
  revert t. induction ps as [| p ps IH]; intros t Ht; simpl; [exact Ht |].
  apply IH. unfold tally_step. destruct (hit p); simpl.
  - intro H. destruct (t_matched t); discriminate H.
  - exact Ht.
Qed.

Lemma ratio_zero (t : Tally) : t_weight t = 0%Q -> (ratio t == 0)%Q.
Proof.
  intro H. unfold ratio. rewrite H. destruct (Qgtb (t_total t) 0); [| reflexivity].
  unfold Qdiv. apply Qmult_0_l.
Qed.

Lemma Qnat_plus_one (n : nat) : (Qnat (n + length [EmptyString]) == Qnat n + 1)%Q.
Proof.
  unfold Qnat. simpl length. rewrite Nat2Z.inj_add, inject_Z_plus. reflexivity.
Qed.

Lemma filename_fold_words (f : string) (ws : list string) (acc : Q * list string) :
  (fst acc <= (4 # 10) * Qnat (length (snd acc)))%Q ->
  (fst (fold_left (filename_word_step f) ws acc)
   <= (4 # 10) * Qnat (length (snd (fold_left (filename_word_step f) ws acc))))%Q.
Proof.
  revert acc. induction ws as [| w ws IH]; intros acc H; simpl; [exact H |].
  apply IH. unfold filename_word_step.
  destruct ((2 <? String.length w) && JS.includes f w); simpl; [| exact H].
  rewrite length_app, Qnat_plus_one. lra.
Qed.

Lemma filename_fold_patterns (f : string) (ps : list DetectionPattern)
      (acc : Q * list string) :
  (fst acc <= (4 # 10) * Qnat (length (snd acc)))%Q ->
  (fst (fold_left (filename_pattern_step f) ps acc)
   <= (4 # 10) * Qnat (length (snd (fold_left (filename_pattern_step f) ps acc))))%Q.
Proof.
  revert acc. induction ps as [| p ps IH]; intros acc H; simpl; [exact H |].
  apply IH. unfold filename_pattern_step.
  destruct (JS.includes f (JS.toLowerCase (pattern p))); simpl; [| exact H].
  rewrite length_app, Qnat_plus_one. lra.
Qed.

Lemma Math_min_le_l (a b : Q) : (Math_min a b <= a)%Q.
Proof.
  unfold Math_min. destruct (Qgtb a b) eqn:Hcmp.
  - apply Qgtb_true in Hcmp. apply Qlt_le_weak. exact Hcmp.
  - apply Qle_refl.
Qed.

(** The confidence of a filename match is at most 0.4 for each entry of
    its matched patterns. *)
Lemma checkFilenameMatch_per_hit (f : string) (c : Customer) (ps : list DetectionPattern) :
  (confidence (checkFilenameMatch f c ps)
   <= (4 # 10) * Qnat (length (matchedPatterns (checkFilenameMatch f c ps))))%Q.
Proof.
  unfold checkFilenameMatch. simpl.
  apply Qle_trans with
    (fst (fold_left (filename_pattern_step (JS.toLowerCase f)) ps
            (fold_left (filename_word_step (JS.toLowerCase f))
                       (JS.split_ws (JS.toLowerCase (name c))) (0%Q, []))));
    [apply Math_min_le_l |].
  apply filename_fold_patterns, filename_fold_words. simpl. unfold Qle. simpl. lia.
Qed.

Lemma attempt_positive_has_match (d : Detector) (text : string)
      (fileName : option string) (c : Customer) (r : CustomerDetectionResult) :
  In r (attempts E d text fileName c) -> (0 < confidence r)%Q ->
  matchedPatterns r <> [].
Proof.
  unfold attempts. intros H Hpos Hnil. apply in_app_or in H. destruct H as [H | H].
  - destruct H as [<- | [<- | [<- | []]]].
    + unfold checkExactMatch in *. simpl in *.
      apply (tally_fold_empty (exact_hit text)) in Hnil; [| reflexivity].
      apply ratio_zero in Hnil. rewrite Hnil in Hpos. exact (Qlt_irrefl _ Hpos).
    + unfold checkPatternMatch in *. simpl in *.
      apply (tally_fold_empty (header_footer_hit _ _)) in Hnil.
      * apply ratio_zero in Hnil. rewrite Hnil in Hpos. exact (Qlt_irrefl _ Hpos).
      * apply (tally_fold_empty (regex_hit E text)). reflexivity.
    + destruct (checkFuzzyMatch_confidence text c) as [Hc Hm].
      cbv zeta in Hc, Hm. rewrite Hc in Hpos. rewrite Hm in Hnil. rewrite Hnil in Hpos.
      simpl in Hpos. unfold Qdiv in Hpos. rewrite Qmult_0_l, Qmult_0_l in Hpos.
      exact (Qlt_irrefl _ Hpos).
  - destruct fileName as [f |]; [| destruct H].
    destruct (String.eqb f ""); [destruct H |]. destruct H as [<- | []].
    pose proof (checkFilenameMatch_per_hit f c (patterns_get (patterns d) (id c))) as Hle.
    rewrite Hnil in Hle. change (Qnat (length [])) with 0%Q in Hle. lra.
Qed.

(** X3.  The result is the default, with confidence zero and no customer, or it
    has a positive confidence and lists at least one matched pattern. *)
Theorem detection_default_or_matched (d : Detector) (text : string)
        (fileName : option string) :
  detectCustomer E d text fileName = no_match
  \/ ((0 < confidence (detectCustomer E d text fileName))%Q
      /\ matchedPatterns (detectCustomer E d text fileName) <> []).
Proof.
  rewrite detectCustomer_best.
  destruct (pool E d text fileName) as [| r rs] eqn:Hpool; [left; reflexivity |].
  right. pose proof (first_max_In confidence r rs) as Hin. rewrite <- Hpool in Hin.
  apply pool_In in Hin. destruct Hin as (c & _ & Ha & Hpos).
  split; [exact Hpos |].
  exact (attempt_positive_has_match d text fileName c _ Ha Hpos).
Qed.

(** X4.  A filename alone names a customer only on two hits or more, and its
    confidence never exceeds 0.9. *)
Theorem filename_match_needs_two_hits (f : string) (c : Customer)
        (ps : list DetectionPattern) :
  customerId (checkFilenameMatch f c ps) <> None ->
  2 <= length (matchedPatterns (checkFilenameMatch f c ps))
  /\ (confidence (checkFilenameMatch f c ps) <= 9 # 10)%Q.
Proof.
  intro Hsome. split; [| apply checkFilenameMatch_bounds].
  pose proof (checkFilenameMatch_per_hit f c ps) as Hle.
  assert (Hgt : (1 # 2 < confidence (checkFilenameMatch f c ps))%Q).
  { unfold checkFilenameMatch in *. simpl in *.
    destruct (Qgtb _ (1 # 2)) eqn:Hcmp; [apply Qgtb_true in Hcmp; exact Hcmp |].
    congruence. }
  destruct (length (matchedPatterns (checkFilenameMatch f c ps))) as [| [| n]]; [| | lia].
  - exfalso. change (Qnat 0) with 0%Q in Hle. lra.
  - exfalso. change (Qnat 1) with 1%Q in Hle. lra.
Qed.

(** *** The weighted ratio *)

Lemma Qgtb_comp (a a' b b' : Q) : (a == a')%Q -> (b == b')%Q -> Qgtb a b = Qgtb a' b'.
Proof.
  intros Ha Hb. destruct (Qgtb a' b') eqn:Hcmp.
  - apply Qgtb_true. apply Qgtb_true in Hcmp. rewrite Ha, Hb. exact Hcmp.
  - apply Qgtb_false. apply Qgtb_false in Hcmp. rewrite Ha, Hb. exact Hcmp.
Qed.

Lemma tally_fold_closed (hit : DetectionPattern -> bool) (ps : list DetectionPattern)
      (t : Tally) :
  let t' := fold_left (fun t p => tally_step (hit p) p t) ps t in
  (t_total t' == t_total t + total_weight ps)%Q
  /\ (t_weight t' == t_weight t + total_weight (hits hit ps))%Q
  /\ t_matched t' = (t_matched t ++ map pattern (hits hit ps))%list.
Proof.
  cbv zeta. revert t. induction ps as [| p ps IH]; intro t; simpl.
  - rewrite app_nil_r. repeat split; ring.
  - destruct (IH (tally_step (hit p) p t)) as (Htot & Hw & Hm).
    rewrite Htot, Hw, Hm. unfold tally_step, hits. simpl.
    destruct (hit p); simpl.
    + repeat split; try ring. rewrite <- app_assoc. reflexivity.
    + repeat split; ring.
Qed.

Lemma ratio_closed (t : Tally) (hit : DetectionPattern -> bool)
      (ps : list DetectionPattern) :
  (t_total t == total_weight ps)%Q ->
  (t_weight t == total_weight (hits hit ps))%Q ->
  (ratio t == weighted_ratio hit ps)%Q.
Proof.
  intros Htot Hw. unfold ratio, weighted_ratio.
  rewrite (Qgtb_comp (t_total t) (total_weight ps) 0 0 Htot (Qeq_refl 0)).
  destruct (Qgtb (total_weight ps) 0); [| reflexivity].
  rewrite Htot, Hw. reflexivity.
Qed.

(** The confidence of the exact match is the weight of the text patterns
    found in the text over the weight of all text patterns, and zero when
    that total is not positive; the matched patterns are the ones found,
    in their order. *)
Lemma exact_match_ratio (text : string) (c : Customer)
        (ps : list DetectionPattern) :
  (confidence (checkExactMatch text c ps)
   == weighted_ratio (exact_hit text) (filter is_text ps))%Q
  /\ matchedPatterns (checkExactMatch text c ps)
     = map pattern (hits (exact_hit text) (filter is_text ps)).
Proof.
  unfold checkExactMatch. simpl.
  destruct (tally_fold_closed (exact_hit text) (filter is_text ps) tally0)
    as (Htot & Hw & Hm). cbv zeta in *. simpl in Htot, Hw, Hm. split.
  - apply ratio_closed; [rewrite Htot | rewrite Hw]; ring.
  - exact Hm.
Qed.






(** X6.  When every text pattern of a customer occurs in the text and their
    total weight is positive, detection returns a result of confidence one
    that names a customer (weights being non-negative). *)
Theorem full_exact_match_is_detected (d : Detector) (text : string)
        (fileName : option string) (c : Customer) :
  weights_nonneg d ->
  In c (customers d) ->
  (forall p, In p (filter is_text (patterns_get (patterns d) (id c))) ->
             exact_hit text p = true) ->
  (0 < total_weight (filter is_text (patterns_get (patterns d) (id c))))%Q ->
  (confidence (detectCustomer E d text fileName) == 1)%Q
  /\ customerId (detectCustomer E d text fileName) <> None.
Proof.
  intros Hw Hc Hall Hpos.
  set (ps := patterns_get (patterns d) (id c)) in *.
  assert (Hone : (confidence (checkExactMatch text c ps) == 1)%Q).
  { destruct (exact_match_ratio text c ps) as [-> _].
    unfold weighted_ratio. apply Qgtb_true in Hpos. rewrite Hpos.
    assert (Hh : hits (exact_hit text) (filter is_text ps) = filter is_text ps).
    { unfold hits. apply forallb_filter_id. apply forallb_forall. exact Hall. }
    rewrite Hh. apply Qgtb_true in Hpos. field. intro H0. rewrite H0 in Hpos.
    exact (Qlt_irrefl _ Hpos). }
  assert (Hin : In (checkExactMatch text c ps) (pool E d text fileName)).
  { apply pool_In. exists c. split; [exact Hc |]. split.
    - unfold attempts. fold ps. simpl. left. reflexivity.
    - rewrite Hone. reflexivity. }
  assert (Hge : (1 <= confidence (detectCustomer E d text fileName))%Q).
  { rewrite <- Hone. rewrite detectCustomer_best.
    destruct (pool E d text fileName) as [| r rs]; [destruct Hin |].
    apply first_max_greatest. exact Hin. }
  destruct (detectCustomer_bounds E d text fileName Hw) as [_ Hle].
  split; [apply Qle_antisym; assumption |].
  rewrite detectCustomer_best in *.
  destruct (pool E d text fileName) as [| r rs] eqn:Hpool; [destruct Hin |].
  pose proof (first_max_In confidence r rs) as Hbest. rewrite <- Hpool in Hbest.
  apply pool_In in Hbest. destruct Hbest as (c' & _ & Ha & _).
  destruct (attempts_threshold d text fileName c' _ Ha) as (th & conf & ms & m & Heq & Hth).
  rewrite Heq in *. unfold verdict in *. simpl in *.
  destruct (Qgtb conf th) eqn:Hcmp; [discriminate |].
  apply Qgtb_false in Hcmp. exfalso. lra.
Qed.

End DetectionProperties.

Lemma detected_customer_is_known_witness :
  let r := CustomerDetector.detectCustomer fragment_engine sample_detector
             "Invoice from ACME Corp, account AC-2024" None in
  CustomerDetector.customerId r = Some "cust-1"
  /\ (1 # 2 < CustomerDetector.confidence r)%Q
  /\ exists c, In c (CustomerDetector.customers sample_detector)
               /\ CustomerDetector.id c = "cust-1"
               /\ CustomerDetector.customerName r = Some (CustomerDetector.name c).
Proof.
  split; [reflexivity |].
  apply (detected_customer_is_known fragment_engine sample_detector
           "Invoice from ACME Corp, account AC-2024" None "cust-1").
  reflexivity.
Defined.

Lemma detection_tie_break_witness :
  exists before after,
    CustomerDetector.pool fragment_engine sample_detector
                          "Invoice from ACME Corp" (Some "acme_jan.pdf")
    = (before
       ++ CustomerDetector.detectCustomer fragment_engine sample_detector
            "Invoice from ACME Corp" (Some "acme_jan.pdf") :: after)%list
    /\ (forall r, In r before ->
          (CustomerDetector.confidence r
           < CustomerDetector.confidence
               (CustomerDetector.detectCustomer fragment_engine sample_detector
                  "Invoice from ACME Corp" (Some "acme_jan.pdf")))%Q)
    /\ (forall r, In r after ->
          (CustomerDetector.confidence r
           <= CustomerDetector.confidence
                (CustomerDetector.detectCustomer fragment_engine sample_detector
                   "Invoice from ACME Corp" (Some "acme_jan.pdf")))%Q).
Proof.
  apply (detection_tie_break fragment_engine sample_detector
           "Invoice from ACME Corp" (Some "acme_jan.pdf")).
  vm_compute. discriminate.
Defined.

Lemma filename_match_needs_two_hits_witness :
  2 <= length (CustomerDetector.matchedPatterns
                 (CustomerDetector.checkFilenameMatch
                    "acme_corporation_2024.pdf" acme []))
  /\ (CustomerDetector.confidence
        (CustomerDetector.checkFilenameMatch "acme_corporation_2024.pdf" acme [])
      <= 9 # 10)%Q.
Proof.
  apply (filename_match_needs_two_hits "acme_corporation_2024.pdf" acme []).
  vm_compute. discriminate.
Defined.

Lemma full_exact_match_is_detected_witness :
  (CustomerDetector.confidence
     (CustomerDetector.detectCustomer fragment_engine sample_detector
        "Invoice from ACME Corp, account AC-2024" None) == 1)%Q
  /\ CustomerDetector.customerId
       (CustomerDetector.detectCustomer fragment_engine sample_detector
          "Invoice from ACME Corp, account AC-2024" None) <> None.
Proof.
  apply (full_exact_match_is_detected fragment_engine sample_detector
           "Invoice from ACME Corp, account AC-2024" None acme).
  - intros k ps p Hin Hp. simpl in Hin. destruct Hin as [Heq | []].
    injection Heq as _ <-. simpl in Hp.
    destruct Hp as [<- | [<- | []]]; unfold Qle; simpl; lia.
  - simpl. left. reflexivity.
  - intros p Hp. simpl in Hp. destruct Hp as [<- | [<- | []]]; reflexivity.
  - reflexivity.
Defined.

(** ** Pattern ingestion *)

Section IngestionProperties.
Import CustomerDetector.

Lemma parse_entry_legacy (key : string) (v : JS.json) :
  map as_pattern (parse_entry (key, v)) = map Some (legacy_patterns [(key, v)]).
Proof.
  destruct v; try reflexivity.
  unfold parse_entry, as_pattern. simpl. unfold legacy_pattern.
  destruct (JS.includes key "regex"), (JS.includes key "name"); reflexivity.
Qed.

Lemma legacy_patterns_cons (key : string) (v : JS.json) (rest : list (string * JS.json)) :
  legacy_patterns ((key, v) :: rest)
  = (legacy_patterns [(key, v)] ++ legacy_patterns rest)%list.
Proof.
  destruct v; reflexivity.
Qed.

Lemma legacy_patterns_shape (entries : list (string * JS.json)) (p : DetectionPattern) :
  In p (legacy_patterns entries) ->
  (weight p = 1%Q \/ weight p = 2%Q)
  /\ caseSensitive p = false
  /\ (ptype p = PText \/ ptype p = PRegex).
Proof.
  induction entries as [| [key v] entries IH]; intros Hp; [destruct Hp |].
  rewrite legacy_patterns_cons in Hp. apply in_app_or in Hp.
  destruct Hp as [Hp | Hp]; [| apply IH; exact Hp].
  destruct v; simpl in Hp; try contradiction. destruct Hp as [<- | []].
  unfold legacy_pattern. simpl.
  destruct (JS.includes key "regex"), (JS.includes key "name"); auto.
Qed.

(** X7.  The object format and the array of strings give patterns of the
    declared types: an entry with a string value gives a text pattern, a
    regex pattern when the key holds "regex", of weight 2 when the key
    holds "name" and 1 otherwise; other entries are skipped; a string of
    an array gives a text pattern of weight 1.  None is case-sensitive. *)
Theorem simple_formats_parse (entries : list (string * JS.json)) (ss : list string) :
  map as_pattern (parseIdentifierPatterns (JS.JObj entries))
  = map Some (legacy_patterns entries)
  /\ map as_pattern (parseIdentifierPatterns (JS.JArr (map JS.JStr ss)))
     = map Some (map plain_pattern ss)
  /\ (forall p, In p (legacy_patterns entries) ->
                (weight p = 1%Q \/ weight p = 2%Q)
                /\ caseSensitive p = false
                /\ (ptype p = PText \/ ptype p = PRegex)).
Proof.
  split; [| split].
  - simpl. induction entries as [| [key v] entries IH]; [reflexivity |].
    cbn [flat_map]. rewrite (legacy_patterns_cons key v entries).
    rewrite !map_app, parse_entry_legacy, IH. reflexivity.
  - simpl.
    assert (H : forall acc, map as_pattern (parse_items (map JS.JStr ss) acc)
                            = (map as_pattern acc ++ map Some (map plain_pattern ss))%list).
    { induction ss as [| s ss IH]; intro acc; simpl.
      - rewrite app_nil_r. reflexivity.
      - rewrite IH, map_app, <- app_assoc. reflexivity. }
    apply (H []).
  - intro p. apply legacy_patterns_shape.
Qed.

(** X8.  A detector fed by object-format data needs no assumption on weights:
    its confidence is in the unit interval. *)
Theorem legacy_data_confidence_bounded
        (E : string -> bool -> string -> option (list string)) (d : Detector)
        (text : string) (fileName : option string) :
  from_legacy_data d ->
  in_unit_interval (confidence (detectCustomer E d text fileName)).
Proof.
  intro Hlegacy. apply detectCustomer_bounds.
  intros k ps p Hin Hp. destruct (Hlegacy k ps Hin) as [entries ->].
  destruct (legacy_patterns_shape entries p Hp) as ([-> | ->] & _);
    unfold Qle; simpl; lia.
Qed.

Lemma parse_items_until_null (xs ys : list JS.json) (acc : list ParsedPattern) :
  forallb (fun v => negb (is_null v)) xs = true ->
  parse_items (xs ++ JS.JNull :: ys) acc = parse_items xs acc.
Proof.
  revert acc. induction xs as [| x xs IH]; intros acc Hx; [reflexivity |].
  simpl in Hx. apply andb_true_iff in Hx. destruct Hx as [Hx Hxs].
  destruct x; simpl in *; try discriminate; apply IH; exact Hxs.
Qed.

(** X9.  A [null] in an array ends the parsing: the patterns before it are
    kept and everything after it is dropped, whatever it is. *)
Theorem null_item_ends_parsing (xs ys : list JS.json) :
  forallb (fun v => negb (is_null v)) xs = true ->
  parseIdentifierPatterns (JS.JArr (xs ++ JS.JNull :: ys))
  = parseIdentifierPatterns (JS.JArr xs).
Proof.
  intro H. simpl. apply parse_items_until_null. exact H.
Qed.

Lemma or_else_default (a : option JS.json) (dflt : JS.json) :
  JS.truthy (Some dflt) = true -> JS.truthy (JS.or_else a (Some dflt)) = true.
Proof.
  intro H. unfold JS.or_else. destruct (JS.truthy a) eqn:Ha; assumption.
Qed.

Lemma parse_item_truthy (item : JS.json) (ps : list ParsedPattern) (p : ParsedPattern) :
  parse_item item = Ok ps -> In p ps ->
  JS.truthy (pp_weight p) = true /\ JS.truthy (pp_type p) = true.
Proof.
  destruct item; simpl; intro H; try discriminate; injection H as <-;
    simpl; intro Hp; try contradiction; destruct Hp as [<- | []]; simpl;
    try (split; reflexivity);
    (split; apply or_else_default; reflexivity).
Qed.

Lemma parse_items_truthy (items : list JS.json) (acc : list ParsedPattern) :
  (forall p, In p acc ->
             JS.truthy (pp_weight p) = true /\ JS.truthy (pp_type p) = true) ->
  forall p, In p (parse_items items acc) ->
            JS.truthy (pp_weight p) = true /\ JS.truthy (pp_type p) = true.
Proof.
  revert acc. induction items as [| item items IH]; intros acc Hacc; [exact Hacc |].
  simpl. destruct (parse_item item) as [ps | e] eqn:Hitem; [| exact Hacc].
  apply IH. intros p Hp. apply in_app_or in Hp. destruct Hp as [Hp | Hp].
  - apply Hacc. exact Hp.
  - exact (parse_item_truthy item ps p Hitem Hp).
Qed.

(** X10.  Whatever the data, a parsed pattern has a weight and a type that are
    neither missing, null, zero nor empty: a configured weight of 0 is
    replaced by 1 and a missing type by "text". *)
Theorem parsed_weight_and_type_set (data : JS.json) (p : ParsedPattern) :
  In p (parseIdentifierPatterns data) ->
  JS.truthy (pp_weight p) = true /\ JS.truthy (pp_type p) = true.
Proof.
  destruct data; simpl; try (intros []).
  - apply parse_items_truthy. intros ? [].
  - intro Hp. apply in_flat_map in Hp. destruct Hp as ([key v] & _ & Hp).
    destruct v; simpl in Hp; try contradiction. destruct Hp as [<- | []]. simpl.
    destruct (JS.includes key "regex"), (JS.includes key "name"); split; reflexivity.
Qed.

End IngestionProperties.

Lemma legacy_data_confidence_bounded_witness :
  in_unit_interval
    (CustomerDetector.confidence
       (CustomerDetector.detectCustomer fragment_engine legacy_detector
          "Invoice from ACME Corp" (Some "acme_jan.pdf"))).
Proof.
  apply (legacy_data_confidence_bounded fragment_engine legacy_detector
           "Invoice from ACME Corp" (Some "acme_jan.pdf")).
  intros k ps Hin. simpl in Hin. destruct Hin as [Heq | []].
  injection Heq as _ <-. exists legacy_data. reflexivity.
Defined.

Lemma null_item_ends_parsing_witness :
  CustomerDetector.parseIdentifierPatterns
    (JS.JArr ([JS.JStr "ACME Corp"] ++ JS.JNull :: [JS.JStr "AC-2024"]))
  = CustomerDetector.parseIdentifierPatterns (JS.JArr [JS.JStr "ACME Corp"]).
Proof.
  apply (null_item_ends_parsing [JS.JStr "ACME Corp"] [JS.JStr "AC-2024"]).
  reflexivity.
Defined.

Lemma parsed_weight_and_type_set_witness :
  JS.truthy (CustomerDetector.pp_weight zero_weight_parsed) = true
  /\ JS.truthy (CustomerDetector.pp_type zero_weight_parsed) = true.
Proof.
  apply (parsed_weight_and_type_set (JS.JArr [zero_weight_item]) zero_weight_parsed).
  simpl. left. reflexivity.
Defined.

(** ** Template engine: the document loop *)

Section LoopProperties.
Import TemplateEngine.
Variable rt : Runtime.
Variable template : Template.
Variable text : string.
Variable data : StructuredData.

Let step := process_rule rt template text data.
Let outcomes (st : LoopState) : nat :=
  length (res_errors st) + length (res_warnings st) + successfulExtractions st.

Lemma step_accounting (st : LoopState) (rule : ExtractionRule) :
  outcomes (step st rule) = S (outcomes st).
Proof.
  unfold outcomes, step, process_rule.
  destruct (extractField rt rule text data) as [[v |] | e].
  - destruct (isValid _); simpl; rewrite ?length_app; simpl; lia.
  - destruct (is_required rule); simpl; rewrite ?length_app; simpl; lia.
  - simpl. rewrite ?length_app. simpl. lia.
Qed.

Lemma fold_accounting (rules : list ExtractionRule) (st : LoopState) :
  outcomes (fold_left step rules st) = outcomes st + length rules.
Proof.
  revert st. induction rules as [| rule rules IH]; intro st; simpl; [lia |].
  rewrite IH, step_accounting. lia.
Qed.

Lemma run_rules_accounting :
  let st := run_rules rt template text data in
  length (res_errors st) + length (res_warnings st) + successfulExtractions st
  = length (extractionRules template).
Proof.
  exact (fold_accounting (extractionRules template) loop0).
Qed.

Lemma Qnat_quotient (s n : nat) : 0 < n -> (Qnat s / Qnat n * Qnat n == Qnat s)%Q.
Proof.
  intro Hn. field. intro Hz. pose proof (Qnat_pos n Hn) as Hpos.
  rewrite Hz in Hpos. exact (Qlt_irrefl 0 Hpos).
Qed.

(** X13.  Every rule ends in exactly one of three ways: an error, a warning or
    a counted extraction; so the confidence is the share of rules that
    gave neither an error nor a warning. *)
Theorem processDocument_accounting :
  let r := processDocument rt template text data in
  let n := length (extractionRules template) in
  length (errors r) + length (warnings r) <= n
  /\ (confidence r * Qnat n
      == Qnat (n - (length (errors r) + length (warnings r))))%Q.
Proof.
  pose proof run_rules_accounting as Hacc. pose proof (run_rules_counters rt template text data) as [Htot _].
  cbv zeta in *. unfold processDocument. simpl.
  set (st := run_rules rt template text data) in *.
  split; [lia |]. unfold loop_confidence. rewrite Htot.
  replace (length (extractionRules template)
           - (length (res_errors st) + length (res_warnings st)))
    with (successfulExtractions st) by lia.
  destruct (0 <? length (extractionRules template)) eqn:Hn.
  - apply Nat.ltb_lt in Hn. apply Qnat_quotient. exact Hn.
  - apply Nat.ltb_ge in Hn.
    assert (Hs : successfulExtractions st = 0) by lia.
    rewrite Hs. assert (Hz : length (extractionRules template) = 0) by lia.
    rewrite Hz. reflexivity.
Qed.




(** X15.  A rule whose extraction throws (an unknown extraction type, a regular
    expression that does not compile, a table without header row, a
    failed formula) gives an error naming the field, and the document
    fails whatever the other rules give. *)
Theorem failed_extraction_fails_document (rule : ExtractionRule) (message : string) :
  In rule (extractionRules template) ->
  extractField rt rule text data = Throw message ->
  let r := processDocument rt template text data in
  In (extraction_error rule message) (errors r) /\ success r = false.
Proof.
  intros Hin Hthrow. cbv zeta.
  assert (Herr : In (extraction_error rule message)
                    (res_errors (run_rules rt template text data))).
  { destruct (run_rules_split rt template text data rule Hin)
      as (before & after & _ & Hrun).
    rewrite Hrun.
    destruct (fold_shape rt template text data after
                (process_rule rt template text data
                   (fold_left (process_rule rt template text data) before loop0) rule))
      as (_ & _ & Hkeep & _).
    apply Hkeep. unfold process_rule at 1. rewrite Hthrow. simpl.
    apply in_or_app. right. left. reflexivity. }
  split; [exact Herr |]. unfold processDocument. simpl.
  destruct (res_errors (run_rules rt template text data)); [destruct Herr | reflexivity].
Qed.

End LoopProperties.


Lemma failed_extraction_fails_document_witness :
  let r := TemplateEngine.processDocument sample_runtime barcode_template
             invoice_text no_data in
  In "Error extracting field 'barcode': Unknown extraction type: barcode"
     (TemplateEngine.errors r)
  /\ TemplateEngine.success r = false.
Proof.
  apply (failed_extraction_fails_document sample_runtime barcode_template
           invoice_text no_data barcode_rule "Unknown extraction type: barcode").
  - simpl. right. left. reflexivity.
  - reflexivity.
Defined.

(** ** Template engine: selection, mappings and validation *)

Section EngineProperties.
Import TemplateEngine.
Variable rt : Runtime.

Lemma selectTemplate_member (ts : list Template) (cid text : string) (t : Template) :
  selectTemplate rt ts cid text = Some t -> In t (templates_of ts cid).
Proof.
  rewrite selectTemplate_cases.
  destruct (templates_of ts cid) as [| first [| second others]]; [discriminate | |].
  - intro H. injection H as <-. left. reflexivity.
  - cbv zeta.
    destruct (Qgtb _ _); intro H; injection H as <-.
    + exact (first_max_In (fun t => scoreTemplate rt t text) first (second :: others)).
    + left. reflexivity.
Qed.

Lemma selectTemplate_none (ts : list Template) (cid text : string) :
  selectTemplate rt ts cid text = None <-> templates_of ts cid = [].
Proof.
  rewrite selectTemplate_cases.
  destruct (templates_of ts cid) as [| first [| second others]].
  - split; reflexivity.
  - split; discriminate.
  - cbv zeta. destruct (Qgtb _ _); split; discriminate.
Qed.

(** X16.  After [initialize], the selected template is the loaded form of a
    stored template that is active and belongs to the customer, and every
    mapping it carries is active; no template is selected exactly when the
    customer has no active stored template. *)
Theorem selection_after_initialize (stored : list Template) (cid text : string) :
  (forall t, selectTemplate rt (initialize stored) cid text = Some t ->
     (exists t0, In t0 stored /\ t_isActive t0 = true /\ t_customerId t0 = cid
                 /\ t = load_template t0)
     /\ forall m, In m (hardcodedMappings t) -> m_isActive m = true)
  /\ (selectTemplate rt (initialize stored) cid text = None
      <-> forall t0, In t0 stored -> t_isActive t0 = true -> t_customerId t0 <> cid).
Proof.
  split.
  - intros t Ht. apply selectTemplate_member in Ht.
    unfold templates_of in Ht. apply filter_In in Ht. destruct Ht as [Hin Hcid].
    unfold initialize in Hin. apply in_map_iff in Hin.
    destruct Hin as (t0 & <- & Hin0). apply filter_In in Hin0.
    destruct Hin0 as [Hin0 Hact]. apply String.eqb_eq in Hcid. simpl in Hcid.
    split.
    + exists t0. repeat split; assumption.
    + intros m Hm. simpl in Hm. apply sort_desc_In in Hm.
      apply filter_In in Hm. tauto.
  - rewrite selectTemplate_none. unfold templates_of, initialize. split.
    + intros Hnil t0 Hin Hact Hcid.
      assert (Hmem : In (load_template t0)
                        (filter (fun t => String.eqb (t_customerId t) cid)
                                (map load_template (filter t_isActive stored)))).
      { apply filter_In. split.
        - apply in_map. apply filter_In. tauto.
        - simpl. apply String.eqb_eq. exact Hcid. }
      rewrite Hnil in Hmem. destruct Hmem.
    + intro Hnone.
      destruct (filter _ (map load_template (filter t_isActive stored)))
        as [| t rest] eqn:Hf; [reflexivity |].
      assert (Hmem : In t (filter (fun t => String.eqb (t_customerId t) cid)
                                  (map load_template (filter t_isActive stored)))).
      { rewrite Hf. left. reflexivity. }
      apply filter_In in Hmem. destruct Hmem as [Hin Hcid].
      apply in_map_iff in Hin. destruct Hin as (t0 & <- & Hin0).
      apply filter_In in Hin0. destruct Hin0 as [Hin0 Hact].
      apply String.eqb_eq in Hcid. simpl in Hcid.
      exfalso. exact (Hnone t0 Hin0 Hact Hcid).
Qed.

Lemma includes_empty (s : string) : JS.includes s "" = true.
Proof.
  unfold JS.includes. destruct s; reflexivity.
Qed.

Lemma first_match_outcome (ms : list HardcodedMapping) (value : jsvalue) :
  first_match rt ms value = value
  \/ exists m, In m ms /\ mapping_matches rt m value = true
               /\ first_match rt ms value = JString (targetValue m).
Proof.
  induction ms as [| m ms IH]; [left; reflexivity |]. simpl.
  destruct (mapping_matches rt m value) eqn:Hm.
  - right. exists m. auto.
  - destruct IH as [IH | (m' & Hin & Hmatch & IH)]; [left; exact IH |].
    right. exists m'. auto.
Qed.

Lemma first_match_hit (ms : list HardcodedMapping) (value : jsvalue)
      (m : HardcodedMapping) :
  In m ms -> mapping_matches rt m value = true ->
  exists m', In m' ms /\ mapping_matches rt m' value = true
             /\ first_match rt ms value = JString (targetValue m').
Proof.
  induction ms as [| m0 ms IH]; intros Hin Hm; [destruct Hin |]. simpl.
  destruct (mapping_matches rt m0 value) eqn:Hm0.
  - exists m0. auto.
  - destruct Hin as [-> | Hin]; [congruence |].
    destruct (IH Hin Hm) as (m' & Hin' & Hmatch & Heq). exists m'. auto.
Qed.

(** X17.  A mapping whose source pattern is empty matches every value: a field
    that has one never keeps an extracted value, it always receives the
    target of one of its mappings. *)
Theorem empty_source_pattern_replaces_every_value
        (ms : list HardcodedMapping) (field : string) (value : jsvalue)
        (m : HardcodedMapping) :
  In m ms -> m_fieldName m = field -> sourcePattern m = "" ->
  mapping_matches rt m value = true
  /\ exists m', In m' ms /\ m_fieldName m' = field
                /\ applyHardcodedMappings rt ms field value = JString (targetValue m').
Proof.
  intros Hin Hfield Hsrc.
  assert (Hm : mapping_matches rt m value = true).
  { unfold mapping_matches. rewrite Hsrc. simpl. rewrite includes_empty. reflexivity. }
  split; [exact Hm |]. unfold applyHardcodedMappings.
  assert (Hin' : In m (filter (fun m => String.eqb (m_fieldName m) field) ms)).
  { apply filter_In. split; [exact Hin | apply String.eqb_eq; exact Hfield]. }
  destruct (first_match_hit _ value m Hin' Hm) as (m' & Hm' & _ & Heq).
  apply filter_In in Hm'. destruct Hm' as [Hm' Hf]. apply String.eqb_eq in Hf.
  exists m'. auto.
Qed.

(** What the mappings make of a value: it is kept as it is, number or
    string, or replaced by the target string of a mapping of that very
    field that matches it; mappings of other fields never act. *)
Lemma mapped_value_is_value_or_target
        (ms : list HardcodedMapping) (field : string) (value : jsvalue) :
  (applyHardcodedMappings rt ms field value = value
   \/ exists m, In m ms /\ m_fieldName m = field
                /\ mapping_matches rt m value = true
                /\ applyHardcodedMappings rt ms field value = JString (targetValue m))
  /\ ((forall m, In m ms -> m_fieldName m = field ->
                 mapping_matches rt m value = false) ->
      applyHardcodedMappings rt ms field value = value).
Proof.
  unfold applyHardcodedMappings. split.
  - destruct (first_match_outcome
                (filter (fun m => String.eqb (m_fieldName m) field) ms) value)
      as [H | (m & Hin & Hm & H)]; [left; exact H |].
    right. exists m. apply filter_In in Hin. destruct Hin as [Hin Hf].
    apply String.eqb_eq in Hf. auto.
  - intro Hnone.
    destruct (first_match_outcome
                (filter (fun m => String.eqb (m_fieldName m) field) ms) value)
      as [H | (m & Hin & Hm & _)]; [exact H |].
    apply filter_In in Hin. destruct Hin as [Hin Hf]. apply String.eqb_eq in Hf.
    rewrite (Hnone m Hin Hf) in Hm. discriminate.
Qed.

Lemma app_nil_inv {A : Type} (l1 l2 : list A) :
  (l1 ++ l2)%list = [] -> l1 = [] /\ l2 = [].
Proof.
  destruct l1; [auto | discriminate].
Qed.

(** X18.  A value that is present and passes validation meets every configured
    constraint: its type, the minimal length, the maximal length and the
    pattern; a maximal length of 0 and an empty pattern constrain nothing. *)
Theorem valid_value_meets_constraints (rule : ExtractionRule) (vd : Validation)
        (value : jsvalue) :
  validation rule = Some vd ->
  no_value (Some value) = false ->
  isValid (validateField rt rule (Some value)) = true ->
  type_errors rt (dataType vd) value = []
  /\ (forall m, minLength vd = Some m -> m <= String.length (String_of rt value))
  /\ (forall m, maxLength vd = Some m -> 0 < m ->
                String.length (String_of rt value) <= m)
  /\ (forall p, v_pattern vd = Some p -> p <> "" ->
                RegExp_test rt p false (String_of rt value) = Some true).
Proof.
  intros Hvd Hval. unfold validateField. rewrite Hvd, Hval, andb_false_r.
  cbn [isValid]. intro Hnil.
  assert (Herrs : (type_errors rt (dataType vd) value
                   ++ length_errors rt vd (String_of rt value)
                   ++ pattern_errors rt vd (String_of rt value))%list = []).
  { destruct (_ ++ _)%list; [reflexivity | discriminate]. }
  apply app_nil_inv in Herrs. destruct Herrs as [Htype Hrest].
  apply app_nil_inv in Hrest. destruct Hrest as [Hlen Hpat].
  unfold length_errors in Hlen. apply app_nil_inv in Hlen.
  destruct Hlen as [Hmin Hmax].
  split; [exact Htype |]. split; [| split].
  - intros m Hm. unfold min_length_errors in Hmin. rewrite Hm in Hmin.
    destruct m as [| m]; [lia |]. simpl in Hmin.
    destruct (String.length (String_of rt value) <? S m) eqn:Hlt; [discriminate |].
    apply Nat.ltb_ge in Hlt. exact Hlt.
  - intros m Hm Hpos. unfold max_length_errors in Hmax. rewrite Hm in Hmax.
    destruct m as [| m]; [lia |]. simpl in Hmax.
    destruct (S m <? String.length (String_of rt value)) eqn:Hlt; [discriminate |].
    apply Nat.ltb_ge in Hlt. exact Hlt.
  - intros p Hp Hne. unfold pattern_errors in Hpat. rewrite Hp in Hpat. simpl in Hpat.
    destruct (String.eqb p "") eqn:He; [apply String.eqb_eq in He; contradiction |].
    destruct (RegExp_test rt p false (String_of rt value)) as [[|] |];
      [reflexivity | discriminate | discriminate].
Qed.

End EngineProperties.

Section StatsProperties.
Import TemplateEngine.

Lemma count_template_get (acc : list (string * nat)) (t : Template) (cid : string) :
  JS.obj_get (count_template acc t) cid
  = if String.eqb (t_customerId t) cid
    then Some (match truthy_nat (JS.obj_get acc cid) with Some n => n | None => 0 end + 1)
    else JS.obj_get acc cid.
Proof.
  unfold count_template. destruct (String.eqb (t_customerId t) cid) eqn:He.
  - apply String.eqb_eq in He. subst cid. apply obj_get_set_same.
  - apply obj_get_set_other. intro Heq. rewrite Heq, String.eqb_refl in He. discriminate.
Qed.

Lemma count_fold_get (ts : list Template) (acc : list (string * nat)) (cid : string) :
  match truthy_nat (JS.obj_get (fold_left count_template ts acc) cid) with
  | Some n => n
  | None => 0
  end
  = match truthy_nat (JS.obj_get acc cid) with Some n => n | None => 0 end
    + length (templates_of ts cid).
Proof.
  revert acc. induction ts as [| t ts IH]; intro acc; simpl; [lia |].
  rewrite IH, count_template_get. unfold templates_of. simpl.
  destruct (String.eqb (t_customerId t) cid); simpl.
  - rewrite Nat.add_1_r. simpl. unfold templates_of. lia.
  - reflexivity.
Qed.

Lemma count_fold_defined (ts : list Template) (acc : list (string * nat)) (cid : string) :
  JS.obj_get (fold_left count_template ts acc) cid = None ->
  JS.obj_get acc cid = None /\ templates_of ts cid = [].
Proof.
  revert acc. induction ts as [| t ts IH]; intro acc; simpl; [auto |].
  intro H. destruct (IH _ H) as [Hacc Hrest].
  rewrite count_template_get in Hacc. unfold templates_of. simpl.
  destruct (String.eqb (t_customerId t) cid); [discriminate |]. auto.
Qed.

Lemma count_fold_positive (ts : list Template) (acc : list (string * nat)) (cid : string) :
  (forall n, JS.obj_get acc cid = Some n -> 0 < n) ->
  forall n, JS.obj_get (fold_left count_template ts acc) cid = Some n -> 0 < n.
Proof.
  revert acc. induction ts as [| t ts IH]; intros acc Hacc; simpl; [exact Hacc |].
  apply IH. intros n. rewrite count_template_get.
  destruct (String.eqb (t_customerId t) cid).
  - intro H. injection H as <-. lia.
  - apply Hacc.
Qed.

Lemma sum_counts_set (o : list (string * nat)) (k : string) (n : nat) :
  sum_counts (JS.obj_set o k n)
  + match JS.obj_get o k with Some m => m | None => 0 end
  = sum_counts o + n.
Proof.
  induction o as [| [k' v'] o IH]; simpl; [lia |].
  destruct (String.eqb k' k); simpl; lia.
Qed.

Lemma sum_counts_fold (ts : list Template) (acc : list (string * nat)) :
  sum_counts (fold_left count_template ts acc) = sum_counts acc + length ts.
Proof.
  revert acc. induction ts as [| t ts IH]; intro acc; simpl; [lia |].
  rewrite IH. unfold count_template.
  pose proof (sum_counts_set acc (t_customerId t)
                (match truthy_nat (JS.obj_get acc (t_customerId t)) with
                 | Some n => n
                 | None => 0
                 end + 1)) as Hset.
  destruct (JS.obj_get acc (t_customerId t)) as [[| m] |]; simpl in *; lia.
Qed.

(** X20.  The statistics agree with selection: a customer is listed exactly
    when selection has a template to consider for it, with the number of
    those templates; and the counts add up to the total. *)
Theorem template_stats_count_per_customer (ts : list Template) (cid : string) :
  JS.obj_get (customerTemplates (getTemplateStats ts)) cid
  = match templates_of ts cid with
    | [] => None
    | _ :: _ => Some (length (templates_of ts cid))
    end
  /\ sum_counts (customerTemplates (getTemplateStats ts))
     = totalTemplates (getTemplateStats ts).
Proof.
  unfold getTemplateStats. simpl. split.
  - pose proof (count_fold_get ts [] cid) as Hn. simpl in Hn.
    destruct (JS.obj_get (fold_left count_template ts []) cid) as [n |] eqn:Hget.
    + assert (Hpos : 0 < n).
      { apply (count_fold_positive ts [] cid); [discriminate | exact Hget]. }
      destruct n as [| n]; [lia |]. simpl in Hn. rewrite <- Hn.
      destruct (templates_of ts cid); [discriminate | reflexivity].
    + destruct (count_fold_defined ts [] cid Hget) as [_ ->]. reflexivity.
  - apply (sum_counts_fold ts []).
Qed.

End StatsProperties.

(** ** Table detection *)

Section TableProperties.
Import PDFProcessor.

Lemma trimStart_idem (s : string) : JS.trimStart (JS.trimStart s) = JS.trimStart s.
Proof.
  induction s as [| c s IH]; [reflexivity |]. simpl.
  destruct (JS.is_space c) eqn:Hc; [exact IH |]. simpl. rewrite Hc. reflexivity.
Qed.

Lemma trimEnd_idem (s : string) : JS.trimEnd (JS.trimEnd s) = JS.trimEnd s.
Proof.
  induction s as [| c s IH]; [reflexivity |]. simpl.
  destruct (JS.trimEnd s) as [| d t] eqn:Ht.
  - destruct (JS.is_space c) eqn:Hc; [reflexivity |]. simpl. rewrite Hc. reflexivity.
  - change (JS.trimEnd (String c (String d t)))
      with (match JS.trimEnd (String d t) with
            | EmptyString => if JS.is_space c then EmptyString else String c EmptyString
            | String d' t' => String c (String d' t')
            end).
    rewrite IH. reflexivity.
Qed.

Lemma trimStart_trimEnd (s : string) :
  JS.trimStart (JS.trimEnd (JS.trimStart s)) = JS.trimEnd (JS.trimStart s).
Proof.
  induction s as [| c s IH]; [reflexivity |]. simpl.
  destruct (JS.is_space c) eqn:Hc; [exact IH |].
  assert (Hhead : exists t, JS.trimEnd (String c s) = String c t).
  { simpl. destruct (JS.trimEnd s) as [| d t].
    - rewrite Hc. exists EmptyString. reflexivity.
    - exists (String d t). reflexivity. }
  destruct Hhead as [t ->]. simpl. rewrite Hc. reflexivity.
Qed.

Lemma trim_idem (s : string) : JS.trim (JS.trim s) = JS.trim s.
Proof.
  unfold JS.trim. rewrite trimStart_trimEnd. apply trimEnd_idem.
Qed.

Lemma columns_count (cols : list string) :
  length (filter (fun col => 0 <? String.length (JS.trim col)) cols)
  = length (filter (fun col => 0 <? String.length col) (map JS.trim cols)).
Proof.
  induction cols as [| col cols IH]; [reflexivity |]. simpl.
  destruct (0 <? String.length (JS.trim col)); simpl; congruence.
Qed.

Lemma parseTableRow_cells (line cell : string) :
  In cell (parseTableRow line) -> cell <> "" /\ JS.trim cell = cell.
Proof.
  unfold parseTableRow. intro H. apply filter_In in H. destruct H as [Hin Hlen].
  apply in_map_iff in Hin. destruct Hin as (col & <- & _). split.
  - intro He. rewrite He in Hlen. discriminate.
  - apply trim_idem.
Qed.

Lemma looksLikeTableRow_columns (line : string) :
  looksLikeTableRow line = true -> 2 <= length (parseTableRow line).
Proof.
  unfold looksLikeTableRow, parseTableRow. cbv zeta. rewrite columns_count.
  apply Nat.leb_le.
Qed.

Lemma make_table_block (lines closed run after : list string) :
  lines = (closed ++ run ++ after)%list ->
  2 <= length run ->
  forallb row_like run = true ->
  ends_without row_like closed ->
  starts_without row_like after ->
  table_of_block lines
    (make_table (map row_of run) (length closed + length run)).
Proof.
  intros Hlines Htwo Hrun Hclosed Hafter. exists closed, run, after.
  unfold make_table. cbn [td_rows td_headers td_position tp_y tp_height].
  rewrite length_map.
  split; [exact Hlines |]. split; [exact Htwo |]. split; [exact Hrun |].
  split; [exact Hclosed |]. split; [exact Hafter |]. split; [reflexivity |].
  split; [destruct run; reflexivity |]. split; [lia | reflexivity].
Qed.

(** What holds between two turns of the loop, [done] being the lines
    already read. *)
Let scan_invariant (lines done : list string) (st : TableScan) : Prop :=
  (exists closed run,
      done = (closed ++ run)%list
      /\ forallb row_like run = true
      /\ ends_without row_like closed
      /\ currentTable st = map row_of run
      /\ (run <> [] -> isInTable st = true))
  /\ forall t, In t (sc_tables st) -> table_of_block lines t.

Lemma table_step_invariant (lines done rest : list string) (l : string)
      (st : TableScan) :
  lines = (done ++ l :: rest)%list ->
  scan_invariant lines done st ->
  scan_invariant lines (done ++ [l])%list (table_step st (length done) l).
Proof.
  intros Hlines ((closed & run & Hdone & Hrun & Hclosed & Hcur & Hin) & Htables).
  unfold table_step. cbv zeta.
  destruct (looksLikeTableRow (JS.trim l)) eqn:Hrow.
  - split; [| exact Htables]. exists closed, (run ++ [l])%list. simpl.
    rewrite Hdone, <- app_assoc, forallb_app, Hrun, Hcur, map_app. simpl.
    unfold row_like at 1. rewrite Hrow. repeat split; auto.
  - destruct (isInTable st && (0 <? length (currentTable st))) eqn:Hclose.
    + split.
      * exists (done ++ [l])%list, []. simpl. rewrite app_nil_r.
        repeat split; auto; try congruence.
        right. exists done, l. split; [reflexivity | exact Hrow].
      * cbn [sc_tables].
        destruct (2 <=? length (currentTable st)) eqn:Htwo; [| exact Htables].
        intros t Ht. apply in_app_or in Ht. destruct Ht as [Ht | [<- | []]];
          [exact (Htables t Ht) |].
        apply Nat.leb_le in Htwo. rewrite Hcur, length_map in Htwo.
        rewrite Hcur, Hdone, length_app.
        apply (make_table_block lines closed run (l :: rest)); auto.
        rewrite Hlines, Hdone, <- app_assoc. reflexivity.
    + assert (Hnil : run = []).
      { destruct run as [| r run']; [reflexivity |].
        rewrite Hin in Hclose by discriminate. rewrite Hcur in Hclose.
        discriminate. }
      subst run. rewrite app_nil_r in Hdone. subst closed.
      split; [| exact Htables]. exists (done ++ [l])%list, [].
      rewrite app_nil_r. repeat split; auto.
      right. exists done, l. split; [reflexivity | exact Hrow].
Qed.

Lemma scan_tables_invariant (lines rest done : list string) (st : TableScan) :
  lines = (done ++ rest)%list ->
  scan_invariant lines done st ->
  scan_invariant lines lines (scan_tables (length done) rest st).
Proof.
  revert done st. induction rest as [| l rest IH]; intros done st Hlines Hinv.
  - rewrite app_nil_r in Hlines. subst done. exact Hinv.
  - simpl. replace (S (length done)) with (length (done ++ [l])%list)
      by (rewrite length_app; simpl; lia).
    apply IH.
    + rewrite <- app_assoc. exact Hlines.
    + apply (table_step_invariant lines done rest l st Hlines Hinv).
Qed.

Lemma extractTables_blocks (text : string) (t : TableData) :
  In t (extractTables text) -> table_of_block (JS.lines text) t.
Proof.
  unfold extractTables. cbv zeta.
  assert (Hinv : scan_invariant (JS.lines text) (JS.lines text)
                   (scan_tables 0 (JS.lines text) scan0)).
  { apply (scan_tables_invariant (JS.lines text) (JS.lines text) [] scan0);
      [reflexivity |].
    split.
    - exists [], []. repeat split; auto. left. reflexivity.
    - intros t' []. }
  destruct Hinv as ((closed & run & Hdone & Hrun & Hclosed & Hcur & _) & Htables).
  destruct (2 <=? length (currentTable (scan_tables 0 (JS.lines text) scan0)))
    eqn:Htwo; [| apply Htables].
  intro Ht. apply in_app_or in Ht. destruct Ht as [Ht | [<- | []]];
    [exact (Htables t Ht) |].
  apply Nat.leb_le in Htwo. rewrite Hcur, length_map in Htwo.
  rewrite Hcur. rewrite Hdone at 2. rewrite length_app.
  apply (make_table_block (JS.lines text) closed run []); auto.
  - rewrite app_nil_r. exact Hdone.
  - exact I.
Qed.

Lemma extractTables_cells (text : string) (t : TableData) (row : list string) :
  In t (extractTables text) -> In row (td_rows t) ->
  2 <= length row
  /\ forall cell, In cell row -> cell <> "" /\ JS.trim cell = cell.
Proof.
  intros Ht Hrow.
  destruct (extractTables_blocks text t Ht)
    as (before & block & after & _ & _ & Hlike & _ & _ & Hrows & _).
  rewrite Hrows in Hrow. apply in_map_iff in Hrow. destruct Hrow as (l & <- & Hl).
  rewrite forallb_forall in Hlike. specialize (Hlike l Hl). split.
  - apply looksLikeTableRow_columns. exact Hlike.
  - intros cell. apply parseTableRow_cells.
Qed.

(** X21.  Every detected table stands for a block of two or more consecutive
    lines that all look like rows and that no neighbouring row extends;
    its rows are those lines parsed, in order, its header is its first
    row, and its position holds the index of the first line and the
    number of lines.  Each row has two cells or more, and each cell is
    non-empty and has no white space at either end. *)
Theorem detected_table_is_block_of_rows (text : string) (t : TableData) :
  In t (extractTables text) ->
  table_of_block (JS.lines text) t
  /\ forall row, In row (td_rows t) ->
       2 <= length row
       /\ forall cell, In cell row -> cell <> "" /\ JS.trim cell = cell.
Proof.
  intro Ht. split.
  - exact (extractTables_blocks text t Ht).
  - intros row. exact (extractTables_cells text t row Ht).
Qed.

Lemma nth_error_member {A : Type} (l : list A) (n : nat) (x : A) :
  nth_error l n = Some x -> In x l.
Proof.
  apply nth_error_In.
Qed.

Lemma cell_or_null_cell (row : list string) (i : nat) (s : string) :
  TemplateEngine.cell_or_null (nth_error row i) = Some s -> In s row /\ s <> "".
Proof.
  unfold TemplateEngine.cell_or_null, TemplateEngine.truthy_string.
  destruct (nth_error row i) as [c |] eqn:Hc; [| discriminate].
  destruct (String.eqb c "") eqn:He; [discriminate |].
  intro H. injection H as <-. split.
  - exact (nth_error_member row i c Hc).
  - intro Hempty. rewrite Hempty in He. discriminate.
Qed.

Lemma extractFromTable_value (rule : TemplateEngine.ExtractionRule)
      (tables : list TemplateEngine.TableData) (s : string) :
  TemplateEngine.extractFromTable rule tables = Ok (Some s) ->
  s <> ""
  /\ exists tc table row,
       TemplateEngine.tableConfig rule = Some tc
       /\ nth_error tables (TemplateEngine.tableIndex tc) = Some table
       /\ In row (TemplateEngine.rows table) /\ In s row.
Proof.
  unfold TemplateEngine.extractFromTable.
  destruct (TemplateEngine.tableConfig rule) as [tc |]; [| discriminate].
  destruct tables as [| t0 ts]; [discriminate |].
  destruct (nth_error (t0 :: ts) (TemplateEngine.tableIndex tc)) as [table |] eqn:Ht;
    [| discriminate].
  destruct (TemplateEngine.truthy_string (TemplateEngine.headerName tc)) as [hn |].
  - destruct (match TemplateEngine.headers table with
              | Some h => Some h
              | None => nth_error (TemplateEngine.rows table) 0
              end) as [hr |]; [| discriminate].
    destruct (JS.findIndex _ hr) as [colIndex |]; [| discriminate].
    destruct (nth_error (TemplateEngine.rows table) 1) as [row1 |] eqn:Hrow;
      [| discriminate].
    intro H. injection H as H. apply cell_or_null_cell in H. destruct H as [Hin Hne].
    split; [exact Hne |]. exists tc, table, row1.
    repeat split; auto. exact (nth_error_member _ _ _ Hrow).
  - destruct (TemplateEngine.columnIndex tc) as [ci |]; [| discriminate].
    destruct (nth_error (TemplateEngine.rows table) _) as [row |] eqn:Hrow;
      [| discriminate].
    intro H. injection H as H. apply cell_or_null_cell in H. destruct H as [Hin Hne].
    split; [exact Hne |]. exists tc, table, row.
    repeat split; auto. exact (nth_error_member _ _ _ Hrow).
Qed.

Lemma extractFromTable_throws (rule : TemplateEngine.ExtractionRule)
      (tables : list TemplateEngine.TableData) (e : string) :
  TemplateEngine.extractFromTable rule tables = Throw e
  <-> e = "Cannot read properties of undefined (reading 'findIndex')"
      /\ exists tc table,
           TemplateEngine.tableConfig rule = Some tc
           /\ nth_error tables (TemplateEngine.tableIndex tc) = Some table
           /\ TemplateEngine.truthy_string (TemplateEngine.headerName tc) <> None
           /\ TemplateEngine.headers table = None
           /\ TemplateEngine.rows table = [].
Proof.
  unfold TemplateEngine.extractFromTable. split.
  - destruct (TemplateEngine.tableConfig rule) as [tc |]; [| discriminate].
    destruct tables as [| t0 ts]; [discriminate |].
    destruct (nth_error (t0 :: ts) (TemplateEngine.tableIndex tc)) as [table |] eqn:Ht;
      [| discriminate].
    destruct (TemplateEngine.truthy_string (TemplateEngine.headerName tc)) as [hn |] eqn:Hhn.
    + destruct (TemplateEngine.headers table) as [h |] eqn:Hh.
      * destruct (JS.findIndex _ h); [| discriminate].
        destruct (nth_error (TemplateEngine.rows table) 1); discriminate.
      * destruct (TemplateEngine.rows table) as [| r0 rs] eqn:Hrows.
        -- simpl. intro H. injection H as <-. split; [reflexivity |].
           exists tc, table.
           split; [reflexivity |]. split; [exact Ht |].
           split; [rewrite Hhn; discriminate |]. split; [exact Hh | exact Hrows].
        -- simpl. destruct (JS.findIndex _ r0); [| discriminate].
           destruct rs; simpl; discriminate.
    + destruct (TemplateEngine.columnIndex tc); [| discriminate].
      destruct (nth_error (TemplateEngine.rows table) _); discriminate.
  - intros (-> & tc & table & -> & Ht & Hhn & Hh & Hrows).
    destruct tables as [| t0 ts]; [destruct (TemplateEngine.tableIndex tc); discriminate |].
    rewrite Ht.
    destruct (TemplateEngine.truthy_string (TemplateEngine.headerName tc));
      [| contradiction].
    rewrite Hh, Hrows. reflexivity.
Qed.

(** What a table rule can give: when it gives a value, the value is a
    non-empty cell of a row of the table it names; it throws exactly when
    it looks up a header name in a table that has neither headers nor
    rows. *)
Lemma table_rule_outcomes (rule : TemplateEngine.ExtractionRule)
        (tables : list TemplateEngine.TableData) :
  (forall s, TemplateEngine.extractFromTable rule tables = Ok (Some s) ->
     s <> ""
     /\ exists tc table row,
          TemplateEngine.tableConfig rule = Some tc
          /\ nth_error tables (TemplateEngine.tableIndex tc) = Some table
          /\ In row (TemplateEngine.rows table) /\ In s row)
  /\ (forall e, TemplateEngine.extractFromTable rule tables = Throw e
      <-> e = "Cannot read properties of undefined (reading 'findIndex')"
          /\ exists tc table,
               TemplateEngine.tableConfig rule = Some tc
               /\ nth_error tables (TemplateEngine.tableIndex tc) = Some table
               /\ TemplateEngine.truthy_string (TemplateEngine.headerName tc) <> None
               /\ TemplateEngine.headers table = None
               /\ TemplateEngine.rows table = []).
Proof.
  split.
  - intro s. apply extractFromTable_value.
  - intro e. apply extractFromTable_throws.
Qed.


End TableProperties.

Lemma detected_table_is_block_of_rows_witness :
  table_of_block (JS.lines table_text) table_text_table
  /\ forall row, In row (PDFProcessor.td_rows table_text_table) ->
       2 <= length row
       /\ forall cell, In cell row -> cell <> "" /\ JS.trim cell = cell.
Proof.
  apply (detected_table_is_block_of_rows table_text table_text_table).
  vm_compute. left. reflexivity.
Defined.

(** ** The orchestrator: what every run keeps *)

Section HoareRules.
Import ProcessingOrchestrator.
Context {A B : Type}.
Variable P : St -> Prop.
Variable E : string -> St -> Prop.

Lemma hoare_ret (a : A) (Q : A -> St -> Prop) :
  (forall s, P s -> Q a s) -> hoare P (ret a) Q E.
Proof.
  intros H s Hs. apply H. exact Hs.
Qed.

Lemma hoare_throw (message : string) (Q : A -> St -> Prop) :
  (forall s, P s -> E message s) -> hoare P (@throw A message) Q E.
Proof.
  intros H s Hs. apply H. exact Hs.
Qed.

Lemma hoare_bind (m : M A) (k : A -> M B) (R : A -> St -> Prop)
      (Q : B -> St -> Prop) :
  hoare P m R E -> (forall a, hoare (R a) (k a) Q E) -> hoare P (bind m k) Q E.
Proof.
  intros Hm Hk s Hs. unfold bind. specialize (Hm s Hs).
  destruct (m s) as [[a | e] s']; [exact (Hk a s' Hm) | exact Hm].
Qed.

Lemma hoare_try_catch (body : M A) (handler : string -> M A)
      (R : string -> St -> Prop) (Q : A -> St -> Prop) :
  hoare P body Q R -> (forall e, hoare (R e) (handler e) Q E) ->
  hoare P (try_catch body handler) Q E.
Proof.
  intros Hb Hh s Hs. unfold try_catch. specialize (Hb s Hs).
  destruct (body s) as [[a | e] s']; [exact Hb | exact (Hh e s' Hb)].
Qed.

Lemma hoare_lift (r : result A) (Q : A -> St -> Prop) :
  (forall s a, P s -> r = Ok a -> Q a s) ->
  (forall s e, P s -> r = Throw e -> E e s) ->
  hoare P (lift r) Q E.
Proof.
  intros Hok Hthrow s Hs. unfold lift. destruct r as [a | e]; auto.
Qed.

End HoareRules.

Section HoareUnitRules.
Import ProcessingOrchestrator.
Variable P : St -> Prop.
Variable E : string -> St -> Prop.

Lemma hoare_get_response (Q : ProcessingResponse -> St -> Prop) :
  (forall s, P s -> Q (response s) s) -> hoare P get_response Q E.
Proof.
  intros H s Hs. apply H. exact Hs.
Qed.

Lemma hoare_modify_response (f : ProcessingResponse -> ProcessingResponse)
      (Q : unit -> St -> Prop) :
  (forall s, P s -> Q tt {| world := world s; response := f (response s) |}) ->
  hoare P (modify_response f) Q E.
Proof.
  intros H s Hs. apply H. exact Hs.
Qed.

Lemma hoare_io (env : Collaborators) (c : IoCall) (f : World -> World)
      (Q : unit -> St -> Prop) :
  (forall s, P s -> fault env c = None ->
             Q tt {| world := f (world s); response := response s |}) ->
  (forall s e, P s -> fault env c = Some e -> E e s) ->
  hoare P (io env c f) Q E.
Proof.
  intros Hok Hthrow s Hs. unfold io.
  destruct (fault env c) as [e |] eqn:Hc.
  - apply (Hthrow s e Hs). reflexivity.
  - apply (Hok s Hs). reflexivity.
Qed.

Lemma hoare_weaken {A : Type} (m : M A) (P' : St -> Prop)
      (Q Q' : A -> St -> Prop) (E' : string -> St -> Prop) :
  hoare P' m Q' E' ->
  (forall s, P s -> P' s) ->
  (forall a s, Q' a s -> Q a s) ->
  (forall e s, E' e s -> E e s) ->
  hoare P m Q E.
Proof.
  intros Hm HP HQ HE s Hs. specialize (Hm s (HP s Hs)).
  destruct (m s) as [[a | e] s']; auto.
Qed.

End HoareUnitRules.

Section InvariantRules.
Import ProcessingOrchestrator.
Variable I : St -> Prop.

Lemma preserves_bind {A B : Type} (m : M A) (k : A -> M B) :
  preserves I m -> (forall a, preserves I (k a)) -> preserves I (bind m k).
Proof.
  intros Hm Hk. exact (hoare_bind I (fun _ => I) m k (fun _ => I) (fun _ => I) Hm Hk).
Qed.

Lemma preserves_try_catch {A : Type} (body : M A) (handler : string -> M A) :
  preserves I body -> (forall e, preserves I (handler e)) ->
  preserves I (try_catch body handler).
Proof.
  intros Hb Hh.
  exact (hoare_try_catch I (fun _ => I) body handler (fun _ => I) (fun _ => I) Hb Hh).
Qed.

Lemma preserves_ret {A : Type} (a : A) : preserves I (ret a).
Proof.
  intros s Hs. exact Hs.
Qed.

Lemma preserves_throw {A : Type} (message : string) : preserves I (@throw A message).
Proof.
  intros s Hs. exact Hs.
Qed.

Lemma preserves_lift {A : Type} (r : result A) : preserves I (lift r).
Proof.
  intros s Hs. unfold lift. destruct r; exact Hs.
Qed.

Lemma preserves_get_response : preserves I get_response.
Proof.
  intros s Hs. exact Hs.
Qed.

Lemma preserves_modify_response (f : ProcessingResponse -> ProcessingResponse) :
  (forall s, I s -> I {| world := world s; response := f (response s) |}) ->
  preserves I (modify_response f).
Proof.
  intros H s Hs. exact (H s Hs).
Qed.

Lemma preserves_io (env : Collaborators) (c : IoCall) (f : World -> World) :
  (forall s, I s -> I {| world := f (world s); response := response s |}) ->
  preserves I (io env c f).
Proof.
  intros H s Hs. unfold io. destruct (fault env c); [exact Hs | exact (H s Hs)].
Qed.

End InvariantRules.

Section RunInvariants.
Import ProcessingOrchestrator.
Variable env : Collaborators.

(** The structure of a computation decides how an invariant is carried
    through it; what is left are the updates of the response and of the
    world. *)
Ltac carry :=
  repeat match goal with
         | |- preserves _ (bind _ _) => apply preserves_bind; [| intro]
         | |- preserves _ (try_catch _ _) => apply preserves_try_catch; [| intro]
         | |- preserves _ (ret _) => apply preserves_ret
         | |- preserves _ (throw _) => apply preserves_throw
         | |- preserves _ (lift _) => apply preserves_lift
         | |- preserves _ get_response => apply preserves_get_response
         | |- preserves _ (modify_response _) =>
             apply preserves_modify_response; intros ? ?
         | |- preserves _ (io _ _ _) => apply preserves_io; intros ? ?
         end.

Lemma initialize_preserves (I : St -> Prop) : preserves I (initialize env).
Proof.
  unfold initialize.
  apply preserves_bind; [apply preserves_lift | intros _].
  destruct (fault env io_load_customers); [apply preserves_throw |].
  destruct (fault env io_load_templates); [apply preserves_throw | apply preserves_ret].
Qed.

Lemma generateCSV_confidence (data : list (string * TemplateEngine.jsvalue))
      (request : ProcessingRequest) :
  preserves confidence_bounded (generateCSV env data request).
Proof.
  unfold generateCSV, rethrow_csv. carry; assumption.
Qed.

Lemma half_of_unit (q : Q) : in_unit_interval q -> in_unit_interval (q * (5 # 10))%Q.
Proof.
  intros [H0 H1]. split; lra.
Qed.

Lemma mean_of_units (a b : Q) :
  in_unit_interval a -> in_unit_interval b -> in_unit_interval ((a + b) / 2)%Q.
Proof.
  intros [Ha0 Ha1] [Hb0 Hb1]. split.
  - apply Qle_shift_div_l; lra.
  - apply Qle_shift_div_r; lra.
Qed.

Lemma pipeline_confidence (request : ProcessingRequest) :
  weights_nonneg (detector env) ->
  preserves confidence_bounded (pipeline env request).
Proof.
  intro Hw. unfold pipeline.
  apply preserves_bind; [apply initialize_preserves | intros _].
  apply preserves_bind; [apply preserves_lift | intro ed]. cbv zeta.
  destruct (String.length (PDFProcessor.text ed) <? 10); [apply preserves_throw |].
  pose proof (detectCustomer_bounds (TemplateEngine.RegExp_matches (runtime env))
                (detector env) (PDFProcessor.text ed) (Some (fileName request)) Hw)
    as Hdet.
  apply preserves_bind; [| intros _; carry; assumption].
  destruct (TemplateEngine.truthy_string _) as [cid |].
  - unfold process_for_customer. cbv zeta.
    destruct (TemplateEngine.selectTemplate _ _ _ _) as [template |].
    + apply preserves_bind; [apply generateCSV_confidence | intro path].
      apply preserves_bind.
      * apply preserves_modify_response. intros s _. unfold confidence_bounded. simpl.
        apply mean_of_units; [exact Hdet |].
        apply processDocument_confidence_bounds.
      * intros _. destruct (TemplateEngine.truthy_string (Some path));
          carry; assumption.
    + unfold createBasicCSV.
      apply preserves_bind; [carry; assumption | intros _].
      apply preserves_bind;
        [apply preserves_bind; [apply generateCSV_confidence | intro; carry] |].
      intro csvData. apply preserves_modify_response. intros s _.
      unfold confidence_bounded. simpl. apply half_of_unit. exact Hdet.
  - unfold createBasicCSV.
    apply preserves_bind; [carry; assumption | intros _].
    apply preserves_bind; [carry; assumption | intros _].
    apply preserves_bind;
      [apply preserves_bind; [apply generateCSV_confidence | intro; carry] |].
    intro csvData. apply preserves_modify_response. intros s _.
    unfold confidence_bounded. simpl. split; lra.
Qed.

(** X23.  Whatever the document, the libraries and the storage do, the
    response of a run carries a confidence in the unit interval, provided
    no pattern weight is negative. *)
Theorem response_confidence_in_unit_interval (request : ProcessingRequest) (w : World) :
  weights_nonneg (detector env) ->
  in_unit_interval (confidence (response (snd (run env request w)))).
Proof.
  intro Hw.
  assert (H : preserves confidence_bounded (processDocument env request)).
  { unfold processDocument, on_failure.
    apply preserves_bind; [carry; assumption | intros _].
    apply preserves_bind; [carry; assumption | intros _].
    apply preserves_bind; [| intros _; carry].
    apply preserves_try_catch; [apply pipeline_confidence; exact Hw |].
    intro e. carry; assumption. }
  unfold run.
  specialize (H {| world := w; response := response0 request |}).
  assert (H0 : confidence_bounded {| world := w; response := response0 request |}).
  { unfold confidence_bounded. simpl. split; lra. }
  specialize (H H0).
  destruct (processDocument env request _) as [[r | e] s']; exact H.
Qed.

Lemma written_add_csv_file (p path : string) (records : list CsvRecord) (w : World) :
  written p w -> written p (add_csv_file path records w).
Proof.
  unfold written. simpl. rewrite map_app. intro H. apply in_or_app. left. exact H.
Qed.

Lemma generateCSV_written (data : list (string * TemplateEngine.jsvalue))
      (request : ProcessingRequest) :
  hoare outputs_written (generateCSV env data request)
        (fun path s => outputs_written s /\ written path (world s))
        (fun _ => outputs_written).
Proof.
  unfold generateCSV, rethrow_csv.
  apply hoare_try_catch with (R := fun _ => outputs_written);
    [| intro e; apply hoare_throw; auto].
  apply hoare_bind with (R := fun _ => outputs_written).
  - apply hoare_io; [| auto]. intros [w r] H _. exact H.
  - intros _.
    apply hoare_bind
      with (R := fun _ s => outputs_written s /\ written (csv_path env request) (world s)).
    + apply hoare_io; [| auto]. intros [w r] [Hout Hresp] _. simpl in *.
      split; [split |].
      * intros p Hp. apply written_add_csv_file. exact (Hout p Hp).
      * intros p Hp. apply written_add_csv_file. exact (Hresp p Hp).
      * unfold written. simpl. rewrite map_app. apply in_or_app. right. left. reflexivity.
    + intros _. apply hoare_ret. auto.
Qed.

Lemma createBasicCSV_written (ed : PDFProcessor.ExtractedData)
      (request : ProcessingRequest) (cid : option string) :
  hoare outputs_written (createBasicCSV env ed request cid)
        (fun csvData s => outputs_written s /\ written (fst csvData) (world s))
        (fun _ => outputs_written).
Proof.
  unfold createBasicCSV.
  apply hoare_bind with (R := fun path s => outputs_written s /\ written path (world s));
    [apply generateCSV_written |].
  intro path. apply hoare_ret. auto.
Qed.

Lemma basic_branch_written (ed : PDFProcessor.ExtractedData)
      (request : ProcessingRequest) (cid : option string) (conf : Q) :
  preserves outputs_written
    (csvData <- createBasicCSV env ed request cid ;;
     modify_response (with_basic_csv (fst csvData) (snd csvData) conf)).
Proof.
  apply hoare_bind
    with (R := fun csvData s => outputs_written s /\ written (fst csvData) (world s));
    [apply createBasicCSV_written |].
  intro csvData. apply hoare_modify_response. intros [w r] [[Hout Hresp] Hw].
  simpl in *. split; [exact Hout |]. simpl. intros p Hp. injection Hp as <-. exact Hw.
Qed.

Lemma pipeline_written (request : ProcessingRequest) :
  preserves outputs_written (pipeline env request).
Proof.
  unfold pipeline.
  apply preserves_bind; [apply initialize_preserves | intros _].
  apply preserves_bind; [apply preserves_lift | intro ed]. cbv zeta.
  destruct (String.length (PDFProcessor.text ed) <? 10); [apply preserves_throw |].
  apply preserves_bind;
    [| intros _; carry; match goal with s : St |- _ => destruct s end; assumption].
  destruct (TemplateEngine.truthy_string _) as [cid |].
  - unfold process_for_customer. cbv zeta.
    destruct (TemplateEngine.selectTemplate _ _ _ _) as [template |].
    + apply hoare_bind
        with (R := fun path s => outputs_written s /\ written path (world s));
        [apply generateCSV_written | intro path].
      apply hoare_bind
        with (R := fun _ s => outputs_written s /\ written path (world s)).
      { apply hoare_modify_response. intros [w r] [[Hout Hresp] Hw]. simpl in *.
        split; [| exact Hw]. split; [exact Hout |]. simpl.
        intros p Hp. injection Hp as <-. exact Hw. }
      intros _.
      apply hoare_bind
        with (R := fun _ s => outputs_written s /\ written path (world s)).
      { apply hoare_get_response. auto. }
      intro r0.
      apply hoare_bind
        with (R := fun _ s => outputs_written s /\ written path (world s)).
      { apply hoare_io; [| intros s e [H _] _; exact H].
        intros [w r] H _. exact H. }
      intros _. unfold TemplateEngine.truthy_string.
      destruct (String.eqb path ""); [apply hoare_ret; intros s [H _]; exact H |].
      apply hoare_bind
        with (R := fun _ s => outputs_written s /\ written path (world s)).
      { apply hoare_io; [| intros s e [H _] _; exact H].
        intros [w r] H _. exact H. }
      intros _. apply hoare_io; [| intros s e [H _] _; exact H].
      intros [w r] [[Hout Hresp] Hw] _. simpl in *. split.
      * simpl. intros p Hp. apply in_app_or in Hp.
        destruct Hp as [Hp | [<- | []]]; [exact (Hout p Hp) | exact Hw].
      * exact Hresp.
    + apply preserves_bind;
        [carry; match goal with s : St |- _ => destruct s end; assumption | intros _].
      apply basic_branch_written.
  - apply preserves_bind;
      [carry; match goal with s : St |- _ => destruct s end; assumption | intros _].
    apply preserves_bind;
      [carry; match goal with s : St |- _ => destruct s end; assumption | intros _].
    apply basic_branch_written.
Qed.

(** X24.  Every path that the CSV output rows or the response hold after a run
    names a file that was written, whatever fails on the way. *)
Theorem recorded_outputs_are_written (request : ProcessingRequest) (w : World) :
  (forall p, In p (csv_outputs w) -> written p w) ->
  outputs_written (snd (run env request w)).
Proof.
  intro Hw.
  assert (H : preserves outputs_written (processDocument env request)).
  { unfold processDocument, on_failure.
    apply preserves_bind;
      [carry; match goal with s : St |- _ => destruct s end; assumption | intros _].
    apply preserves_bind;
      [carry; match goal with s : St |- _ => destruct s end; assumption | intros _].
    apply preserves_bind; [| intros _; carry].
    apply preserves_try_catch; [apply pipeline_written |].
    intro e. carry; match goal with s : St |- _ => destruct s end; assumption. }
  unfold run.
  specialize (H {| world := w; response := response0 request |}).
  assert (H0 : outputs_written {| world := w; response := response0 request |}).
  { split; [exact Hw |]. simpl. discriminate. }
  specialize (H H0).
  destruct (processDocument env request _) as [[r | e] s']; exact H.
Qed.

Lemma hoare_any {A : Type} (P : St -> Prop) (m : M A) :
  hoare P m (fun _ _ => True) (fun _ _ => True).
Proof.
  intros s _. destruct (m s) as [[a | e] s']; exact I.
Qed.

Lemma hoare_bind_any {A B : Type} (m : M A) (k : A -> M B) (Q : B -> St -> Prop) :
  (forall a, hoare (fun _ => True) (k a) Q (fun _ _ => True)) ->
  hoare (fun _ => True) (bind m k) Q (fun _ _ => True).
Proof.
  intro Hk. apply hoare_bind with (R := fun _ _ => True); [apply hoare_any | exact Hk].
Qed.

Lemma basic_branch_succeeds (ed : PDFProcessor.ExtractedData)
      (request : ProcessingRequest) (cid : option string) (conf : Q) :
  hoare (fun _ => True)
        (csvData <- createBasicCSV env ed request cid ;;
         modify_response (with_basic_csv (fst csvData) (snd csvData) conf))
        (fun _ => failure_recorded) (fun _ _ => True).
Proof.
  apply hoare_bind_any. intro csvData. apply hoare_modify_response.
  intros s _. unfold failure_recorded. simpl. discriminate.
Qed.

Lemma pipeline_settles (request : ProcessingRequest) :
  hoare (fun _ => True) (pipeline env request)
        (fun _ s => job_status (world s)
                    = Some (job_status_of_success (success (response s)))
                    /\ failure_recorded s)
        (fun _ _ => True).
Proof.
  unfold pipeline.
  apply hoare_bind_any. intros _. apply hoare_bind_any. intro ed. cbv zeta.
  destruct (String.length (PDFProcessor.text ed) <? 10); [apply hoare_throw; auto |].
  apply hoare_bind with (R := fun _ => failure_recorded).
  - destruct (TemplateEngine.truthy_string _) as [cid |].
    + unfold process_for_customer. cbv zeta.
      destruct (TemplateEngine.selectTemplate _ _ _ _) as [template |].
      * apply hoare_bind_any. intro path. apply hoare_bind_any. intros _.
        apply hoare_bind with (R := fun r s => r = response s); [apply hoare_get_response; auto |].
        intro r.
        apply hoare_bind
          with (R := fun _ s => document_status (world s)
                                = status_of_success (success (response s))).
        { apply hoare_io; [| auto]. intros s -> _. reflexivity. }
        intros _.
        assert (Hkeep : forall f : World -> World,
                   (forall w, document_status (f w) = document_status w) ->
                   forall c,
                     hoare (fun s => document_status (world s)
                                     = status_of_success (success (response s)))
                           (io env c f)
                           (fun _ s => document_status (world s)
                                       = status_of_success (success (response s)))
                           (fun _ _ => True)).
        { intros f Hf c. apply hoare_io; [| auto]. intros s Hs _. simpl.
          rewrite Hf. exact Hs. }
        assert (Hend : forall s,
                   document_status (world s) = status_of_success (success (response s)) ->
                   failure_recorded s).
        { intros s Hs Hfail. rewrite Hs, Hfail. reflexivity. }
        destruct (TemplateEngine.truthy_string (Some path)) as [p |].
        -- apply hoare_bind
             with (R := fun _ s => document_status (world s)
                                   = status_of_success (success (response s)));
             [apply Hkeep; reflexivity | intros _].
           apply hoare_weaken
             with (P' := fun s => document_status (world s)
                                  = status_of_success (success (response s)))
                  (Q' := fun _ s => document_status (world s)
                                    = status_of_success (success (response s)))
                  (E' := fun _ _ => True);
             [apply Hkeep; reflexivity | auto | auto | auto].
        -- apply hoare_ret. exact Hend.
      * apply hoare_bind_any. intros _. apply basic_branch_succeeds.
    + apply hoare_bind_any. intros _. apply hoare_bind_any. intros _.
      apply basic_branch_succeeds.
  - intros _.
    apply hoare_bind with (R := fun r s => r = response s /\ failure_recorded s);
      [apply hoare_get_response; auto |].
    intro r. apply hoare_io; [| auto]. intros s [-> Hrec] _. simpl. split; [reflexivity |].
    exact Hrec.
Qed.

Lemma processDocument_settles (request : ProcessingRequest) :
  rows_writable env ->
  hoare (fun _ => True) (processDocument env request)
        (fun r s => r = response s /\ job_settled s)
        (fun _ _ => False).
Proof.
  intros (Hcreate & Hjob & Hdoc). unfold processDocument.
  apply hoare_bind with (R := fun _ _ => True).
  { apply hoare_io; [auto |]. intros s e _ He. rewrite Hcreate in He. discriminate. }
  intros _. apply hoare_bind with (R := fun _ _ => True).
  { apply hoare_modify_response. auto. }
  intros _. apply hoare_bind with (R := fun _ => job_settled);
    [| intros _; apply hoare_get_response; auto].
  apply hoare_try_catch with (R := fun _ _ => True).
  - apply hoare_weaken
      with (P' := fun _ => True)
           (Q' := fun (_ : unit) s =>
                    job_status (world s)
                    = Some (job_status_of_success (success (response s)))
                    /\ failure_recorded s)
           (E' := fun _ _ => True); auto; [apply pipeline_settles |].
    intros _ s [Hjs Hrec]. unfold job_settled.
    destruct (success (response s)) eqn:Hs.
    + left. auto.
    + right. split; [exact Hjs |]. split; [apply Hrec; exact Hs | left; reflexivity].
  - intro e. unfold on_failure.
    apply hoare_bind with (R := fun _ s => errors (response s) <> []).
    { apply hoare_modify_response. intros s _. simpl.
      destruct (errors (response s)); discriminate. }
    intros _.
    apply hoare_bind
      with (R := fun _ s => errors (response s) <> []
                            /\ job_status (world s) = Some JobStatus.FAILED).
    { apply hoare_io.
      - intros s Hs _. simpl. auto.
      - intros s e' _ He. rewrite Hjob in He. discriminate. }
    intros _. apply hoare_io.
    + intros s [Herr Hjs] _. right. simpl. auto.
    + intros s e' _ He. rewrite Hdoc in He. discriminate.
Qed.

(** X25.  When the job and document rows can be written, a run always returns
    its response and never leaves the job RUNNING: the job is COMPLETED
    beside a successful response, or FAILED beside a document marked
    FAILED and a response that says failure or lists an error, whatever
    else fails on the way. *)
Theorem job_is_settled_by_every_run (request : ProcessingRequest) (w : World) :
  rows_writable env ->
  exists r s, run env request w = (Ok r, s) /\ r = response s /\ job_settled s.
Proof.
  intro Hrows. pose proof (processDocument_settles request Hrows) as H.
  unfold run. specialize (H {| world := w; response := response0 request |} I).
  destruct (processDocument env request _) as [[r | e] s]; [| destruct H].
  exists r, s. split; [reflexivity | exact H].
Qed.

End RunInvariants.

(** ** The orchestrator: the branches of a run *)

Section RunBranches.
Import ProcessingOrchestrator.
Variable env : Collaborators.

Ltac run_through Hpdf Hworker Hio :=
  unfold run, processDocument, pipeline, process_for_customer, initialize,
    createBasicCSV, generateCSV, rethrow_csv, on_failure, io,
    PDFProcessor.initialize;
  unfold bind, try_catch, lift, modify_response, modify_world, get_response, ret, throw;
  rewrite Hpdf, Hworker, !Hio.

(** X26.  A document whose text has fewer than 10 characters fails the run:
    the response lists that one error and names no file, nothing is
    written, and job and document end FAILED. *)
Theorem insufficient_text_fails_run (request : ProcessingRequest) (w : World)
        (ed : PDFProcessor.ExtractedData) :
  storage_completes env ->
  createWorker env = Ok tt ->
  extraction_of env request = Ok ed ->
  String.length (PDFProcessor.text ed) < 10 ->
  exists resp s,
    run env request w = (Ok resp, s)
    /\ success resp = false
    /\ errors resp = ["Insufficient text extracted from PDF"]
    /\ csvFilePath resp = None
    /\ csv_files (world s) = csv_files w
    /\ job_status (world s) = Some JobStatus.FAILED
    /\ job_errorMessage (world s) = Some "Insufficient text extracted from PDF"
    /\ document_status (world s) = DocumentStatus.FAILED.
Proof.
  intros Hio Hworker Hpdf Hlen. unfold extraction_of in Hpdf.
  run_through Hpdf Hworker Hio. cbn -[Nat.ltb CustomerDetector.detectCustomer].
  destruct (Nat.ltb (String.length (PDFProcessor.text ed)) 10) eqn:E;
    [| apply Nat.ltb_ge in E; lia].
  cbn. eexists. eexists. split; [reflexivity |]. cbn. repeat split.
Qed.

(** X27.  A detected customer without template gets the basic CSV at half the
    detection confidence: the run succeeds and the job is COMPLETED, but
    the response does not name the customer and the document row is left
    as it was, status included. *)
Theorem customer_without_template_leaves_document (request : ProcessingRequest)
        (w : World) (ed : PDFProcessor.ExtractedData) (cid : string) :
  storage_completes env ->
  createWorker env = Ok tt ->
  extraction_of env request = Ok ed ->
  10 <= String.length (PDFProcessor.text ed) ->
  TemplateEngine.truthy_string (CustomerDetector.customerId (detection_of env request ed))
  = Some cid ->
  TemplateEngine.selectTemplate (runtime env)
    (TemplateEngine.initialize (stored_templates env)) cid (PDFProcessor.text ed) = None ->
  exists resp s,
    run env request w = (Ok resp, s)
    /\ success resp = true
    /\ confidence resp
       = (CustomerDetector.confidence (detection_of env request ed) * (5 # 10))%Q
    /\ customerId resp = None
    /\ csvFilePath resp = Some (csv_path env request)
    /\ warnings resp = ["No template found for detected customer"]
    /\ errors resp = []
    /\ job_status (world s) = Some JobStatus.COMPLETED
    /\ document_untouched w (world s).
Proof.
  intros Hio Hworker Hpdf Hlen Hcid Hnone. unfold extraction_of in Hpdf.
  unfold detection_of in *.
  run_through Hpdf Hworker Hio.
  cbn -[Nat.ltb CustomerDetector.detectCustomer TemplateEngine.selectTemplate
        TemplateEngine.initialize TemplateEngine.truthy_string].
  destruct (Nat.ltb (String.length (PDFProcessor.text ed)) 10) eqn:E;
    [apply Nat.ltb_lt in E; lia |].
  rewrite Hcid, Hnone.
  cbn. eexists. eexists. split; [reflexivity |]. cbn. repeat split.
Qed.

(** X28.  With a template, the response, the document and the job take the
    outcome of the template processing, success or failure; the CSV of the
    extracted fields is written and recorded in both cases. *)
Theorem template_branch_outcome (request : ProcessingRequest) (w : World)
        (ed : PDFProcessor.ExtractedData) (cid : string)
        (template : TemplateEngine.Template) :
  storage_completes env ->
  createWorker env = Ok tt ->
  extraction_of env request = Ok ed ->
  10 <= String.length (PDFProcessor.text ed) ->
  TemplateEngine.truthy_string (CustomerDetector.customerId (detection_of env request ed))
  = Some cid ->
  TemplateEngine.selectTemplate (runtime env)
    (TemplateEngine.initialize (stored_templates env)) cid (PDFProcessor.text ed)
  = Some template ->
  csv_path env request <> "" ->
  let outcome :=
    TemplateEngine.processDocument (runtime env) template (PDFProcessor.text ed)
                                   (structured env (PDFProcessor.text ed)) in
  exists resp s,
    run env request w = (Ok resp, s)
    /\ success resp = TemplateEngine.success outcome
    /\ (confidence resp
        == (CustomerDetector.confidence (detection_of env request ed)
            + TemplateEngine.confidence outcome) / 2)%Q
    /\ errors resp = TemplateEngine.errors outcome
    /\ warnings resp = TemplateEngine.warnings outcome
    /\ customerId resp = Some cid
    /\ templateId resp = Some (TemplateEngine.t_id template)
    /\ csvFilePath resp = Some (csv_path env request)
    /\ In (csv_path env request,
           map (csv_record env) (TemplateEngine.extractedData outcome))
          (csv_files (world s))
    /\ In (csv_path env request) (csv_outputs (world s))
    /\ document_status (world s) = status_of_success (TemplateEngine.success outcome)
    /\ document_templateId (world s) = Some (TemplateEngine.t_id template)
    /\ job_status (world s)
       = Some (job_status_of_success (TemplateEngine.success outcome)).
Proof.
  intros Hio Hworker Hpdf Hlen Hcid Hsome Hpath. unfold extraction_of in Hpdf.
  unfold detection_of in *. cbv zeta.
  run_through Hpdf Hworker Hio.
  cbn -[Nat.ltb CustomerDetector.detectCustomer TemplateEngine.selectTemplate
        TemplateEngine.initialize TemplateEngine.truthy_string
        TemplateEngine.processDocument].
  destruct (Nat.ltb (String.length (PDFProcessor.text ed)) 10) eqn:E;
    [apply Nat.ltb_lt in E; lia |].
  rewrite Hcid, Hsome.
  cbn -[TemplateEngine.processDocument].
  destruct (String.eqb (csv_path env request) "") eqn:He;
    [apply String.eqb_eq in He; contradiction |].
  cbn -[TemplateEngine.processDocument].
  eexists. eexists. split; [reflexivity |].
  cbn -[TemplateEngine.processDocument].
  repeat split; try reflexivity.
  - apply in_or_app. right. left. reflexivity.
  - apply in_or_app. right. left. reflexivity.
Qed.

End RunBranches.

(** ** The upload route *)

Section RouteProperties.
Import ProcessingOrchestrator.
Variable env : Collaborators.

Ltac run_all Hio :=
  unfold UploadRoute.processDocumentAsync, UploadRoute.attempt, settled_status,
    extraction_of, detection_of;
  unfold run, processDocument, pipeline, process_for_customer, initialize,
    createBasicCSV, generateCSV, rethrow_csv, on_failure, io,
    PDFProcessor.initialize;
  unfold bind, try_catch, lift, modify_response, modify_world, get_response, ret, throw;
  rewrite !Hio.

(** X29.  When every storage call completes, background processing leaves the
    document FAILED, COMPLETED or still PROCESSING according to the branch
    the run takes; it stays PROCESSING, although the job is done, exactly
    for a detected customer without template. *)
Theorem background_processing_final_status
        (documentId filePath fileName : string) (buffer : Buffer) (userId : string)
        (w : World) :
  storage_completes env ->
  document_status
    (UploadRoute.processDocumentAsync env documentId filePath fileName buffer userId w)
  = settled_status env {| req_documentId := documentId;
                          ProcessingOrchestrator.filePath := filePath;
                          ProcessingOrchestrator.fileName := fileName;
                          ProcessingOrchestrator.buffer := buffer;
                          ProcessingOrchestrator.userId := userId |}.
Proof.
  intro Hio. run_all Hio.
  cbn -[Nat.ltb CustomerDetector.detectCustomer TemplateEngine.selectTemplate
        TemplateEngine.initialize TemplateEngine.truthy_string
        TemplateEngine.processDocument PDFProcessor.processPDF].
  destruct (createWorker env) as [u | e]; [| reflexivity].
  cbn -[Nat.ltb CustomerDetector.detectCustomer TemplateEngine.selectTemplate
        TemplateEngine.initialize TemplateEngine.truthy_string
        TemplateEngine.processDocument PDFProcessor.processPDF].
  destruct (PDFProcessor.processPDF _ _ _ _ _ _) as [ed | e]; [| reflexivity].
  cbn -[Nat.ltb CustomerDetector.detectCustomer TemplateEngine.selectTemplate
        TemplateEngine.initialize TemplateEngine.truthy_string
        TemplateEngine.processDocument].
  destruct (Nat.ltb (String.length (PDFProcessor.text ed)) 10); [reflexivity |].
  destruct (TemplateEngine.truthy_string _) as [cid |]; [| reflexivity].
  destruct (TemplateEngine.selectTemplate _ _ _ _) as [template |]; [| reflexivity].
  cbn -[TemplateEngine.processDocument TemplateEngine.truthy_string].
  destruct (TemplateEngine.truthy_string _); reflexivity.
Qed.

End RouteProperties.

Section SanitizeProperties.
Import UploadRoute.

Lemma sanitized_char (c : ascii) :
  let d := if is_safe_char c then c else "_"%char in
  (is_safe_char d || Ascii.eqb d "_") = true
  /\ (if is_safe_char d then d else "_"%char) = d
  /\ Ascii.eqb d "/" = false /\ Ascii.eqb d "\" = false.
Proof.
  cbv zeta. destruct (is_safe_char c) eqn:Hc.
  - rewrite Hc. repeat split.
    + destruct (Ascii.eqb c "/") eqn:He; [| reflexivity].
      apply Ascii.eqb_eq in He. subst c. discriminate.
    + destruct (Ascii.eqb c "\") eqn:He; [| reflexivity].
      apply Ascii.eqb_eq in He. subst c. discriminate.
  - repeat split.
Qed.

Lemma includes_char (s : string) (c : ascii) :
  every_char (fun d => negb (Ascii.eqb d c)) s = true ->
  JS.includes s (String c EmptyString) = false.
Proof.
  unfold JS.includes, every_char.
  induction s as [| d s IH]; [reflexivity |]. simpl.
  intro H. apply andb_true_iff in H. destruct H as [Hd Hs].
  destruct (Ascii.ascii_dec c d) as [-> | Hne].
  - rewrite Ascii.eqb_refl in Hd. discriminate.
  - specialize (IH Hs). destruct (JS.indexOf s (String c EmptyString)); [discriminate |].
    reflexivity.
Qed.

Lemma sanitize_no_separator (name : string) (c : ascii) :
  c = "/"%char \/ c = "\"%char ->
  every_char (fun d => negb (Ascii.eqb d c)) (sanitize name) = true.
Proof.
  intros Hc. unfold every_char. induction name as [| d name IH]; [reflexivity |].
  simpl. rewrite IH, andb_true_r.
  destruct (sanitized_char d) as (_ & _ & Hslash & Hback). cbv zeta in *.
  destruct Hc as [-> | ->]; [rewrite Hslash | rewrite Hback]; reflexivity.
Qed.

(** X30.  The stored file name has the length of the uploaded name, holds only
    letters, digits, dots, hyphens and underscores, hence no path
    separator, and sanitizing it again changes nothing. *)
Theorem sanitized_name_is_safe (name : string) :
  String.length (sanitize name) = String.length name
  /\ every_char (fun c => is_safe_char c || Ascii.eqb c "_") (sanitize name) = true
  /\ JS.includes (sanitize name) "/" = false
  /\ JS.includes (sanitize name) "\" = false
  /\ sanitize (sanitize name) = sanitize name.
Proof.
  split; [| split; [| split; [| split]]].
  - induction name as [| c name IH]; [reflexivity |]. simpl. f_equal. exact IH.
  - unfold every_char. induction name as [| c name IH]; [reflexivity |]. simpl.
    rewrite IH, andb_true_r. exact (proj1 (sanitized_char c)).
  - apply includes_char. apply sanitize_no_separator. left. reflexivity.
  - apply includes_char. apply sanitize_no_separator. right. reflexivity.
  - induction name as [| c name IH]; [reflexivity |]. simpl. rewrite IH.
    f_equal. exact (proj1 (proj2 (sanitized_char c))).
Qed.

End SanitizeProperties.

(** ** The properties on the scenarios *)

Lemma response_confidence_in_unit_interval_witness :
  in_unit_interval
    (ProcessingOrchestrator.confidence
       (ProcessingOrchestrator.response
          (snd (ProcessingOrchestrator.run acme_with_template sample_request
                                           uploaded_world)))).
Proof.
  apply (response_confidence_in_unit_interval acme_with_template sample_request
           uploaded_world).
  intros k ps p Hin Hp. simpl in Hin. destruct Hin as [Heq | []].
  injection Heq as _ <-. simpl in Hp.
  destruct Hp as [<- | [<- | []]]; unfold Qle; simpl; lia.
Defined.

Lemma recorded_outputs_are_written_witness :
  outputs_written
    (snd (ProcessingOrchestrator.run acme_with_template sample_request uploaded_world)).
Proof.
  apply (recorded_outputs_are_written acme_with_template sample_request uploaded_world).
  simpl. intros p [].
Defined.

Lemma job_is_settled_by_every_run_witness :
  exists r s,
    ProcessingOrchestrator.run faint_scan sample_request uploaded_world = (Ok r, s)
    /\ r = ProcessingOrchestrator.response s /\ job_settled s.
Proof.
  apply (job_is_settled_by_every_run faint_scan sample_request uploaded_world).
  repeat split.
Defined.

Lemma insufficient_text_fails_run_witness :
  exists resp s,
    ProcessingOrchestrator.run faint_scan sample_request uploaded_world = (Ok resp, s)
    /\ ProcessingOrchestrator.success resp = false
    /\ ProcessingOrchestrator.errors resp = ["Insufficient text extracted from PDF"].
Proof.
  destruct (insufficient_text_fails_run faint_scan sample_request uploaded_world
              (PDFProcessor.ocr_result faint_recognition))
    as (resp & s & Hrun & Hfail & Herrors & _).
  - intro c. reflexivity.
  - reflexivity.
  - reflexivity.
  - simpl. lia.
  - exists resp, s. auto.
Defined.

Lemma customer_without_template_leaves_document_witness :
  exists resp s,
    ProcessingOrchestrator.run acme_without_template sample_request uploaded_world
    = (Ok resp, s)
    /\ ProcessingOrchestrator.success resp = true
    /\ ProcessingOrchestrator.job_status (ProcessingOrchestrator.world s)
       = Some JobStatus.COMPLETED
    /\ document_untouched uploaded_world (ProcessingOrchestrator.world s).
Proof.
  destruct (customer_without_template_leaves_document
              acme_without_template sample_request uploaded_world acme_direct "cust-1")
    as (resp & s & Hrun & Hok & _ & _ & _ & _ & _ & Hjob & Hdoc).
  - intro c. reflexivity.
  - reflexivity.
  - reflexivity.
  - vm_compute. lia.
  - reflexivity.
  - reflexivity.
  - exists resp, s. auto.
Defined.

Lemma template_branch_outcome_witness :
  exists resp s,
    ProcessingOrchestrator.run acme_with_template sample_request uploaded_world
    = (Ok resp, s)
    /\ ProcessingOrchestrator.success resp = false
    /\ In "./uploads/csv/letter_2024-01-05T10-00-00-000Z.csv"
          (ProcessingOrchestrator.csv_outputs (ProcessingOrchestrator.world s))
    /\ ProcessingOrchestrator.document_status (ProcessingOrchestrator.world s)
       = DocumentStatus.FAILED.
Proof.
  destruct (template_branch_outcome
              acme_with_template sample_request uploaded_world acme_direct "cust-1"
              complete_template)
    as (resp & s & Hrun & Hok & _ & _ & _ & _ & _ & _ & _ & Hout & Hdoc & _).
  - intro c. reflexivity.
  - reflexivity.
  - reflexivity.
  - vm_compute. lia.
  - reflexivity.
  - reflexivity.
  - discriminate.
  - exists resp, s. auto.
Defined.

Lemma background_processing_final_status_witness :
  ProcessingOrchestrator.document_status
    (UploadRoute.processDocumentAsync acme_without_template
       "doc-1" "./uploads/letter.pdf" "letter.pdf" "%PDF-1.4" "user-1" uploaded_world)
  = DocumentStatus.PROCESSING.
Proof.
  rewrite (background_processing_final_status acme_without_template
             "doc-1" "./uploads/letter.pdf" "letter.pdf" "%PDF-1.4" "user-1"
             uploaded_world).
  - reflexivity.
  - intro c. reflexivity.
Defined.

(** ** Learning patterns *)

Section LearningProperties.
Import CustomerDetector.

Lemma as_pattern_of_pattern (q : DetectionPattern) : as_pattern (of_pattern q) = Some q.
Proof.
  destruct q as [t s w cs]. unfold as_pattern, of_pattern. simpl.
  destruct t, cs; reflexivity.
Qed.

Lemma as_pattern_type_name (v : option JS.json) (t : PatternType) :
  as_pattern_type v = Some t -> v = Some (JS.JStr (type_name t)).
Proof.
  unfold as_pattern_type. destruct v as [[| | | s | |] |]; try discriminate.
  destruct (String.eqb s "text") eqn:H1;
    [apply String.eqb_eq in H1; intro H; injection H as <-; subst; reflexivity |].
  destruct (String.eqb s "regex") eqn:H2;
    [apply String.eqb_eq in H2; intro H; injection H as <-; subst; reflexivity |].
  destruct (String.eqb s "position") eqn:H3;
    [apply String.eqb_eq in H3; intro H; injection H as <-; subst; reflexivity |].
  destruct (String.eqb s "header") eqn:H4;
    [apply String.eqb_eq in H4; intro H; injection H as <-; subst; reflexivity |].
  destruct (String.eqb s "footer") eqn:H5;
    [apply String.eqb_eq in H5; intro H; injection H as <-; subst; reflexivity |].
  discriminate.
Qed.

Lemma as_pattern_fields (p : ParsedPattern) (q : DetectionPattern) :
  as_pattern p = Some q ->
  pp_type p = Some (JS.JStr (type_name (ptype q)))
  /\ pp_pattern p = Some (JS.JStr (pattern q))
  /\ pp_weight p = Some (JS.JNum (weight q))
  /\ JS.truthy (pp_caseSensitive p) = caseSensitive q.
Proof.
  unfold as_pattern.
  destruct (as_pattern_type (pp_type p)) as [t |] eqn:Ht; [| discriminate].
  destruct (pp_pattern p) as [[| | | s | |] |]; try discriminate.
  destruct (pp_weight p) as [[| | w | | |] |]; try discriminate.
  intro H. injection H as <-. simpl.
  apply as_pattern_type_name in Ht. auto.
Qed.

Lemma truthy_or_false (v : option JS.json) :
  JS.truthy (JS.or_else v (Some (JS.JBool false))) = JS.truthy v.
Proof.
  unfold JS.or_else. destruct (JS.truthy v) eqn:Hv; [exact Hv | reflexivity].
Qed.

Lemma or_else_truthy (a b : option JS.json) :
  JS.truthy a = true -> JS.or_else a b = a.
Proof.
  intro H. unfold JS.or_else. rewrite H. reflexivity.
Qed.

Lemma stored_pattern_read_back (p : ParsedPattern) (q : DetectionPattern) :
  as_pattern p = Some q -> kept_by_storage q ->
  exists p', parse_item (to_json p) = Ok [p'] /\ as_pattern p' = Some q.
Proof.
  intros Hp [Hpat Hw].
  destruct (as_pattern_fields p q Hp) as (Ht & Hs & Hwt & Hcs).
  destruct p as [pt pp pw pc]. simpl in Ht, Hs, Hwt, Hcs. subst pt pp pw.
  unfold to_json, parse_item.
  cbn [pp_type pp_pattern pp_weight pp_caseSensitive json_field app].
  eexists. split; [reflexivity |].
  assert (Hs' : String.eqb (pattern q) "" = false).
  { destruct (String.eqb (pattern q) "") eqn:He; [| reflexivity].
    apply String.eqb_eq in He. contradiction. }
  assert (Htype : JS.prop (JS.JObj (("type", JS.JStr (type_name (ptype q)))
                                    :: ("pattern", JS.JStr (pattern q))
                                    :: ("weight", JS.JNum (weight q))
                                    :: json_field "caseSensitive" pc)) "type"
                  = Some (JS.JStr (type_name (ptype q)))) by reflexivity.
  assert (Hpattern : JS.prop (JS.JObj (("type", JS.JStr (type_name (ptype q)))
                                       :: ("pattern", JS.JStr (pattern q))
                                       :: ("weight", JS.JNum (weight q))
                                       :: json_field "caseSensitive" pc)) "pattern"
                     = Some (JS.JStr (pattern q))) by reflexivity.
  assert (Hweight : JS.prop (JS.JObj (("type", JS.JStr (type_name (ptype q)))
                                      :: ("pattern", JS.JStr (pattern q))
                                      :: ("weight", JS.JNum (weight q))
                                      :: json_field "caseSensitive" pc)) "weight"
                    = Some (JS.JNum (weight q))) by reflexivity.
  assert (Hcase : JS.prop (JS.JObj (("type", JS.JStr (type_name (ptype q)))
                                    :: ("pattern", JS.JStr (pattern q))
                                    :: ("weight", JS.JNum (weight q))
                                    :: json_field "caseSensitive" pc)) "caseSensitive"
                  = pc) by (destruct pc; reflexivity).
  rewrite Htype, Hpattern, Hweight, Hcase.
  rewrite (or_else_truthy (Some (JS.JStr (type_name (ptype q)))))
    by (destruct (ptype q); reflexivity).
  rewrite (or_else_truthy (Some (JS.JStr (pattern q))))
    by (simpl; rewrite Hs'; reflexivity).
  rewrite (or_else_truthy (Some (JS.JNum (weight q))))
    by (simpl; rewrite Hw; reflexivity).
  unfold as_pattern. cbn [pp_type pp_pattern pp_weight pp_caseSensitive].
  rewrite truthy_or_false, Hcs.
  destruct q as [t s w cs]. destruct t; reflexivity.
Qed.

Lemma stored_patterns_read_back (ps : list ParsedPattern) (qs : list DetectionPattern)
      (acc : list ParsedPattern) :
  map as_pattern ps = map Some qs ->
  (forall q, In q qs -> kept_by_storage q) ->
  map as_pattern (parse_items (map to_json ps) acc)
  = (map as_pattern acc ++ map Some qs)%list.
Proof.
  revert qs acc. induction ps as [| p ps IH]; intros qs acc Hview Hkept.
  - destruct qs; [| discriminate]. simpl. rewrite app_nil_r. reflexivity.
  - destruct qs as [| q qs]; [discriminate |]. simpl in Hview.
    injection Hview as Hp Hrest.
    destruct (stored_pattern_read_back p q Hp (Hkept q (or_introl eq_refl)))
      as (p' & Hparse & Hp').
    cbn [map parse_items]. rewrite Hparse.
    rewrite (IH qs (acc ++ [p'])%list Hrest (fun x Hx => Hkept x (or_intror Hx))).
    rewrite map_app, <- app_assoc. simpl. rewrite Hp'. reflexivity.
Qed.

(** Adding a pattern rewrites the column of the customer in the array
    format, whatever format it had, and loses nothing: read again, the
    column gives the patterns it gave before followed by the new one, in
    agreement with the patterns held in memory, as long as no pattern is
    empty and no weight is zero. *)
Lemma addCustomerPattern_read_back (data : JS.json) (new : ParsedPattern)
      (qs : list DetectionPattern) (q : DetectionPattern) :
  patterns_read data = map Some qs ->
  as_pattern new = Some q ->
  (forall x, In x (qs ++ [q])%list -> kept_by_storage x) ->
  exists data' current,
    addCustomerPattern (Some data) new = Ok (data', current)
    /\ map as_pattern current = map Some (qs ++ [q])%list
    /\ patterns_read data' = map Some (qs ++ [q])%list.
Proof.
  intros Hread Hnew Hkept. unfold addCustomerPattern. cbv zeta.
  eexists. eexists. split; [reflexivity |].
  assert (Hcur : map as_pattern (parseIdentifierPatterns data ++ [new])%list
                 = map Some (qs ++ [q])%list).
  { rewrite !map_app. unfold patterns_read in Hread. rewrite Hread. simpl.
    rewrite Hnew. reflexivity. }
  split; [exact Hcur |]. unfold patterns_read. simpl.
  rewrite (stored_patterns_read_back _ (qs ++ [q])%list [] Hcur Hkept). reflexivity.
Qed.

Lemma add_patterns_read_back (learned : list DetectionPattern) (data : JS.json)
      (qs : list DetectionPattern) :
  patterns_read data = map Some qs ->
  (forall x, In x (qs ++ learned)%list -> kept_by_storage x) ->
  exists data',
    add_patterns (Some data) learned = Some data'
    /\ patterns_read data' = map Some (qs ++ learned)%list.
Proof.
  revert data qs. induction learned as [| p learned IH]; intros data qs Hread Hkept.
  - exists data. rewrite app_nil_r. auto.
  - assert (Hkept1 : forall x, In x (qs ++ [p])%list -> kept_by_storage x).
    { intros x Hx. apply Hkept. apply in_app_or in Hx. apply in_or_app.
      destruct Hx as [Hx | [<- | []]]; [left; exact Hx | right; left; reflexivity]. }
    destruct (addCustomerPattern_read_back data (of_pattern p) qs p Hread
                (as_pattern_of_pattern p) Hkept1)
      as (data1 & current & Hadd & _ & Hread1).
    cbn [add_patterns]. rewrite Hadd.
    destruct (IH data1 (qs ++ [p])%list Hread1) as (data' & Hall & Hread').
    { intros x Hx. apply Hkept. rewrite <- app_assoc in Hx. exact Hx. }
    exists data'. split; [exact Hall |]. rewrite Hread', <- app_assoc. reflexivity.
Qed.

Lemma prefix_app (b c : string) : String.prefix b (b ++ c) = true.
Proof.
  induction b as [| x b IH]; simpl; [destruct c; reflexivity |].
  destruct (Ascii.ascii_dec x x); [exact IH | contradiction].
Qed.

Lemma indexOf_unfold (s sub : string) :
  JS.indexOf s sub
  = if String.prefix sub s then Some 0
    else match s with
         | EmptyString => None
         | String _ s' => option_map S (JS.indexOf s' sub)
         end.
Proof.
  destruct s; reflexivity.
Qed.

Lemma includes_middle (a b c : string) : JS.includes (a ++ b ++ c) b = true.
Proof.
  unfold JS.includes. induction a as [| x a IH].
  - simpl. rewrite indexOf_unfold, prefix_app. reflexivity.
  - rewrite indexOf_unfold.
    destruct (String.prefix b (String x a ++ b ++ c)); [reflexivity |]. simpl.
    destruct (JS.indexOf (a ++ b ++ c) b); [reflexivity | discriminate].
Qed.

Lemma toLowerCase_app (a b : string) :
  JS.toLowerCase (a ++ b) = JS.toLowerCase a ++ JS.toLowerCase b.
Proof.
  induction a as [| x a IH]; simpl; [reflexivity | rewrite IH; reflexivity].
Qed.

Lemma string_app_assoc (a b c : string) : (a ++ b) ++ c = a ++ b ++ c.
Proof.
  induction a as [| x a IH]; simpl; [reflexivity | rewrite IH; reflexivity].
Qed.

Lemma string_app_nil_r (a : string) : a ++ "" = a.
Proof.
  induction a as [| x a IH]; simpl; [reflexivity | rewrite IH; reflexivity].
Qed.

Lemma trimStart_suffix (s : string) : exists a, s = a ++ JS.trimStart s.
Proof.
  induction s as [| x s [a IH]]; [exists ""; reflexivity |]. simpl.
  destruct (JS.is_space x).
  - exists (String x a). simpl. rewrite <- IH. reflexivity.
  - exists "". reflexivity.
Qed.

Lemma trimEnd_prefix (s : string) : exists c, s = JS.trimEnd s ++ c.
Proof.
  induction s as [| x s [c IH]]; [exists ""; reflexivity |]. simpl.
  destruct (JS.trimEnd s) as [| y t] eqn:Ht.
  - simpl in IH. destruct (JS.is_space x).
    + exists (String x c). rewrite <- IH. reflexivity.
    + exists c. simpl. rewrite <- IH. reflexivity.
  - exists c. simpl. simpl in IH. rewrite <- IH. reflexivity.
Qed.

Lemma trim_inside (s : string) : exists a c, s = a ++ JS.trim s ++ c.
Proof.
  destruct (trimStart_suffix s) as [a Ha].
  destruct (trimEnd_prefix (JS.trimStart s)) as [c Hc].
  exists a, c. unfold JS.trim. rewrite <- Hc. exact Ha.
Qed.

Lemma join_inside (sep l : string) (ls : list string) :
  In l ls -> exists a c, JS.join sep ls = a ++ l ++ c.
Proof.
  unfold JS.join. induction ls as [| x ls IH]; intro Hin; [destruct Hin |].
  destruct Hin as [-> | Hin].
  - destruct ls as [| y ls'].
    + exists "", "". simpl. rewrite string_app_nil_r. reflexivity.
    + exists "", (sep ++ String.concat sep (y :: ls')). reflexivity.
  - destruct (IH Hin) as (a & c & Heq). destruct ls as [| y ls']; [destruct Hin |].
    exists (x ++ sep ++ a), c.
    change (String.concat sep (x :: y :: ls'))
      with (x ++ sep ++ String.concat sep (y :: ls')).
    rewrite Heq, !string_app_assoc. reflexivity.
Qed.

Lemma firstn_min_length {A : Type} (k : nat) (l : list A) :
  firstn (Nat.min k (length l)) l = firstn k l.
Proof.
  destruct (Nat.le_ge_cases k (length l)) as [H | H].
  - rewrite Nat.min_l by exact H. reflexivity.
  - rewrite Nat.min_r by exact H. rewrite firstn_all.
    symmetry. apply firstn_all2. exact H.
Qed.

Lemma firstn_member {A : Type} (n : nat) (l : list A) (x : A) :
  In x (firstn n l) -> In x l.
Proof.
  revert l. induction n as [| n IH]; intros l H; [destruct H |].
  destruct l as [| y l]; [destruct H |]. simpl in H.
  destruct H as [-> | H]; [left; reflexivity | right; exact (IH l H)].
Qed.

Lemma header_candidate_hit (text line : string) (p : DetectionPattern) :
  In line (JS.slice 0 5 (JS.lines text)) ->
  In p (header_candidate line) ->
  ptype p = PHeader
  /\ header_footer_hit (header_lines text) (footer_lines text) p = true
  /\ 5 < String.length (pattern p) < 50.
Proof.
  intros Hline Hp. unfold header_candidate in Hp. cbv zeta in Hp.
  destruct ((5 <? String.length (JS.trim line))
            && (String.length (JS.trim line) <? 50)
            && looks_like_name (JS.trim line)) eqn:Hc; [| destruct Hp].
  destruct Hp as [<- | []].
  apply andb_true_iff in Hc. destruct Hc as [Hc _].
  apply andb_true_iff in Hc. destruct Hc as [Hlo Hhi].
  apply Nat.ltb_lt in Hlo. apply Nat.ltb_lt in Hhi.
  split; [reflexivity |]. split; [| simpl; lia].
  unfold header_footer_hit, header_lines. cbn [ptype caseSensitive pattern].
  assert (Hin : In line (JS.slice 0 (Nat.min 5 (length (JS.lines text))) (JS.lines text))).
  { unfold JS.slice in *. rewrite Nat.sub_0_r in *. simpl skipn in *.
    rewrite firstn_min_length. exact Hline. }
  destruct (join_inside " " line _ Hin) as (a & c & Hjoin).
  destruct (trim_inside line) as (a' & c' & Htrim).
  rewrite Hjoin. rewrite Htrim at 1.
  rewrite !string_app_assoc, <- (string_app_assoc a a').
  rewrite !toLowerCase_app. apply includes_middle.
Qed.

(** X11.  A header pattern learned from a document is a line of 6 to 49
    characters among its first five, and the pattern match finds it again
    in that document. *)
Theorem learned_header_matches_its_document
        (captures : string -> string -> list string) (text : string)
        (p : DetectionPattern) :
  In p (extractPotentialPatterns captures text) -> ptype p = PHeader ->
  header_footer_hit (header_lines text) (footer_lines text) p = true
  /\ 5 < String.length (pattern p) < 50
  /\ exists line, In line (JS.slice 0 5 (JS.lines text)) /\ pattern p = JS.trim line.
Proof.
  intros Hp Htype. unfold extractPotentialPatterns in Hp. apply in_app_or in Hp.
  destruct Hp as [Hp | Hp].
  - apply in_flat_map in Hp. destruct Hp as (line & Hline & Hp).
    destruct (header_candidate_hit text line p Hline Hp) as (_ & Hhit & Hlen).
    split; [exact Hhit |]. split; [exact Hlen |]. exists line. split; [exact Hline |].
    unfold header_candidate in Hp. cbv zeta in Hp.
    destruct (_ && _ && _); [| destruct Hp]. destruct Hp as [<- | []]. reflexivity.
  - apply in_flat_map in Hp. destruct Hp as (e & _ & Hp).
    apply in_map_iff in Hp. destruct Hp as (m & <- & _). discriminate.
Qed.

(** X12.  Learning from a correction appends the first three patterns found
    in the document to the column of the customer: read again, the column
    gives the patterns it gave before followed by those, as long as no
    pattern is empty and no weight is zero. *)
Theorem learning_appends_three_patterns
        (captures : string -> string -> list string) (data : JS.json)
        (documentText : string) (qs : list DetectionPattern) :
  patterns_read data = map Some qs ->
  (forall x, In x qs -> kept_by_storage x) ->
  (forall p m, In m (captures p documentText) -> m <> "") ->
  exists data',
    learnFromCorrection captures (Some data) documentText = Some data'
    /\ patterns_read data'
       = map Some (qs ++ JS.slice 0 3 (extractPotentialPatterns captures documentText))%list.
Proof.
  intros Hread Hkept Hcaptures. unfold learnFromCorrection.
  apply add_patterns_read_back; [exact Hread |].
  intros x Hx. apply in_app_or in Hx. destruct Hx as [Hx | Hx]; [exact (Hkept x Hx) |].
  unfold JS.slice in Hx. apply firstn_member in Hx. simpl skipn in Hx.
  unfold extractPotentialPatterns in Hx. apply in_app_or in Hx.
  destruct Hx as [Hx | Hx].
  - apply in_flat_map in Hx. destruct Hx as (line & _ & Hx).
    unfold header_candidate in Hx. cbv zeta in Hx.
    destruct ((5 <? String.length (JS.trim line)) && _ && _) eqn:Hc; [| destruct Hx].
    destruct Hx as [<- | []]. split; [| reflexivity]. simpl.
    apply andb_true_iff in Hc. destruct Hc as [Hc _].
    apply andb_true_iff in Hc. destruct Hc as [Hlo _]. apply Nat.ltb_lt in Hlo.
    intro He. rewrite He in Hlo. simpl in Hlo. lia.
  - apply in_flat_map in Hx. destruct Hx as (e & _ & Hx).
    apply in_map_iff in Hx. destruct Hx as (m & <- & Hm). split; [| reflexivity].
    simpl. exact (Hcaptures e m Hm).
Qed.

End LearningProperties.

(** ** Keyword extraction *)

Section KeywordProperties.
Import TemplateEngine.

Lemma trimEnd_fixed_tail (c : ascii) (s : string) :
  JS.trimEnd (String c s) = String c s ->
  JS.trimEnd s = s /\ (s = "" -> JS.is_space c = false).
Proof.
  simpl. destruct (JS.trimEnd s) as [| d t] eqn:Ht.
  - destruct (JS.is_space c); intro H; [discriminate H |].
    injection H as <-. auto.
  - intro H. injection H as <-. split; [reflexivity | discriminate].
Qed.

Lemma trimEnd_fixed_suffix (s : string) (k : nat) :
  JS.trimEnd s = s -> JS.trimEnd (JS.substring_from k s) = JS.substring_from k s.
Proof.
  revert k. induction s as [| c s IH]; intros k H.
  - destruct k; reflexivity.
  - destruct k as [| k]; [exact H |]. simpl.
    apply IH. exact (proj1 (trimEnd_fixed_tail c s H)).
Qed.

Lemma trimEnd_fixed_trimStart (s : string) :
  JS.trimEnd s = s ->
  JS.trimEnd (JS.trimStart s) = JS.trimStart s /\ (s <> "" -> JS.trimStart s <> "").
Proof.
  induction s as [| c s IH]; intro H; [split; [reflexivity | congruence] |].
  destruct (trimEnd_fixed_tail c s H) as [Hs Hc]. simpl.
  destruct (JS.is_space c) eqn:Hspace.
  - destruct (IH Hs) as [Hfix Hne]. split; [exact Hfix |]. intros _. apply Hne.
    intro He. discriminate (Hc He).
  - split; [exact H | discriminate].
Qed.

Lemma trim_of_fixed (s : string) :
  JS.trimEnd s = s -> s <> "" -> JS.trim s <> "" /\ JS.trim (JS.trim s) = JS.trim s.
Proof.
  intros H Hne. destruct (trimEnd_fixed_trimStart s H) as [Hfix Hstart].
  unfold JS.trim at 1. rewrite Hfix. split; [exact (Hstart Hne) | apply trim_idem].
Qed.

Lemma give_back_unfold (k : nat) (s : string) :
  give_back k s
  = if dot_plus_to_end (JS.substring_from k s) then Some (JS.substring_from k s)
    else match k with
         | 0 => None
         | S k' => give_back k' s
         end.
Proof.
  destruct k; reflexivity.
Qed.

Lemma give_back_suffix (k : nat) (s g : string) :
  give_back k s = Some g -> g <> "" /\ exists j, g = JS.substring_from j s.
Proof.
  assert (Hhit : forall j, dot_plus_to_end (JS.substring_from j s) = true ->
                           Some (JS.substring_from j s) = Some g ->
                           g <> "" /\ exists j, g = JS.substring_from j s).
  { intros j Hd H. injection H as <-. split; [| exists j; reflexivity].
    unfold dot_plus_to_end in Hd. intro He. rewrite He in Hd. discriminate. }
  induction k as [| k IH]; rewrite give_back_unfold.
  - destruct (dot_plus_to_end (JS.substring_from 0 s)) eqn:Hd; [| discriminate].
    exact (Hhit 0 Hd).
  - destruct (dot_plus_to_end (JS.substring_from (S k) s)) eqn:Hd; [| exact IH].
    exact (Hhit (S k) Hd).
Qed.

Lemma same_line_value_clean (line : string) (keywordIndex : nat) (keyword v : string) :
  same_line_value line keywordIndex keyword = Some v -> v <> "" /\ JS.trim v = v.
Proof.
  unfold same_line_value. cbv zeta.
  destruct (match_after_colon _) as [g |] eqn:Hg; [| discriminate].
  intro H. injection H as <-. unfold match_after_colon in Hg.
  apply give_back_suffix in Hg. destruct Hg as (Hne & j & ->).
  apply trim_of_fixed; [| exact Hne].
  apply trimEnd_fixed_suffix. unfold JS.trim. apply trimEnd_idem.
Qed.

Lemma first_nonempty_trimmed_clean (ls : list string) (v : string) :
  first_nonempty_trimmed ls = Some v -> v <> "" /\ JS.trim v = v.
Proof.
  induction ls as [| l ls IH]; simpl; [discriminate |].
  destruct (String.eqb (JS.trim l) "") eqn:He; [exact IH |].
  intro H. injection H as <-. split; [| apply trim_idem].
  intro Hempty. rewrite Hempty in He. discriminate.
Qed.

Lemma scan_lines_clean (lines : list string) (kc : KeywordConfig) (keyword : string)
      (i : nat) (rest : list string) (v : string) :
  scan_lines lines kc keyword i rest = Some (Some v) -> v <> "" /\ JS.trim v = v.
Proof.
  revert i. induction rest as [| line rest IH]; intro i; simpl; [discriminate |].
  destruct (JS.indexOf _ _) as [keywordIndex |]; [| apply IH].
  destruct (direction kc).
  - destruct (first_nonempty_trimmed _) as [l |] eqn:Hl; [| apply IH].
    intro H. injection H as <-. exact (first_nonempty_trimmed_clean _ _ Hl).
  - destruct (first_nonempty_trimmed _) as [l |] eqn:Hl; [| apply IH].
    intro H. injection H as <-. exact (first_nonempty_trimmed_clean _ _ Hl).
  - intro H. injection H as H. exact (same_line_value_clean _ _ _ _ H).
Qed.

(** X19.  A value extracted by keyword is never empty and has no white space
    at either end, whatever the direction. *)
Theorem keyword_value_is_never_blank (rule : ExtractionRule) (text v : string) :
  extractWithKeyword rule text = Some v -> v <> "" /\ JS.trim v = v.
Proof.
  unfold extractWithKeyword. destruct (keywordConfig rule) as [kc |]; [| discriminate].
  generalize (keywords kc). intro ks.
  induction ks as [| keyword ks IH]; simpl; [discriminate |].
  destruct (scan_lines (JS.lines text) kc keyword 0 (JS.lines text)) as [[r |] |] eqn:Hs.
  - intro H. injection H as <-. exact (scan_lines_clean _ _ _ _ _ _ Hs).
  - discriminate.
  - exact IH.
Qed.

End KeywordProperties.

Lemma keyword_value_is_never_blank_witness :
  "INV-1001" <> "" /\ JS.trim "INV-1001" = "INV-1001".
Proof.
  apply (keyword_value_is_never_blank
           (required_rule "invoice_number" "Invoice #" TemplateEngine.dt_string)
           invoice_text "INV-1001").
  reflexivity.
Defined.

Lemma empty_source_pattern_replaces_every_value_witness :
  TemplateEngine.mapping_matches sample_runtime catch_all_mapping
                                 (TemplateEngine.JString "freight") = true
  /\ exists m', In m' [catch_all_mapping]
                /\ TemplateEngine.m_fieldName m' = "expense_type"
                /\ TemplateEngine.applyHardcodedMappings
                     sample_runtime [catch_all_mapping] "expense_type"
                     (TemplateEngine.JString "freight")
                   = TemplateEngine.JString (TemplateEngine.targetValue m').
Proof.
  apply (empty_source_pattern_replaces_every_value
           sample_runtime [catch_all_mapping] "expense_type"
           (TemplateEngine.JString "freight") catch_all_mapping).
  - left. reflexivity.
  - reflexivity.
  - reflexivity.
Defined.

Lemma valid_value_meets_constraints_witness :
  TemplateEngine.type_errors sample_runtime TemplateEngine.dt_currency
                             (TemplateEngine.JString "$250.00") = [].
Proof.
  destruct (valid_value_meets_constraints
              sample_runtime
              (required_rule "total_amount" "Total:" TemplateEngine.dt_currency)
              {| TemplateEngine.dataType := TemplateEngine.dt_currency;
                 TemplateEngine.required := true;
                 TemplateEngine.minLength := None;
                 TemplateEngine.maxLength := None;
                 TemplateEngine.v_pattern := None |}
              (TemplateEngine.JString "$250.00"))
    as (Htype & _).
  - reflexivity.
  - reflexivity.
  - reflexivity.
  - exact Htype.
Defined.

Lemma learned_header_matches_its_document_witness :
  CustomerDetector.header_footer_hit (header_lines letterhead) (footer_lines letterhead)
                                     learned_header = true.
Proof.
  destruct (learned_header_matches_its_document one_account letterhead learned_header)
    as (Hhit & _).
  - vm_compute. left. reflexivity.
  - reflexivity.
  - exact Hhit.
Defined.

Lemma learning_appends_three_patterns_witness :
  exists data',
    CustomerDetector.learnFromCorrection one_account (Some (JS.JObj legacy_data))
                                         letterhead = Some data'
    /\ patterns_read data'
       = map Some (legacy_patterns legacy_data
                   ++ JS.slice 0 3 (CustomerDetector.extractPotentialPatterns
                                      one_account letterhead))%list.
Proof.
  apply (learning_appends_three_patterns one_account (JS.JObj legacy_data) letterhead
           (legacy_patterns legacy_data)).
  - reflexivity.
  - intros x Hx. simpl in Hx.
    destruct Hx as [<- | [<- | []]]; split; [discriminate | reflexivity
                                            | discriminate | reflexivity].
  - intros p m. unfold one_account. destruct (String.prefix "Account" p).
    + intros [<- | []]. discriminate.
    + intros [].
Defined.
